(** * A binary buddy allocator over a fixed arena (buddy.c)

    The development embeds the C functions [getOrder], [splitBlock],
    [buddy_init], [buddy_alloc] and [buddy_free] as Rocq functions over an
    explicit allocator state and proves the properties of the allocator
    over that embedding.

    Conventions of the embedding.
    - C [int] values are integers of [Z]; every operation whose C result is
      undefined (division by zero, a shift that leaves the range of [int],
      an array access out of bounds, a null dereference) yields [Fault].
    - A pointer into the arena is its byte offset from [g_memory]; the null
      pointer is a separate constructor.
    - The intrusive lists of list.h are kept as the sequence of page indices
      linked behind each head of [free_area], first entry first. list.h is
      not among the sources; its operations are modelled as the Linux list
      primitives that buddy.c names.
    - [fprintf] and [printf] are not modelled. *)

From Stdlib Require Import ZArith List Bool Lia ZifyClasses.
From Stdlib.Strings Require Import Byte.
Import ListNotations.
Open Scope Z_scope.

Set Implicit Arguments.

(** ** Outcomes of a C computation *)

Inductive outcome (A : Type) : Type :=
| Ret (a : A)      (* the computation returns [a] *)
| Fault            (* undefined behaviour, or a list operation on a node
                      whose linkage the model does not represent *)
| OutOfFuel.       (* the recursion budget of the model ran out *)

Arguments Fault {A}.
Arguments OutOfFuel {A}.

Definition bind {A B} (m : outcome A) (k : A -> outcome B) : outcome B :=
  match m with
  | Ret a => k a
  | Fault => Fault
  | OutOfFuel => OutOfFuel
  end.

Notation "x <- m ;; k" := (bind m (fun x => k))
  (at level 61, m at next level, right associativity).
Notation "' pat <- m ;; k" := (bind m (fun x => match x with pat => k end))
  (at level 61, pat pattern, m at next level, right associativity).

(** ** Machine integers *)

Definition INT_MIN : Z := - 2 ^ 31.
Definition INT_MAX : Z := 2 ^ 31 - 1.

(** [a << n] on [int]: defined when [0 <= n < 32], [a] is not negative and
    the product fits [int]. *)
Definition shl_int (a n : Z) : outcome Z :=
  if (0 <=? n) && (n <? 32) && (0 <=? a) && (a * 2 ^ n <=? INT_MAX)
  then Ret (a * 2 ^ n) else Fault.

(** [a / b] on [int]: truncating; undefined for [b = 0] and for
    [INT_MIN / -1]. *)
Definition div_int (a b : Z) : outcome Z :=
  if b =? 0 then Fault
  else if (a =? INT_MIN) && (b =? -1) then Fault
  else Ret (Z.quot a b).

(** Conversion of an [unsigned long] to [int] (the low 32 bits, signed). *)
Definition to_int (z : Z) : Z := (z + 2 ^ 31) mod 2 ^ 32 - 2 ^ 31.

(** Conversion to [unsigned long]. *)
Definition to_ulong (z : Z) : Z := z mod 2 ^ 64.

(** ** Configuration *)

Definition MIN_ORDER : Z := 12.
Definition MAX_ORDER : Z := 20.
Definition PAGE_SIZE : Z := 2 ^ MIN_ORDER.
Definition N_PAGES : Z := 2 ^ MAX_ORDER / PAGE_SIZE.

(** ** Pointers *)

Inductive ptr : Type :=
| NULL
| Arena (off : Z).    (* [g_memory + off] *)

Definition ptr_eqb (p q : ptr) : bool :=
  match p, q with
  | NULL, NULL => true
  | Arena a, Arena b => a =? b
  | _, _ => false
  end.

Definition PAGE_TO_ADDR (page_idx : Z) : ptr := Arena (page_idx * PAGE_SIZE).

Definition ADDR_TO_PAGE (addr : ptr) : outcome Z :=
  match addr with
  | NULL => Fault
  | Arena off => Ret (to_ulong off / PAGE_SIZE)
  end.

Definition BUDDY_ADDR (addr : ptr) (o : Z) : outcome ptr :=
  match addr with
  | NULL => Fault
  | Arena off => bit <- shl_int 1 o ;; Ret (Arena (Z.lxor (to_ulong off) bit))
  end.

(** ** Lists indexed by integers *)

Definition zget {A} (l : list A) (i : Z) : option A :=
  if i <? 0 then None else nth_error l (Z.to_nat i).

Fixpoint nset {A} (l : list A) (n : nat) (v : A) : list A :=
  match l, n with
  | [], _ => []
  | _ :: t, O => v :: t
  | h :: t, S n' => h :: nset t n' v
  end.

Definition zset {A} (l : list A) (i : Z) (v : A) : list A :=
  if i <? 0 then l else nset l (Z.to_nat i) v.

(** ** Allocator state *)

(** [page_t]; the [list] member is represented by the sequences below. *)
Record page_t : Type := mkPage {
  addr : ptr;
  order : Z;
  index : Z
}.

(** Modelled from the spec: [struct list_head] of list.h, which is not among
    the sources, as a head of [free_area]: the spec keeps one intrusive
    doubly-linked list of block heads per order. Static storage starts
    zeroed, so a head on which INIT_LIST_HEAD never ran has null [next] and
    [prev]; an initialised head is given by its entries in order. *)
Inductive list_head : Type :=
| Zeroed
| Chain (entries : list Z).

Record state : Type := mkState {
  g_memory : Z -> byte;            (* char g_memory[1<<MAX_ORDER] *)
  g_pages : list page_t;           (* page_t g_pages[...] *)
  free_area : list list_head       (* struct list_head free_area[MAX_ORDER+1] *)
}.

Definition set_pages (st : state) (ps : list page_t) : state :=
  mkState (g_memory st) ps (free_area st).

Definition set_free_area (st : state) (fa : list list_head) : state :=
  mkState (g_memory st) (g_pages st) fa.

Definition set_memory (st : state) (m : Z -> byte) : state :=
  mkState m (g_pages st) (free_area st).

Definition get_page (st : state) (i : Z) : outcome page_t :=
  match zget (g_pages st) i with
  | Some pg => Ret pg
  | None => Fault
  end.

(** [g_pages[i].order = o] *)
Definition set_order (st : state) (i o : Z) : outcome state :=
  pg <- get_page st i ;;
  Ret (set_pages st (zset (g_pages st) i (mkPage (addr pg) o (index pg)))).

(** ** list.h over sequences *)

Definition mem (p : Z) (l : list Z) : bool := existsb (Z.eqb p) l.

Definition in_chain (p : Z) (h : list_head) : bool :=
  match h with
  | Zeroed => false
  | Chain l => mem p l
  end.

(** The node of page [p] is linked behind some head. *)
Definition linked (st : state) (p : Z) : bool :=
  existsb (in_chain p) (free_area st).

Definition drop (p : Z) (l : list Z) : list Z :=
  filter (fun q => negb (q =? p)) l.

Definition unlink (p : Z) (h : list_head) : list_head :=
  match h with
  | Zeroed => Zeroed
  | Chain l => Chain (drop p l)
  end.

(** Modelled from the spec: [list_empty(&free_area[o])] of list.h, the test
    [head->next == head]. A zeroed head has a null [next], which is not the
    head itself. *)
Definition list_empty (st : state) (o : Z) : outcome bool :=
  match zget (free_area st) o with
  | None => Fault
  | Some Zeroed => Ret false
  | Some (Chain []) => Ret true
  | Some (Chain (_ :: _)) => Ret false
  end.

(** Modelled from the spec: [list_add(&g_pages[p].list, &free_area[o])] of
    list.h, which inserts the page as the new first entry. Writing through
    the null [next] of a zeroed head faults; a node that is still linked
    elsewhere would leave that list broken, which the sequences cannot
    express. *)
Definition list_add (st : state) (p o : Z) : outcome state :=
  match zget (free_area st) o with
  | Some (Chain l) =>
      if linked st p then Fault
      else Ret (set_free_area st (zset (free_area st) o (Chain (p :: l))))
  | _ => Fault
  end.

(** Modelled from the spec: [list_del(&g_pages[p].list)] of list.h, which
    unlinks the node from the list it is in; on a node that is in no list
    the pointers it follows are stale. *)
Definition list_del (st : state) (p : Z) : outcome state :=
  if linked st p then Ret (set_free_area st (map (unlink p) (free_area st)))
  else Fault.

(** Modelled from the spec: [list_entry(free_area[o].next, page_t, list)]
    of list.h, the page of the first entry. On an empty list the entry is
    the head itself, which is no page; on a zeroed head it is null. *)
Definition first_entry (st : state) (o : Z) : outcome Z :=
  match zget (free_area st) o with
  | Some (Chain (p :: _)) => Ret p
  | _ => Fault
  end.

(** Modelled from the spec: the entries that [list_for_each_entry] of
    list.h visits over [free_area[o]], first entry first. *)
Definition entries_of (st : state) (o : Z) : outcome (list Z) :=
  match zget (free_area st) o with
  | Some (Chain l) => Ret l
  | _ => Fault
  end.

(** ** getOrder *)

Fixpoint getOrder_loop (fuel : nat) (size order : Z) : outcome Z :=
  pw <- shl_int 1 order ;;
  q <- div_int pw size ;;
  if q <? 1 then
    match fuel with
    | O => OutOfFuel
    | S fuel' => getOrder_loop fuel' size (order + 1)
    end
  else Ret order.

Definition getOrder (size : Z) : outcome Z :=
  order <- getOrder_loop 32 size MIN_ORDER ;;
  if order >? MAX_ORDER then Ret (-1) else Ret order.

(** ** splitBlock *)

Fixpoint splitBlock (fuel : nat) (st : state)
    (head currentOrder endOrder blockStartIndex : Z) : outcome (state * ptr) :=
  if currentOrder =? endOrder then
    st1 <- list_del st blockStartIndex ;;
    pg <- get_page st1 blockStartIndex ;;
    Ret (st1, addr pg)
  else
    let newOrder := currentOrder - 1 in
    leftBlockPage <- get_page st blockStartIndex ;;
    st1 <- set_order st blockStartIndex newOrder ;;
    buddy <- BUDDY_ADDR (addr leftBlockPage) newOrder ;;
    pageno <- ADDR_TO_PAGE buddy ;;
    let rightBlockIndex := to_int pageno in
    st2 <- set_order st1 rightBlockIndex newOrder ;;
    st3 <- list_del st2 blockStartIndex ;;
    st4 <- list_add st3 rightBlockIndex newOrder ;;
    st5 <- list_add st4 blockStartIndex newOrder ;;
    match fuel with
    | O => OutOfFuel
    | S fuel' => splitBlock fuel' st5 newOrder newOrder endOrder blockStartIndex
    end.

(** ** buddy_init *)

Fixpoint init_pages (n : nat) (i : Z) (ps : list page_t) : list page_t :=
  match n with
  | O => ps
  | S n' => init_pages n' (i + 1) (zset ps i (mkPage (PAGE_TO_ADDR i) (-1) i))
  end.

Fixpoint init_heads (n : nat) (i : Z) (fa : list list_head) : list list_head :=
  match n with
  | O => fa
  | S n' => init_heads n' (i + 1) (zset fa i (Chain []))
  end.

Definition buddy_init (st : state) : outcome state :=
  let n_pages := N_PAGES in
  let ps := init_pages (Z.to_nat n_pages) 0 (g_pages st) in
  let fa := init_heads (Z.to_nat (MAX_ORDER + 1 - MIN_ORDER)) MIN_ORDER (free_area st) in
  let st1 := mkState (g_memory st) ps fa in
  st2 <- list_add st1 0 MAX_ORDER ;;
  set_order st2 0 MAX_ORDER.

(** The program image before [buddy_init]: all static storage zeroed. *)
Definition boot : state :=
  mkState (fun _ => x00)
          (repeat (mkPage NULL 0 0) (Z.to_nat N_PAGES))
          (repeat Zeroed (Z.to_nat (MAX_ORDER + 1))).

(** ** buddy_alloc *)

(** The [for] loop that looks for a non-empty free list. The result is the
    value of [freeOrder] when the loop is left. *)
Fixpoint scan_free (fuel : nat) (st : state) (freeOrder : Z) : outcome Z :=
  if freeOrder <=? MAX_ORDER then
    e <- list_empty st freeOrder ;;
    if negb e then Ret freeOrder                       (* break *)
    else
      let freeOrder1 := if freeOrder =? MAX_ORDER then -1 else freeOrder in
      match fuel with
      | O => OutOfFuel
      | S fuel' => scan_free fuel' st (freeOrder1 + 1)  (* freeOrder++ *)
      end
  else Ret freeOrder.

(** The budget of loop iterations and nested calls that the model gives to
    [buddy_alloc] and [buddy_free]; C has none. On a well-formed state the
    budget is never used up: see [buddy_alloc_returns], [buddy_alloc_exhausted]
    and [buddy_free_live]. *)
Definition DEPTH : nat := 64.

Definition buddy_alloc (st : state) (size : Z) : outcome (state * ptr) :=
  orderOfRequest <- getOrder size ;;
  if orderOfRequest <? 0 then Ret (st, NULL)
  else
    freeOrder <- scan_free DEPTH st orderOfRequest ;;
    if freeOrder <? 0 then Ret (st, NULL)
    else
      first <- first_entry st freeOrder ;;
      pg <- get_page st first ;;
      pageno <- ADDR_TO_PAGE (addr pg) ;;
      let blockStartIndex := to_int pageno in
      splitBlock DEPTH st freeOrder freeOrder orderOfRequest blockStartIndex.

(** ** buddy_free *)

(** The scan of [list_for_each_entry] up to the first entry whose address
    is [buddyAddr]. *)
Fixpoint find_buddy (st : state) (buddyAddr : ptr) (l : list Z) : outcome (option Z) :=
  match l with
  | [] => Ret None
  | t :: l' =>
      tempPage <- get_page st t ;;
      if ptr_eqb (addr tempPage) buddyAddr then Ret (Some t)
      else find_buddy st buddyAddr l'
  end.

Fixpoint buddy_free_rec (fuel : nat) (st : state) (a : ptr) : outcome state :=
  match a with
  | NULL => Ret st
  | Arena _ =>
      pageno <- ADDR_TO_PAGE a ;;
      pageToFree <- get_page st pageno ;;
      e <- list_empty st (order pageToFree) ;;
      if e then list_add st pageno (order pageToFree)
      else
        buddyAddr <- BUDDY_ADDR (addr pageToFree) (order pageToFree) ;;
        l <- entries_of st (order pageToFree) ;;
        found <- find_buddy st buddyAddr l ;;
        match found with
        | Some t =>
            tempPage <- get_page st t ;;
            let '(leftBlock, rightBlock) :=
              if index tempPage <? index pageToFree then (t, pageno) else (pageno, t) in
            st1 <- set_order st rightBlock (-1) ;;
            leftPage <- get_page st1 leftBlock ;;
            st2 <- set_order st1 leftBlock (order leftPage + 1) ;;
            st3 <- list_del st2 t ;;
            leftPage' <- get_page st3 leftBlock ;;
            if order leftPage' <=? MAX_ORDER then
              match fuel with
              | O => OutOfFuel
              | S fuel' => buddy_free_rec fuel' st3 (addr leftPage')
              end
            else Ret st3
        | None => list_add st pageno (order pageToFree)
        end
  end.

Definition buddy_free (st : state) (a : ptr) : outcome state :=
  buddy_free_rec DEPTH st a.

(** ** Driving the allocator *)

Inductive call : Type :=
| Alloc (size : Z)
| Free (a : ptr).

Inductive verdict : Type :=
| Done (st : state) (live : list ptr)   (* every call returned *)
| Crashed                               (* some call did not return a value *)
| Misuse.                               (* a block was freed that is not live *)

Definition ptr_eq_dec (p q : ptr) : {p = q} + {p <> q}.
Proof. decide equality; apply Z.eq_dec. Defined.

(** Runs the calls in order from [st]; [live] collects the addresses handed
    out by [buddy_alloc] and not yet given back. *)
Fixpoint run (tr : list call) (st : state) (live : list ptr) : verdict :=
  match tr with
  | [] => Done st live
  | Alloc size :: tr' =>
      match buddy_alloc st size with
      | Ret (st', NULL) => run tr' st' live
      | Ret (st', a) => run tr' st' (a :: live)
      | _ => Crashed
      end
  | Free a :: tr' =>
      if in_dec ptr_eq_dec a live then
        match buddy_free st a with
        | Ret st' => run tr' st' (remove ptr_eq_dec a live)
        | _ => Crashed
        end
      else Misuse
  end.

Unset Implicit Arguments.

(** ** Views of a state *)

(** Pages per block of order [o]. *)
Definition psize (o : Z) : Z := 2 ^ (o - MIN_ORDER).

(** The [order] member of page [p]. *)
Definition ord (st : state) (p : Z) : Z :=
  match zget (g_pages st) p with
  | Some pg => order pg
  | None => -1
  end.

(** The entries of [free_area[o]]. *)
Definition fl (st : state) (o : Z) : list Z :=
  match zget (free_area st) o with
  | Some (Chain l) => l
  | _ => []
  end.

(** The page index of the buddy of the block at page [p] of order [o]. *)
Definition buddy_of (p o : Z) : Z := Z.lxor p (psize o).

Definition with_order (st : state) (i o : Z) : state :=
  set_pages st (zset (g_pages st) i (mkPage (PAGE_TO_ADDR i) o i)).

Definition with_list (st : state) (o : Z) (l : list Z) : state :=
  set_free_area st (zset (free_area st) o (Chain l)).

Definition unlinked (st : state) (p : Z) : state :=
  set_free_area st (map (unlink p) (free_area st)).

(** The page table is addressed as [buddy_init] leaves it and the heads of
    the orders in use are initialised. *)
Record shape (st : state) : Prop := {
  sh_pages : length (g_pages st) = Z.to_nat N_PAGES;
  sh_page : forall i, 0 <= i < N_PAGES ->
      zget (g_pages st) i = Some (mkPage (PAGE_TO_ADDR i) (ord st i) i);
  sh_heads : length (free_area st) = Z.to_nat (MAX_ORDER + 1);
  sh_low : forall o, 0 <= o < MIN_ORDER -> zget (free_area st) o = Some Zeroed;
  sh_high : forall o, MIN_ORDER <= o <= MAX_ORDER ->
      zget (free_area st) o = Some (Chain (fl st o))
}.

(** Block structure: heads are aligned, the pages inside a block are not
    heads, every page lies in a block, and each free list holds distinct
    heads of its own order. *)
Record wf (st : state) : Prop := {
  wf_shape : shape st;
  wf_head : forall p, 0 <= p < N_PAGES ->
      ord st p = -1 \/
      (MIN_ORDER <= ord st p <= MAX_ORDER /\ p mod psize (ord st p) = 0);
  wf_interior : forall p q, 0 <= p < N_PAGES -> ord st p <> -1 ->
      p < q < p + psize (ord st p) -> ord st q = -1;
  wf_cover : forall q, 0 <= q < N_PAGES ->
      exists p, 0 <= p <= q /\ ord st p <> -1 /\ q < p + psize (ord st p);
  wf_list : forall o p, MIN_ORDER <= o <= MAX_ORDER -> In p (fl st o) ->
      0 <= p < N_PAGES /\ ord st p = o;
  wf_nodup : forall o, MIN_ORDER <= o <= MAX_ORDER -> NoDup (fl st o)
}.

(** No free list holds a block together with its buddy. *)
Definition no_free_buddies (st : state) : Prop :=
  forall o p, MIN_ORDER <= o <= MAX_ORDER ->
    In p (fl st o) -> ~ In (buddy_of p o) (fl st o).

Definition Inv (st : state) : Prop := wf st /\ no_free_buddies st.

(** Page [p] heads a block that is in no free list. *)
Definition allocated (st : state) (p : Z) : Prop :=
  0 <= p < N_PAGES /\ ord st p <> -1 /\ ~ In p (fl st (ord st p)).

(** Every sufficient free list is empty. *)
Definition exhausted (st : state) (o : Z) : Prop :=
  forall o', o <= o' <= MAX_ORDER -> fl st o' = [].

(** The state that [buddy_init] leaves. *)
Definition fresh : state :=
  match buddy_init boot with
  | Ret st => st
  | _ => boot
  end.

(** Integers [lo, lo+1, ..., lo+n-1], for checks over the finite ranges of
    orders and page indices. *)
Definition zrange (lo : Z) (n : nat) : list Z :=
  map (fun i => lo + Z.of_nat i) (seq 0 n).

Definition all_orders : list Z := zrange MIN_ORDER (Z.to_nat (MAX_ORDER + 1 - MIN_ORDER)).
Definition all_pages : list Z := zrange 0 (Z.to_nat N_PAGES).

(** What the buddy computation gives for page [p] at order [o]: the macro
    on addresses agrees with [buddy_of] on page indices, and the buddy of an
    aligned block is the other half of the enclosing block of twice the
    size. *)
Definition buddy_check (o p : Z) : bool :=
  (Z.lxor (to_ulong (p * PAGE_SIZE)) (1 * 2 ^ o) =? buddy_of p o * PAGE_SIZE)
  && (0 <=? buddy_of p o) && (buddy_of p o <? 2 * N_PAGES)
  && (if p mod psize o =? 0
      then ((p mod psize (o + 1) =? 0) && (buddy_of p o =? p + psize o))
           || ((p mod psize (o + 1) =? psize o) && (buddy_of p o =? p - psize o))
      else true).

(** The state after one coalescing step of [buddy_free]: the block at [p]
    of order [o] and its free buddy [b] become one block of order [o + 1]
    headed by the lower page; [b] leaves its free list. *)
Definition merge_step (st : state) (p b o : Z) : state :=
  unlinked (with_order (with_order st (Z.max p b) (-1)) (Z.min p b) (o + 1)) b.

(** Page [i] of [st] records its own address and index, and its order is
    what it is after [buddy_init]. *)
Definition fresh_page_check (st : state) (i : Z) : bool :=
  match zget (g_pages st) i with
  | Some pg =>
      ptr_eqb (addr pg) (PAGE_TO_ADDR i) && (index pg =? i)
      && (order pg =? (if i =? 0 then MAX_ORDER else -1))
  | None => false
  end.

(** [live] lists the addresses of the allocated blocks of [st]. *)
Definition live_ok (st : state) (live : list ptr) : Prop :=
  forall a, In a live <-> exists q, a = PAGE_TO_ADDR q /\ allocated st q.

(** A run in which every call is within its contract when it is made: a
    request is positive and at most [2^30] bytes and, when it fits the arena,
    finds some sufficient free list non-empty; a block that is freed is
    live. *)
Fixpoint admissible (tr : list call) (st : state) (live : list ptr) : Prop :=
  match tr with
  | [] => True
  | Alloc size :: tr' =>
      0 < size <= 2 ^ 30 /\
      (forall t, getOrder size = Ret t -> 0 <= t -> ~ exhausted st t) /\
      (forall st' a, buddy_alloc st size = Ret (st', a) ->
         admissible tr' st' (match a with NULL => live | _ => a :: live end))
  | Free a :: tr' =>
      In a live /\
      (forall st', buddy_free st a = Ret st' ->
         admissible tr' st' (remove ptr_eq_dec a live))
  end.

(** The outcome [o] with the arena of the returned state replaced by [m]. *)
Definition frame_state (m : Z -> byte) (o : outcome state) : outcome state :=
  match o with
  | Ret st => Ret (set_memory st m)
  | Fault => Fault
  | OutOfFuel => OutOfFuel
  end.

Definition frame_result (m : Z -> byte) (o : outcome (state * ptr)) :
    outcome (state * ptr) :=
  match o with
  | Ret (st, a) => Ret (set_memory st m, a)
  | Fault => Fault
  | OutOfFuel => OutOfFuel
  end.

(** The state and the address of a returning call, for naming the result
    of a concrete call. *)
Definition state_of {A} (o : outcome (state * A)) : state :=
  match o with
  | Ret (st, _) => st
  | _ => boot
  end.

Definition value_of (o : outcome (state * ptr)) : ptr :=
  match o with
  | Ret (_, a) => a
  | _ => NULL
  end.

Definition final_state (v : verdict) : state :=
  match v with
  | Done st _ => st
  | _ => boot
  end.

Definition final_live (v : verdict) : list ptr :=
  match v with
  | Done _ live => live
  | _ => []
  end.

(** The configuration constants, made known to [lia]. *)
#[global] Instance Op_MIN_ORDER : CstOp MIN_ORDER := { TCst := 12; TCstInj := eq_refl }.
Add Zify CstOp Op_MIN_ORDER.
#[global] Instance Op_MAX_ORDER : CstOp MAX_ORDER := { TCst := 20; TCstInj := eq_refl }.
Add Zify CstOp Op_MAX_ORDER.
#[global] Instance Op_N_PAGES : CstOp N_PAGES := { TCst := 256; TCstInj := eq_refl }.
Add Zify CstOp Op_N_PAGES.
#[global] Instance Op_PAGE_SIZE : CstOp PAGE_SIZE := { TCst := 4096; TCstInj := eq_refl }.
Add Zify CstOp Op_PAGE_SIZE.


(** ** buddy_dump *)

(** The [for] loop of [buddy_dump] from order [o] on: for each order the
    number of entries that [list_for_each] counts in [free_area[o]] and the
    block size [(1<<o)/1024] in KiB, in the order in which they are
    printed. *)
Fixpoint dump_orders (n : nat) (st : state) (o : Z) : outcome (list (Z * Z)) :=
  match n with
  | O => Ret []
  | S n' =>
      l <- entries_of st o ;;
      let cnt := Z.of_nat (length l) in
      pw <- shl_int 1 o ;;
      kb <- div_int pw 1024 ;;
      rest <- dump_orders n' st (o + 1) ;;
      Ret ((cnt, kb) :: rest)
  end.

(** [buddy_dump]: the pairs [cnt:sizeK] it prints, for the orders from
    [MIN_ORDER] to [MAX_ORDER]. *)
Definition buddy_dump (st : state) : outcome (list (Z * Z)) :=
  dump_orders (Z.to_nat (MAX_ORDER + 1 - MIN_ORDER)) st MIN_ORDER.

(** The free memory that a dump reports, in KiB. *)
Definition dump_total (d : list (Z * Z)) : Z :=
  fold_right (fun ck acc => fst ck * snd ck + acc) 0 d.

(** The sum of [f] over a list of orders. *)
Definition sum_orders (f : Z -> Z) (l : list Z) : Z :=
  fold_right (fun o acc => f o + acc) 0 l.

(** The pages that are in free blocks. *)
Definition free_pages (st : state) : Z :=
  sum_orders (fun o => Z.of_nat (length (fl st o)) * psize o) all_orders.

(** The bytes of the blocks whose base addresses are in [live]. *)
Definition live_bytes (st : state) (live : list ptr) : Z :=
  fold_right
    (fun a acc =>
       match a with
       | NULL => acc
       | Arena off => 2 ^ ord st (off / PAGE_SIZE) + acc
       end) 0 live.

(** * Properties *)

(** ** Integer-indexed lists *)

Lemma nth_error_nset_eq {A} (l : list A) n v :
  (n < length l)%nat -> nth_error (nset l n v) n = Some v.
Proof.
  revert n; induction l as [|h t IH]; intros [|n] H; simpl in *; try lia; auto.
  apply IH; lia.
Qed.

Lemma nth_error_nset_ne {A} (l : list A) n m v :
  n <> m -> nth_error (nset l n v) m = nth_error l m.
Proof.
  revert n m; induction l as [|h t IH]; intros [|n] [|m] H; simpl; auto.
  congruence.
Qed.

Lemma length_nset {A} (l : list A) n v : length (nset l n v) = length l.
Proof. revert n; induction l; intros [|n]; simpl; auto. Qed.

Lemma zget_zset_eq {A} (l : list A) i v :
  0 <= i < Z.of_nat (length l) -> zget (zset l i v) i = Some v.
Proof.
  intros H. unfold zget, zset.
  destruct (i <? 0) eqn:E; [apply Z.ltb_lt in E; lia|].
  apply nth_error_nset_eq. lia.
Qed.

Lemma zget_zset_ne {A} (l : list A) i j v :
  i <> j -> zget (zset l i v) j = zget l j.
Proof.
  intros H. unfold zget, zset.
  destruct (j <? 0) eqn:Ej; auto.
  destruct (i <? 0) eqn:Ei; auto.
  apply Z.ltb_ge in Ej, Ei.
  apply nth_error_nset_ne. intros Heq. apply H.
  rewrite <- (Z2Nat.id i), <- (Z2Nat.id j) by lia. now rewrite Heq.
Qed.

Lemma length_zset {A} (l : list A) i v : length (zset l i v) = length l.
Proof. unfold zset. destruct (i <? 0); auto using length_nset. Qed.

Lemma zget_Some_range {A} (l : list A) i x :
  zget l i = Some x -> 0 <= i < Z.of_nat (length l).
Proof.
  unfold zget. destruct (i <? 0) eqn:E; [discriminate|].
  apply Z.ltb_ge in E. intros H.
  assert (nth_error l (Z.to_nat i) <> None) as Hn by congruence.
  apply nth_error_Some in Hn. lia.
Qed.

Lemma zget_None_out {A} (l : list A) i :
  ~ (0 <= i < Z.of_nat (length l)) -> zget l i = None.
Proof.
  intros H. destruct (zget l i) eqn:E; auto.
  apply zget_Some_range in E. contradiction.
Qed.

Lemma zget_map {A B} (f : A -> B) (l : list A) i :
  zget (map f l) i = option_map f (zget l i).
Proof.
  unfold zget. destruct (i <? 0); auto. apply nth_error_map.
Qed.

Lemma zget_ext {A} (l1 l2 : list A) :
  length l1 = length l2 ->
  (forall i, 0 <= i < Z.of_nat (length l1) -> zget l1 i = zget l2 i) ->
  l1 = l2.
Proof.
  revert l2; induction l1 as [|a l1 IH]; intros [|b l2] Hl H; simpl in *;
    try discriminate; auto.
  f_equal.
  - specialize (H 0). unfold zget in H. simpl in H.
    assert (Some a = Some b) as E by (apply H; lia). congruence.
  - apply IH; [lia|]. intros i Hi.
    specialize (H (i + 1)). unfold zget in *.
    destruct (i <? 0) eqn:E1; [apply Z.ltb_lt in E1; lia|].
    destruct (i + 1 <? 0) eqn:E2; [apply Z.ltb_lt in E2; lia|].
    replace (Z.to_nat (i + 1)) with (S (Z.to_nat i)) in H by lia.
    simpl in H. apply H. lia.
Qed.

(** ** Sequences of entries *)

Lemma mem_In p l : mem p l = true <-> In p l.
Proof.
  unfold mem. rewrite existsb_exists. split.
  - intros (x & Hx & E). apply Z.eqb_eq in E. now subst.
  - intros H. exists p. split; auto. apply Z.eqb_refl.
Qed.

Lemma In_drop p q l : In q (drop p l) <-> In q l /\ q <> p.
Proof.
  unfold drop. rewrite filter_In. rewrite negb_true_iff, Z.eqb_neq. tauto.
Qed.

Lemma drop_notin p l : ~ In p l -> drop p l = l.
Proof.
  induction l as [|a l IH]; simpl; intros H; auto.
  destruct (a =? p) eqn:E; simpl.
  - apply Z.eqb_eq in E. subst. tauto.
  - f_equal. tauto.
Qed.

Lemma drop_cons_eq p l : drop p (p :: l) = drop p l.
Proof. simpl. now rewrite Z.eqb_refl. Qed.

Lemma drop_cons_ne p q l : q <> p -> drop p (q :: l) = q :: drop p l.
Proof. intros H. simpl. apply Z.eqb_neq in H. now rewrite H. Qed.

Lemma NoDup_drop p l : NoDup l -> NoDup (drop p l).
Proof. apply NoDup_filter. Qed.

(** ** Sizes of blocks and buddies *)

Lemma In_zrange lo n x : In x (zrange lo n) <-> lo <= x < lo + Z.of_nat n.
Proof.
  unfold zrange. rewrite in_map_iff. split.
  - intros (i & E & Hi). apply in_seq in Hi. lia.
  - intros H. exists (Z.to_nat (x - lo)). split; [lia|]. apply in_seq. lia.
Qed.

Lemma In_all_orders o : In o all_orders <-> MIN_ORDER <= o <= MAX_ORDER.
Proof. unfold all_orders. rewrite In_zrange. unfold MIN_ORDER, MAX_ORDER. lia. Qed.

Lemma In_all_pages p : In p all_pages <-> 0 <= p < N_PAGES.
Proof.
  unfold all_pages. rewrite In_zrange.
  change (Z.of_nat (Z.to_nat N_PAGES)) with N_PAGES. lia.
Qed.

Lemma order_cases o :
  MIN_ORDER <= o <= MAX_ORDER ->
  o = 12 \/ o = 13 \/ o = 14 \/ o = 15 \/ o = 16 \/ o = 17 \/ o = 18 \/ o = 19 \/ o = 20.
Proof. unfold MIN_ORDER, MAX_ORDER. lia. Qed.

Lemma N_PAGES_eq : N_PAGES = 256.
Proof. reflexivity. Qed.

Lemma PAGE_SIZE_eq : PAGE_SIZE = 4096.
Proof. reflexivity. Qed.

(** Replaces [psize] of a numeral by its value. *)
Ltac psz :=
  repeat match goal with
  | |- context [psize (Zpos ?a + Zpos ?b)] =>
      let v := eval vm_compute in (psize (Zpos a + Zpos b)) in
      change (psize (Zpos a + Zpos b)) with v
  | |- context [psize (Zpos ?a - Zpos ?b)] =>
      let v := eval vm_compute in (psize (Zpos a - Zpos b)) in
      change (psize (Zpos a - Zpos b)) with v
  | |- context [psize (Zpos ?a)] =>
      let v := eval vm_compute in (psize (Zpos a)) in
      change (psize (Zpos a)) with v
  | H : context [psize (Zpos ?a + Zpos ?b)] |- _ =>
      let v := eval vm_compute in (psize (Zpos a + Zpos b)) in
      change (psize (Zpos a + Zpos b)) with v in H
  | H : context [psize (Zpos ?a - Zpos ?b)] |- _ =>
      let v := eval vm_compute in (psize (Zpos a - Zpos b)) in
      change (psize (Zpos a - Zpos b)) with v in H
  | H : context [psize (Zpos ?a)] |- _ =>
      let v := eval vm_compute in (psize (Zpos a)) in
      change (psize (Zpos a)) with v in H
  end.

(** Linear arithmetic with division and remainder by numerals. *)
Ltac dlia := Z.div_mod_to_equations; lia.

(** Splits on the nine orders and evaluates the block sizes. *)
Ltac by_order o H :=
  let C := fresh "C" in
  destruct (order_cases o H) as [C|[C|[C|[C|[C|[C|[C|[C|C]]]]]]]];
  rewrite ?C in *; psz; unfold MIN_ORDER, MAX_ORDER in *.

Lemma psize_pos o : MIN_ORDER <= o -> 0 < psize o.
Proof. intros H. unfold psize. apply Z.pow_pos_nonneg; lia. Qed.

Lemma psize_succ o : MIN_ORDER <= o -> psize (o + 1) = 2 * psize o.
Proof.
  intros H. unfold psize.
  replace (o + 1 - MIN_ORDER) with (Z.succ (o - MIN_ORDER)) by lia.
  apply Z.pow_succ_r. lia.
Qed.

Lemma buddy_check_all :
  forallb (fun o => forallb (buddy_check o) all_pages) all_orders = true.
Proof. vm_compute. reflexivity. Qed.

Lemma buddy_check_ok o p :
  MIN_ORDER <= o <= MAX_ORDER -> 0 <= p < N_PAGES -> buddy_check o p = true.
Proof.
  intros Ho Hp. pose proof buddy_check_all as H.
  rewrite forallb_forall in H. specialize (H o (proj2 (In_all_orders o) Ho)).
  rewrite forallb_forall in H. apply H. now apply In_all_pages.
Qed.

Lemma buddy_of_range o p :
  MIN_ORDER <= o <= MAX_ORDER -> 0 <= p < N_PAGES -> 0 <= buddy_of p o < 2 * N_PAGES.
Proof.
  intros Ho Hp. pose proof (buddy_check_ok o p Ho Hp) as H. unfold buddy_check in H.
  rewrite !andb_true_iff in H. destruct H as [[[_ H1] H2] _].
  apply Z.leb_le in H1. apply Z.ltb_lt in H2. lia.
Qed.

Lemma buddy_of_aligned o p :
  MIN_ORDER <= o <= MAX_ORDER -> 0 <= p < N_PAGES -> p mod psize o = 0 ->
  (p mod psize (o + 1) = 0 /\ buddy_of p o = p + psize o) \/
  (p mod psize (o + 1) = psize o /\ buddy_of p o = p - psize o).
Proof.
  intros Ho Hp Ha. pose proof (buddy_check_ok o p Ho Hp) as H. unfold buddy_check in H.
  rewrite !andb_true_iff in H. destruct H as [_ H].
  apply Z.eqb_eq in Ha. rewrite Ha in H.
  rewrite orb_true_iff, !andb_true_iff, !Z.eqb_eq in H. exact H.
Qed.

Lemma BUDDY_ADDR_page o p :
  MIN_ORDER <= o <= MAX_ORDER -> 0 <= p < N_PAGES ->
  BUDDY_ADDR (PAGE_TO_ADDR p) o = Ret (PAGE_TO_ADDR (buddy_of p o)).
Proof.
  intros Ho Hp. pose proof (buddy_check_ok o p Ho Hp) as H. unfold buddy_check in H.
  rewrite !andb_true_iff in H. destruct H as [[[H _] _] _]. apply Z.eqb_eq in H.
  unfold BUDDY_ADDR, PAGE_TO_ADDR, shl_int.
  assert ((0 <=? o) && (o <? 32) && (0 <=? 1) && (1 * 2 ^ o <=? INT_MAX) = true) as E.
  { by_order o Ho; reflexivity. }
  rewrite E. cbv beta iota delta [bind]. now rewrite H.
Qed.

Lemma ADDR_TO_PAGE_page p :
  0 <= p < 2 * N_PAGES -> ADDR_TO_PAGE (PAGE_TO_ADDR p) = Ret p.
Proof.
  intros Hp. unfold ADDR_TO_PAGE, PAGE_TO_ADDR, to_ulong. f_equal.
  rewrite N_PAGES_eq, PAGE_SIZE_eq in *.
  rewrite Z.mod_small by lia. apply Z.div_mul. lia.
Qed.

Lemma to_int_small z : 0 <= z < 2 ^ 31 -> to_int z = z.
Proof. intros H. unfold to_int. rewrite Z.mod_small; lia. Qed.

Lemma PAGE_TO_ADDR_inj p q : PAGE_TO_ADDR p = PAGE_TO_ADDR q -> p = q.
Proof. unfold PAGE_TO_ADDR. rewrite PAGE_SIZE_eq. intros H. injection H. lia. Qed.

Lemma ptr_eqb_page p q : ptr_eqb (PAGE_TO_ADDR p) (PAGE_TO_ADDR q) = (p =? q).
Proof.
  unfold PAGE_TO_ADDR, ptr_eqb. rewrite PAGE_SIZE_eq.
  destruct (p =? q) eqn:E.
  - apply Z.eqb_eq in E. subst. apply Z.eqb_refl.
  - apply Z.eqb_neq in E. apply Z.eqb_neq. lia.
Qed.

(** ** The primitive steps on a well-shaped state *)

Lemma get_page_ok st i :
  shape st -> 0 <= i < N_PAGES ->
  get_page st i = Ret (mkPage (PAGE_TO_ADDR i) (ord st i) i).
Proof. intros S Hi. unfold get_page. now rewrite (sh_page _ S _ Hi). Qed.

Lemma set_order_ok st i o :
  shape st -> 0 <= i < N_PAGES -> set_order st i o = Ret (with_order st i o).
Proof. intros S Hi. unfold set_order. now rewrite (get_page_ok _ _ S Hi). Qed.

Lemma pages_length st : shape st -> Z.of_nat (length (g_pages st)) = N_PAGES.
Proof. intros S. rewrite (sh_pages _ S). reflexivity. Qed.

Lemma heads_length st : shape st -> Z.of_nat (length (free_area st)) = MAX_ORDER + 1.
Proof. intros S. rewrite (sh_heads _ S). reflexivity. Qed.

Lemma ord_with_order st i o q :
  shape st -> 0 <= i < N_PAGES ->
  ord (with_order st i o) q = if q =? i then o else ord st q.
Proof.
  intros S Hi. unfold ord, with_order. simpl.
  destruct (q =? i) eqn:E.
  - apply Z.eqb_eq in E. subst q. rewrite zget_zset_eq; auto.
    rewrite (pages_length _ S). lia.
  - apply Z.eqb_neq in E. rewrite zget_zset_ne; auto.
Qed.

Lemma fl_with_order st i o o' : fl (with_order st i o) o' = fl st o'.
Proof. reflexivity. Qed.

Lemma shape_with_order st i o :
  shape st -> 0 <= i < N_PAGES -> shape (with_order st i o).
Proof.
  intros S Hi. constructor.
  - simpl. rewrite length_zset. apply (sh_pages _ S).
  - intros j Hj. rewrite (ord_with_order _ _ _ _ S Hi). simpl.
    destruct (j =? i) eqn:E.
    + apply Z.eqb_eq in E. subst j. apply zget_zset_eq.
      rewrite (pages_length _ S). lia.
    + apply Z.eqb_neq in E. rewrite zget_zset_ne by auto. apply (sh_page _ S _ Hj).
  - apply (sh_heads _ S).
  - apply (sh_low _ S).
  - apply (sh_high _ S).
Qed.

Lemma ord_with_list st o l q : ord (with_list st o l) q = ord st q.
Proof. reflexivity. Qed.

Lemma ord_unlinked st p q : ord (unlinked st p) q = ord st q.
Proof. reflexivity. Qed.

Lemma fl_with_list st o l o' :
  shape st -> MIN_ORDER <= o <= MAX_ORDER ->
  fl (with_list st o l) o' = if o' =? o then l else fl st o'.
Proof.
  intros S Ho. unfold fl, with_list. simpl.
  destruct (o' =? o) eqn:E.
  - apply Z.eqb_eq in E. subst o'. rewrite zget_zset_eq; auto.
    rewrite (heads_length _ S). unfold MIN_ORDER in *. lia.
  - apply Z.eqb_neq in E. rewrite zget_zset_ne; auto.
Qed.

Lemma shape_with_list st o l :
  shape st -> MIN_ORDER <= o <= MAX_ORDER -> shape (with_list st o l).
Proof.
  intros S Ho. constructor.
  - apply (sh_pages _ S).
  - apply (sh_page _ S).
  - simpl. rewrite length_zset. apply (sh_heads _ S).
  - intros o' Ho'. simpl. rewrite zget_zset_ne by lia. apply (sh_low _ S _ Ho').
  - intros o' Ho'. rewrite (fl_with_list _ _ _ _ S Ho). simpl.
    destruct (o' =? o) eqn:E.
    + apply Z.eqb_eq in E. subst o'. apply zget_zset_eq.
      rewrite (heads_length _ S). unfold MIN_ORDER in *. lia.
    + apply Z.eqb_neq in E. rewrite zget_zset_ne by auto. apply (sh_high _ S _ Ho').
Qed.

Lemma fl_unlinked st p o : fl (unlinked st p) o = drop p (fl st o).
Proof.
  unfold fl, unlinked. simpl. rewrite zget_map.
  destruct (zget (free_area st) o) as [[|l]|]; reflexivity.
Qed.

Lemma shape_unlinked st p : shape st -> shape (unlinked st p).
Proof.
  intros S. constructor.
  - apply (sh_pages _ S).
  - apply (sh_page _ S).
  - simpl. rewrite length_map. apply (sh_heads _ S).
  - intros o Ho. simpl. rewrite zget_map, (sh_low _ S _ Ho). reflexivity.
  - intros o Ho. rewrite fl_unlinked. simpl.
    rewrite zget_map, (sh_high _ S _ Ho). reflexivity.
Qed.

Lemma linked_iff st p :
  shape st ->
  linked st p = true <-> exists o, MIN_ORDER <= o <= MAX_ORDER /\ In p (fl st o).
Proof.
  intros S. unfold linked. rewrite existsb_exists. split.
  - intros (h & Hin & Hc).
    apply In_nth_error in Hin. destruct Hin as (n & Hn).
    assert (zget (free_area st) (Z.of_nat n) = Some h) as Hz.
    { unfold zget. destruct (Z.of_nat n <? 0) eqn:E; [apply Z.ltb_lt in E; lia|].
      now rewrite Nat2Z.id. }
    pose proof (zget_Some_range _ _ _ Hz) as Hr. rewrite (heads_length _ S) in Hr.
    destruct (Z_lt_le_dec (Z.of_nat n) MIN_ORDER) as [Hlo|Hhi].
    + rewrite (sh_low _ S) in Hz by lia. inversion Hz. subst h. discriminate.
    + exists (Z.of_nat n). split; [lia|].
      rewrite (sh_high _ S) in Hz by lia. inversion Hz. subst h.
      now apply mem_In.
  - intros (o & Ho & Hin). exists (Chain (fl st o)). split.
    + pose proof (sh_high _ S _ Ho) as Hz. unfold zget in Hz.
      destruct (o <? 0); [discriminate|]. eapply nth_error_In; eauto.
    + now apply mem_In.
Qed.

Lemma linked_false st p :
  shape st -> (forall o, MIN_ORDER <= o <= MAX_ORDER -> ~ In p (fl st o)) ->
  linked st p = false.
Proof.
  intros S H. destruct (linked st p) eqn:E; auto.
  apply (linked_iff _ p S) in E. destruct E as (o & Ho & Hin). now apply H in Hin.
Qed.

Lemma list_add_ok st p o :
  shape st -> MIN_ORDER <= o <= MAX_ORDER ->
  (forall o', MIN_ORDER <= o' <= MAX_ORDER -> ~ In p (fl st o')) ->
  list_add st p o = Ret (with_list st o (p :: fl st o)).
Proof.
  intros S Ho H. unfold list_add. rewrite (sh_high _ S _ Ho).
  now rewrite (linked_false _ p S H).
Qed.

Lemma list_del_ok st p o :
  shape st -> MIN_ORDER <= o <= MAX_ORDER -> In p (fl st o) ->
  list_del st p = Ret (unlinked st p).
Proof.
  intros S Ho H. unfold list_del.
  assert (linked st p = true) as E by (apply (linked_iff _ p S); eauto).
  now rewrite E.
Qed.

Lemma list_empty_ok st o :
  shape st -> MIN_ORDER <= o <= MAX_ORDER ->
  list_empty st o = Ret (match fl st o with [] => true | _ => false end).
Proof.
  intros S Ho. unfold list_empty. rewrite (sh_high _ S _ Ho).
  destruct (fl st o); reflexivity.
Qed.

Lemma entries_of_ok st o :
  shape st -> MIN_ORDER <= o <= MAX_ORDER -> entries_of st o = Ret (fl st o).
Proof. intros S Ho. unfold entries_of. now rewrite (sh_high _ S _ Ho). Qed.

Lemma first_entry_ok st o p l :
  shape st -> MIN_ORDER <= o <= MAX_ORDER -> fl st o = p :: l ->
  first_entry st o = Ret p.
Proof. intros S Ho E. unfold first_entry. now rewrite (sh_high _ S _ Ho), E. Qed.

Lemma ord_out st p : shape st -> ~ (0 <= p < N_PAGES) -> ord st p = -1.
Proof.
  intros S H. unfold ord. rewrite zget_None_out; auto.
  rewrite (pages_length _ S). exact H.
Qed.

(** ** getOrder *)

Lemma bind_Ret {A B} (a : A) (k : A -> outcome B) : bind (Ret a) k = k a.
Proof. reflexivity. Qed.

(** Rewrites with the equation of a call that returns and continues. *)
Tactic Notation "ret" constr(E) := rewrite E; rewrite bind_Ret; cbv beta.
Tactic Notation "ret" constr(E) "by" tactic3(t) :=
  rewrite E by t; rewrite bind_Ret; cbv beta.

Lemma getOrder_loop_eq fuel size o :
  getOrder_loop fuel size o =
  (pw <- shl_int 1 o ;;
   q <- div_int pw size ;;
   if q <? 1 then
     match fuel with
     | O => OutOfFuel
     | S fuel' => getOrder_loop fuel' size (o + 1)
     end
   else Ret o).
Proof. destruct fuel; reflexivity. Qed.

Lemma shl_int_one o : 0 <= o <= 30 -> shl_int 1 o = Ret (2 ^ o).
Proof.
  intros H. unfold shl_int.
  assert (2 ^ o <= 2 ^ 30) by (apply Z.pow_le_mono_r; lia).
  assert ((0 <=? o) && (o <? 32) && (0 <=? 1) && (1 * 2 ^ o <=? INT_MAX) = true) as E.
  { rewrite !andb_true_iff. repeat split; try (apply Z.leb_le); try (apply Z.ltb_lt);
      unfold INT_MAX; try lia. }
  rewrite E. f_equal. lia.
Qed.

Lemma shl_int_31 : shl_int 1 31 = Fault.
Proof. reflexivity. Qed.

Lemma quot_lt_1 a b : 0 <= a -> 0 < b -> (a ÷ b <? 1) = (a <? b).
Proof.
  intros Ha Hb. rewrite Z.quot_div_nonneg by lia.
  destruct (a <? b) eqn:E.
  - apply Z.ltb_lt in E. rewrite Z.div_small by lia. reflexivity.
  - apply Z.ltb_ge in E. apply Z.ltb_ge.
    apply Z.div_le_lower_bound; lia.
Qed.

Lemma quot_neg_lt_1 a b : 0 <= a -> b < 0 -> (a ÷ b <? 1) = true.
Proof.
  intros Ha Hb. apply Z.ltb_lt.
  replace b with (- (- b)) by lia. rewrite Z.quot_opp_r by lia.
  assert (0 <= a ÷ (- b)) by (apply Z.quot_pos; lia). lia.
Qed.

Lemma div_int_pos a b : 0 <= a -> 0 < b -> div_int a b = Ret (a ÷ b).
Proof.
  intros Ha Hb. unfold div_int.
  destruct (b =? 0) eqn:E; [apply Z.eqb_eq in E; lia|].
  destruct (a =? INT_MIN) eqn:E1; [apply Z.eqb_eq in E1; unfold INT_MIN in E1; lia|].
  reflexivity.
Qed.

Lemma div_int_neg a b : 0 <= a -> b < 0 -> div_int a b = Ret (a ÷ b).
Proof.
  intros Ha Hb. unfold div_int.
  destruct (b =? 0) eqn:E; [apply Z.eqb_eq in E; lia|].
  destruct (a =? INT_MIN) eqn:E1; [apply Z.eqb_eq in E1; unfold INT_MIN in E1; lia|].
  reflexivity.
Qed.

Lemma pow2_pos o : 0 <= o -> 0 < 2 ^ o.
Proof. intros. apply Z.pow_pos_nonneg; lia. Qed.

(** The loop stops at the first order, from [o] on, whose block holds
    [size] bytes. *)
Lemma getOrder_loop_ok fuel : forall size o,
  0 < size <= 2 ^ 30 -> 0 <= o <= 30 -> (Z.to_nat (30 - o) <= fuel)%nat ->
  exists r, getOrder_loop fuel size o = Ret r /\ o <= r <= 30 /\ size <= 2 ^ r /\
            (r = o \/ 2 ^ (r - 1) < size).
Proof.
  induction fuel as [|fuel IH]; intros size o Hs Ho Hf.
  - assert (o = 30) by lia. subst o. rewrite getOrder_loop_eq.
    ret shl_int_one by lia. ret div_int_pos by lia.
    rewrite quot_lt_1 by lia.
    destruct (2 ^ 30 <? size) eqn:E; [apply Z.ltb_lt in E; lia|].
    exists 30. repeat split; auto; lia.
  - rewrite getOrder_loop_eq. ret shl_int_one by lia.
    pose proof (pow2_pos o) as Hp.
    ret div_int_pos by lia.
    rewrite quot_lt_1 by lia.
    destruct (2 ^ o <? size) eqn:E.
    + apply Z.ltb_lt in E.
      assert (o < 30).
      { destruct (Z.eq_dec o 30); [subst; lia|lia]. }
      destruct (IH size (o + 1)) as (r & Hr & Hb & Hle & Hmin); try lia.
      exists r. repeat split; auto; try lia.
      right. destruct Hmin as [->|Hmin]; auto.
      now replace (o + 1 - 1) with o by lia.
    + apply Z.ltb_ge in E. exists o. repeat split; auto; lia.
Qed.

Lemma getOrder_loop_huge fuel : forall size o,
  2 ^ 30 < size -> 0 <= o <= 31 -> (Z.to_nat (31 - o) <= fuel)%nat ->
  getOrder_loop fuel size o = Fault.
Proof.
  induction fuel as [|fuel IH]; intros size o Hs Ho Hf.
  - assert (o = 31) by lia. subst o. reflexivity.
  - destruct (Z.eq_dec o 31) as [->|Hne]; [reflexivity|].
    rewrite getOrder_loop_eq. ret shl_int_one by lia.
    pose proof (pow2_pos o) as Hp.
    assert (2 ^ o <= 2 ^ 30) by (apply Z.pow_le_mono_r; lia).
    ret div_int_pos by lia.
    rewrite quot_lt_1 by lia.
    assert ((2 ^ o <? size) = true) as E by (apply Z.ltb_lt; lia).
    rewrite E. apply IH; lia.
Qed.

Lemma getOrder_loop_negative fuel : forall size o,
  size < 0 -> 0 <= o <= 31 -> (Z.to_nat (31 - o) <= fuel)%nat ->
  getOrder_loop fuel size o = Fault.
Proof.
  induction fuel as [|fuel IH]; intros size o Hs Ho Hf.
  - assert (o = 31) by lia. subst o. reflexivity.
  - destruct (Z.eq_dec o 31) as [->|Hne]; [reflexivity|].
    rewrite getOrder_loop_eq. ret shl_int_one by lia.
    pose proof (pow2_pos o) as Hp.
    ret div_int_neg by lia.
    rewrite quot_neg_lt_1 by lia. apply IH; lia.
Qed.

(** For a size that fits the arena, [getOrder] is the smallest order of a
    block that holds it. *)
Lemma getOrder_fits size :
  0 < size <= 2 ^ MAX_ORDER ->
  exists o, getOrder size = Ret o /\ MIN_ORDER <= o <= MAX_ORDER /\ size <= 2 ^ o /\
            (forall o', MIN_ORDER <= o' -> size <= 2 ^ o' -> o <= o').
Proof.
  intros Hs. unfold MAX_ORDER, MIN_ORDER in *.
  assert (2 ^ 20 <= 2 ^ 30) by (apply Z.pow_le_mono_r; lia).
  destruct (getOrder_loop_ok 32 size 12) as (r & Hr & Hb & Hle & Hmin); try lia.
  assert (r <= 20) as Hr20.
  { destruct Hmin as [->|Hmin]; [lia|].
    destruct (Z_le_gt_dec r 20); auto.
    assert (2 ^ 20 <= 2 ^ (r - 1)) by (apply Z.pow_le_mono_r; lia). lia. }
  exists r. unfold getOrder. unfold MIN_ORDER, MAX_ORDER. ret Hr.
  destruct (r >? 20) eqn:E; [rewrite Z.gtb_ltb in E; apply Z.ltb_lt in E; lia|].
  repeat split; auto; try lia.
  intros o' Ho' Hs'. destruct Hmin as [->|Hmin]; [lia|].
  destruct (Z_le_gt_dec r o'); auto.
  assert (2 ^ o' <= 2 ^ (r - 1)) by (apply Z.pow_le_mono_r; lia). lia.
Qed.

(** Between the arena size and [2^30] the request is refused. *)
Lemma getOrder_large size :
  2 ^ MAX_ORDER < size <= 2 ^ 30 -> getOrder size = Ret (-1).
Proof.
  intros Hs. unfold MAX_ORDER in *.
  destruct (getOrder_loop_ok 32 size 12) as (r & Hr & Hb & Hle & Hmin); try lia.
  unfold getOrder. unfold MIN_ORDER, MAX_ORDER. ret Hr.
  destruct (r >? 20) eqn:E; auto.
  rewrite Z.gtb_ltb in E. apply Z.ltb_ge in E.
  assert (2 ^ r <= 2 ^ 20) by (apply Z.pow_le_mono_r; lia). lia.
Qed.

(** Past [2^30] the loop reaches [1 << 31]. *)
Lemma getOrder_huge size : 2 ^ 30 < size -> getOrder size = Fault.
Proof.
  intros Hs. unfold getOrder.
  rewrite getOrder_loop_huge; auto; unfold MIN_ORDER; lia.
Qed.

Lemma getOrder_zero : getOrder 0 = Fault.
Proof. reflexivity. Qed.

Lemma getOrder_negative size : size < 0 -> getOrder size = Fault.
Proof.
  intros Hs. unfold getOrder.
  rewrite getOrder_loop_negative; auto; unfold MIN_ORDER; lia.
Qed.

(** ** splitBlock *)

Lemma splitBlock_eq fuel st head c t p :
  splitBlock fuel st head c t p =
  if c =? t then
    st1 <- list_del st p ;;
    pg <- get_page st1 p ;;
    Ret (st1, addr pg)
  else
    leftBlockPage <- get_page st p ;;
    st1 <- set_order st p (c - 1) ;;
    buddy <- BUDDY_ADDR (addr leftBlockPage) (c - 1) ;;
    pageno <- ADDR_TO_PAGE buddy ;;
    st2 <- set_order st1 (to_int pageno) (c - 1) ;;
    st3 <- list_del st2 p ;;
    st4 <- list_add st3 (to_int pageno) (c - 1) ;;
    st5 <- list_add st4 p (c - 1) ;;
    match fuel with
    | O => OutOfFuel
    | S fuel' => splitBlock fuel' st5 (c - 1) (c - 1) t p
    end.
Proof. destruct fuel; reflexivity. Qed.

Lemma drop_drop p l : drop p (drop p l) = drop p l.
Proof. apply drop_notin. rewrite In_drop. tauto. Qed.

Lemma psize_lt o o' : MIN_ORDER <= o < o' -> psize o < psize o'.
Proof. intros H. unfold psize. apply Z.pow_lt_mono_r; lia. Qed.

(** A free head of order [c] is an aligned block inside the arena. *)
Lemma free_head_facts st c p :
  wf st -> MIN_ORDER <= c <= MAX_ORDER -> In p (fl st c) ->
  0 <= p < N_PAGES /\ ord st p = c /\ p mod psize c = 0 /\ p + psize c <= N_PAGES.
Proof.
  intros W Hc Hin. destruct (wf_list _ W _ _ Hc Hin) as [Hp Ho].
  destruct (wf_head _ W _ Hp) as [H|[_ H]]; [unfold MIN_ORDER in *; lia|].
  rewrite Ho in H. rewrite N_PAGES_eq in *.
  repeat split; auto; try lia. by_order c Hc; dlia.
Qed.

(** A page strictly inside a block is in no free list. *)
Lemma interior_unlinked st p q o :
  wf st -> 0 <= p < N_PAGES -> ord st p <> -1 -> p < q < p + psize (ord st p) ->
  MIN_ORDER <= o <= MAX_ORDER -> ~ In q (fl st o).
Proof.
  intros W Hp Hh Hq Ho Hin.
  destruct (wf_list _ W _ _ Ho Hin) as [_ E].
  rewrite (wf_interior _ W _ _ Hp Hh Hq) in E. unfold MIN_ORDER in *. lia.
Qed.

(** Two heads that cover the same page are the same head. *)
Lemma cover_unique st a b q :
  wf st -> 0 <= a < N_PAGES -> 0 <= b < N_PAGES ->
  ord st a <> -1 -> ord st b <> -1 ->
  a <= q < a + psize (ord st a) -> b <= q < b + psize (ord st b) -> a = b.
Proof.
  intros W Ha Hb Oa Ob Ca Cb.
  destruct (Z.lt_trichotomy a b) as [H|[H|H]]; auto.
  - exfalso. apply Ob. apply (wf_interior _ W a b Ha Oa). lia.
  - exfalso. apply Oa. apply (wf_interior _ W b a Hb Ob). lia.
Qed.

(** One halving: the block at [p] of order [c] becomes two free blocks of
    order [c - 1], the left one first in its list. *)
Lemma splitBlock_step fuel st head c t p :
  wf st -> MIN_ORDER < c <= MAX_ORDER -> c <> t -> In p (fl st c) ->
  exists st5,
    splitBlock (S fuel) st head c t p = splitBlock fuel st5 (c - 1) (c - 1) t p /\
    wf st5 /\
    (forall o, fl st5 o =
       if o =? c - 1 then p :: (p + psize (c - 1)) :: fl st o else drop p (fl st o)) /\
    (forall q, ord st5 q =
       if (q =? p) || (q =? p + psize (c - 1)) then c - 1 else ord st q) /\
    g_memory st5 = g_memory st.
Proof.
  intros W Hc Hne Hin.
  assert (MIN_ORDER <= c <= MAX_ORDER) as Hc' by lia.
  destruct (free_head_facts _ _ _ W Hc' Hin) as (Hp & Ho & Hal & Hend).
  pose proof (wf_shape _ W) as S.
  set (n := c - 1). set (r := p + psize n).
  assert (MIN_ORDER <= n <= MAX_ORDER) as Hn by (unfold n; lia).
  assert (psize c = 2 * psize n) as Hsz.
  { replace c with (n + 1) by (unfold n; lia). apply psize_succ. lia. }
  pose proof (psize_pos n (proj1 Hn)) as Hpos.
  assert (p mod psize n = 0 /\ p mod psize (n + 1) = 0) as [Hal1 Hal2].
  { replace (n + 1) with c by (unfold n; lia). split; auto.
    clear - Hal Hc Hc' Hp. unfold n. rewrite N_PAGES_eq in *. by_order c Hc'; dlia. }
  assert (buddy_of p n = r) as Hb.
  { destruct (buddy_of_aligned _ _ Hn Hp Hal1) as [[_ E]|[E _]]; auto. lia. }
  assert (0 <= r < N_PAGES) as Hr by (unfold r; lia).
  assert (ord st r = -1) as Hor.
  { apply (wf_interior _ W p r Hp); [lia|]. rewrite Ho. unfold r. lia. }
  assert (r <> p) as Hrp by (unfold r; lia).
  assert (forall o, MIN_ORDER <= o <= MAX_ORDER -> ~ In r (fl st o)) as Hrl.
  { intros o Ho' Hin'. destruct (wf_list _ W _ _ Ho' Hin') as [_ E]. unfold MIN_ORDER in *. lia. }
  (* the five states *)
  set (st1 := with_order st p n).
  assert (shape st1) as S1 by (apply shape_with_order; auto).
  set (st2 := with_order st1 r n).
  assert (shape st2) as S2 by (apply shape_with_order; auto).
  set (st3 := unlinked st2 p).
  assert (shape st3) as S3 by (apply shape_unlinked; auto).
  set (st4 := with_list st3 n (r :: fl st3 n)).
  assert (shape st4) as S4 by (apply shape_with_list; auto).
  set (st5 := with_list st4 n (p :: fl st4 n)).
  assert (shape st5) as S5 by (apply shape_with_list; auto).
  assert (forall o, fl st3 o = drop p (fl st o)) as F3.
  { intros o. unfold st3. now rewrite fl_unlinked. }
  assert (forall o, fl st4 o = if o =? n then r :: drop p (fl st n) else drop p (fl st o)) as F4.
  { intros o. unfold st4. rewrite fl_with_list by auto. rewrite !F3. reflexivity. }
  assert (~ In p (fl st n)) as Hpn.
  { intros Hin'. destruct (wf_list _ W _ _ Hn Hin') as [_ E]. unfold n in E. lia. }
  assert (forall o, fl st5 o = if o =? n then p :: r :: fl st o else drop p (fl st o)) as F5.
  { intros o. unfold st5. rewrite fl_with_list by auto. rewrite !F4.
    rewrite Z.eqb_refl. destruct (o =? n) eqn:E; auto.
    apply Z.eqb_eq in E. subst o. now rewrite drop_notin. }
  assert (forall q, ord st5 q = if (q =? p) || (q =? r) then n else ord st q) as O5.
  { intros q. unfold st5, st4, st3. rewrite !ord_with_list, ord_unlinked.
    unfold st2. rewrite ord_with_order by auto.
    unfold st1. rewrite ord_with_order by auto.
    destruct (q =? r), (q =? p); reflexivity. }
  exists st5. split; [|split; [|split; [|split]]]; auto.
  - rewrite splitBlock_eq.
    assert ((c =? t) = false) as E by (now apply Z.eqb_neq). rewrite E.
    change (c - 1) with n.
    ret (get_page_ok _ _ S Hp). simpl addr.
    ret (set_order_ok _ _ n S Hp). fold st1.
    ret (BUDDY_ADDR_page _ _ Hn Hp). rewrite Hb.
    ret ADDR_TO_PAGE_page by lia.
    rewrite to_int_small by (rewrite N_PAGES_eq in *; lia).
    ret (set_order_ok _ _ n S1 Hr). fold st2.
    ret (list_del_ok st2 p c S2 Hc' Hin). fold st3.
    assert (forall o, MIN_ORDER <= o <= MAX_ORDER -> ~ In r (fl st3 o)) as A3.
    { intros o Ho' Hin'. rewrite F3 in Hin'. apply In_drop in Hin'.
      apply (Hrl o Ho'). tauto. }
    ret (list_add_ok st3 r n S3 Hn A3). fold st4.
    assert (forall o, MIN_ORDER <= o <= MAX_ORDER -> ~ In p (fl st4 o)) as A4.
    { intros o Ho' Hin'. rewrite F4 in Hin'.
      destruct (o =? n); [destruct Hin' as [Hin'|Hin']; [lia|]|];
        apply In_drop in Hin'; tauto. }
    ret (list_add_ok st4 p n S4 Hn A4). fold st5. reflexivity.
  - (* well-formedness *)
    constructor; auto.
    + intros q Hq. rewrite O5.
      destruct (Z.eq_dec q p) as [->|Hqp].
      { rewrite Z.eqb_refl. simpl. right. split; auto. }
      destruct (Z.eq_dec q r) as [->|Hqr].
      { rewrite Z.eqb_refl, orb_true_r. right. split; auto.
        unfold r. clear - Hal1 Hn Hp. rewrite N_PAGES_eq in *. by_order n Hn; dlia. }
      apply Z.eqb_neq in Hqp, Hqr. rewrite Hqp, Hqr. simpl. apply (wf_head _ W _ Hq).
    + intros a q Ha Hoa Hq. rewrite O5 in Hoa, Hq. rewrite O5.
      destruct (Z.eq_dec a p) as [->|Hap].
      { rewrite Z.eqb_refl in Hq. simpl in Hq.
        assert ((q =? p) || (q =? r) = false) as E.
        { apply orb_false_iff. split; apply Z.eqb_neq; unfold r; lia. }
        rewrite E. apply (wf_interior _ W p q Hp); rewrite ?Ho; lia. }
      destruct (Z.eq_dec a r) as [->|Har].
      { rewrite Z.eqb_refl, orb_true_r in Hq.
        assert ((q =? p) || (q =? r) = false) as E.
        { apply orb_false_iff. split; apply Z.eqb_neq; unfold r in *; lia. }
        rewrite E. apply (wf_interior _ W p q Hp); rewrite ?Ho; unfold r in *; lia. }
      apply Z.eqb_neq in Hap, Har. rewrite Hap, Har in Hoa, Hq. simpl in Hoa, Hq.
      apply Z.eqb_neq in Hap, Har.
      pose proof (wf_interior _ W _ _ Ha Hoa Hq) as Hq1.
      assert ((q =? p) || (q =? r) = false) as E.
      { apply orb_false_iff. split; apply Z.eqb_neq; intros ->; [lia|].
        assert (a = p); [|contradiction].
        apply (cover_unique st a p r W); auto; rewrite ?Ho; unfold r; lia. }
      now rewrite E.
    + intros q Hq. destruct (wf_cover _ W _ Hq) as (a & Ha & Hoa & Hqa).
      destruct (Z.eq_dec a p) as [->|Hap].
      * rewrite Ho in Hqa. destruct (Z_lt_le_dec q r) as [Hlt|Hge].
        { exists p. rewrite O5, Z.eqb_refl. simpl. unfold r in Hlt.
          repeat split; try lia. }
        { exists r. rewrite O5, Z.eqb_refl, orb_true_r. unfold r in *.
          repeat split; try lia. }
      * exists a. rewrite O5.
        assert (a <> r) by (intros ->; contradiction).
        assert ((a =? p) || (a =? r) = false) as E.
        { apply orb_false_iff. split; now apply Z.eqb_neq. }
        rewrite E. auto.
    + intros o x Ho' Hx. rewrite F5 in Hx. rewrite O5.
      destruct (o =? n) eqn:E.
      * apply Z.eqb_eq in E. subst o.
        destruct Hx as [<-|[<-|Hx]].
        { rewrite Z.eqb_refl. simpl. auto. }
        { rewrite Z.eqb_refl, orb_true_r. auto. }
        destruct (wf_list _ W _ _ Hn Hx) as [Hx1 Hx2].
        assert ((x =? p) || (x =? r) = false) as E.
        { apply orb_false_iff. split; apply Z.eqb_neq; intros ->;
            unfold n, MIN_ORDER in *; lia. }
        rewrite E. auto.
      * apply In_drop in Hx. destruct Hx as [Hx Hxp].
        destruct (wf_list _ W _ _ Ho' Hx) as [Hx1 Hx2].
        assert ((x =? p) || (x =? r) = false) as E'.
        { apply orb_false_iff. split; apply Z.eqb_neq; auto.
          intros ->. unfold MIN_ORDER in *. lia. }
        rewrite E'. auto.
    + intros o Ho'. rewrite F5. destruct (o =? n) eqn:E.
      * apply Z.eqb_eq in E. subst o.
        constructor; [|constructor].
        { intros [H|H]; [lia|contradiction]. }
        { apply (Hrl n Hn). }
        { apply (wf_nodup _ W _ Hn). }
      * apply NoDup_drop. apply (wf_nodup _ W _ Ho').
Qed.

Lemma wf_unlinked st p : wf st -> wf (unlinked st p).
Proof.
  intros W. constructor.
  - apply shape_unlinked, (wf_shape _ W).
  - exact (wf_head _ W).
  - exact (wf_interior _ W).
  - exact (wf_cover _ W).
  - intros o x Ho Hx. rewrite fl_unlinked in Hx. apply In_drop in Hx.
    apply (wf_list _ W o x Ho). tauto.
  - intros o Ho. rewrite fl_unlinked. apply NoDup_drop, (wf_nodup _ W o Ho).
Qed.

(** With nothing to split, the block leaves its free list. *)
Lemma splitBlock_base fuel st head t p :
  wf st -> MIN_ORDER <= t <= MAX_ORDER -> In p (fl st t) ->
  splitBlock fuel st head t t p = Ret (unlinked st p, PAGE_TO_ADDR p).
Proof.
  intros W Ht Hin. pose proof (wf_shape _ W) as S.
  destruct (free_head_facts _ _ _ W Ht Hin) as (Hp & _).
  rewrite splitBlock_eq, Z.eqb_refl.
  ret (list_del_ok st p t S Ht Hin).
  ret (get_page_ok (unlinked st p) p (shape_unlinked _ _ S) Hp).
  reflexivity.
Qed.

(** The whole descent from order [c] to order [t]: the right half of every
    halving heads the free list of its order, the block at [p] is left with
    order [t] outside every list, and nothing else changes. *)
Lemma splitBlock_spec n : forall fuel st head c t p,
  wf st -> MIN_ORDER <= t -> c <= MAX_ORDER -> c = t + Z.of_nat n ->
  (n <= fuel)%nat -> In p (fl st c) ->
  exists st',
    splitBlock fuel st head c t p = Ret (st', PAGE_TO_ADDR p) /\
    wf st' /\
    (forall o, fl st' o =
       if (t <=? o) && (o <? c) then (p + psize o) :: drop p (fl st o)
       else drop p (fl st o)) /\
    ord st' p = t /\
    (forall o, t <= o < c -> ord st' (p + psize o) = o) /\
    (forall q, q <> p -> (forall o, t <= o < c -> q <> p + psize o) ->
       ord st' q = ord st q) /\
    g_memory st' = g_memory st.
Proof.
  induction n as [|n IH]; intros fuel st head c t p W Ht Hc Hn Hf Hin.
  - simpl in Hn. rewrite Z.add_0_r in Hn. subst c.
    exists (unlinked st p). split; [|split; [|split; [|split; [|split; [|split]]]]].
    + apply splitBlock_base; auto; lia.
    + now apply wf_unlinked.
    + intros o. rewrite fl_unlinked.
      assert ((t <=? o) && (o <? t) = false) as E.
      { apply andb_false_iff. destruct (Z_le_gt_dec t o); [right; apply Z.ltb_ge|left; apply Z.leb_gt]; lia. }
      now rewrite E.
    + rewrite ord_unlinked.
      assert (MIN_ORDER <= t <= MAX_ORDER) as Ht' by lia.
      now destruct (free_head_facts _ _ _ W Ht' Hin) as (_ & ? & _).
    + intros o Ho. lia.
    + intros q _ _. apply ord_unlinked.
    + reflexivity.
  - destruct fuel as [|fuel]; [lia|].
    assert (MIN_ORDER < c <= MAX_ORDER) as Hc' by lia.
    assert (c <> t) as Hne by lia.
    destruct (splitBlock_step fuel st head c t p W Hc' Hne Hin)
      as (st5 & E5 & W5 & F5 & O5 & M5).
    assert (In p (fl st5 (c - 1))) as Hin5.
    { rewrite F5, Z.eqb_refl. now left. }
    destruct (IH fuel st5 (c - 1) (c - 1) t p W5) as (st' & E' & W' & F' & Op & Or & Oq & M');
      auto; try lia.
    assert (MIN_ORDER <= c - 1) as Hc1 by lia.
    pose proof (psize_pos (c - 1) Hc1) as Hpos.
    exists st'. split; [|split; [|split; [|split; [|split; [|split]]]]]; auto.
    + now rewrite E5.
    + intros o. rewrite F', F5.
      destruct (Z.eq_dec o (c - 1)) as [->|Ho].
      * rewrite Z.eqb_refl.
        assert ((t <=? c - 1) && (c - 1 <? c - 1) = false) as E1.
        { apply andb_false_iff. right. apply Z.ltb_ge. lia. }
        assert ((t <=? c - 1) && (c - 1 <? c) = true) as E2.
        { apply andb_true_iff. split; [apply Z.leb_le|apply Z.ltb_lt]; lia. }
        rewrite E1, E2. rewrite drop_cons_eq, drop_cons_ne by lia. reflexivity.
      * assert ((o =? c - 1) = false) as E0 by (now apply Z.eqb_neq).
        rewrite E0, drop_drop.
        assert ((o <? c - 1) = (o <? c)) as E1.
        { destruct (o <? c) eqn:E; [apply Z.ltb_lt in E; apply Z.ltb_lt|
                                     apply Z.ltb_ge in E; apply Z.ltb_ge]; lia. }
        now rewrite E1.
    + intros o Ho. destruct (Z.eq_dec o (c - 1)) as [->|Ho1].
      * rewrite Oq.
        { rewrite O5, Z.eqb_refl, orb_true_r. reflexivity. }
        { lia. }
        { intros o' Ho'. 
          assert (psize o' < psize (c - 1)) by (apply psize_lt; lia). lia. }
      * apply Or. lia.
    + intros q Hqp Hq. rewrite Oq; auto.
      * rewrite O5.
        assert ((q =? p) || (q =? p + psize (c - 1)) = false) as E.
        { apply orb_false_iff. split; apply Z.eqb_neq; auto. apply Hq. lia. }
        now rewrite E.
      * intros o Ho. apply Hq. lia.
    + congruence.
Qed.

(** ** buddy_alloc *)

Lemma scan_free_eq fuel st o :
  scan_free fuel st o =
  if o <=? MAX_ORDER then
    e <- list_empty st o ;;
    if negb e then Ret o
    else
      match fuel with
      | O => OutOfFuel
      | S fuel' => scan_free fuel' st ((if o =? MAX_ORDER then -1 else o) + 1)
      end
  else Ret o.
Proof. destruct fuel; reflexivity. Qed.

(** The scan stops at the first non-empty list. *)
Lemma scan_free_found n : forall fuel st o c,
  shape st -> MIN_ORDER <= o -> c <= MAX_ORDER -> c = o + Z.of_nat n ->
  (n <= fuel)%nat ->
  (forall o', o <= o' < c -> fl st o' = []) -> fl st c <> [] ->
  scan_free fuel st o = Ret c.
Proof.
  induction n as [|n IH]; intros fuel st o c S Ho Hc Hn Hf Hemp Hne.
  - simpl in Hn. rewrite Z.add_0_r in Hn. subst c.
    rewrite scan_free_eq.
    assert ((o <=? MAX_ORDER) = true) as E by (apply Z.leb_le; lia). rewrite E.
    ret (list_empty_ok st o S) by lia.
    destruct (fl st o); [congruence|reflexivity].
  - rewrite scan_free_eq.
    assert ((o <=? MAX_ORDER) = true) as E by (apply Z.leb_le; lia). rewrite E.
    ret (list_empty_ok st o S) by lia.
    rewrite (Hemp o) by lia. simpl negb. cbv iota.
    destruct fuel as [|fuel]; [lia|].
    assert ((o =? MAX_ORDER) = false) as E1 by (apply Z.eqb_neq; lia). rewrite E1.
    apply IH; auto; try lia. intros o' Ho'. apply Hemp. lia.
Qed.

(** With every sufficient list empty, the scan wraps to order [0] and
    stops there: the head of [free_area[0]] was never initialised, so it does
    not test as empty. *)
Lemma scan_free_exhausted n : forall fuel st o,
  shape st -> MIN_ORDER <= o -> MAX_ORDER = o + Z.of_nat n ->
  (S n <= fuel)%nat -> exhausted st o ->
  scan_free fuel st o = Ret 0.
Proof.
  induction n as [|n IH]; intros fuel st o S Ho Hn Hf Hex.
  - simpl in Hn. rewrite Z.add_0_r in Hn. subst o.
    rewrite scan_free_eq.
    assert ((MAX_ORDER <=? MAX_ORDER) = true) as E by (apply Z.leb_le; lia). rewrite E.
    ret (list_empty_ok st MAX_ORDER S) by lia.
    rewrite (Hex MAX_ORDER) by lia. simpl negb. cbv iota.
    destruct fuel as [|fuel]; [lia|].
    rewrite Z.eqb_refl. change (-1 + 1) with 0.
    rewrite scan_free_eq. change (0 <=? MAX_ORDER) with true. cbv iota.
    unfold list_empty. rewrite (sh_low _ S 0) by lia. reflexivity.
  - rewrite scan_free_eq.
    assert ((o <=? MAX_ORDER) = true) as E by (apply Z.leb_le; lia). rewrite E.
    ret (list_empty_ok st o S) by lia.
    rewrite (Hex o) by lia. simpl negb. cbv iota.
    destruct fuel as [|fuel]; [lia|].
    assert ((o =? MAX_ORDER) = false) as E1 by (apply Z.eqb_neq; lia). rewrite E1.
    apply IH; auto; try lia. intros o' Ho'. apply Hex. lia.
Qed.

(** The scan never leaves the loop with a negative order: the test
    [freeOrder < 0] after the loop cannot succeed. *)
Lemma scan_free_nonneg fuel : forall st o r,
  0 <= o -> scan_free fuel st o = Ret r -> 0 <= r.
Proof.
  induction fuel as [|fuel IH]; intros st o r Ho H; rewrite scan_free_eq in H;
    destruct (o <=? MAX_ORDER); try (inversion H; lia);
    destruct (list_empty st o) as [e| |]; try discriminate;
    cbn [bind] in H; destruct (negb e); try (inversion H; lia);
    try discriminate.
  eapply IH; [|exact H]. destruct (o =? MAX_ORDER); lia.
Qed.

(** Either every list from [t] up is empty, or there is a first one that
    is not. *)
Lemma first_nonempty st n : forall t,
  MAX_ORDER + 1 = t + Z.of_nat n ->
  exhausted st t \/
  exists c p l, t <= c <= MAX_ORDER /\
    (forall o', t <= o' < c -> fl st o' = []) /\ fl st c = p :: l.
Proof.
  induction n as [|n IH]; intros t Hn.
  - left. intros o' Ho'. lia.
  - destruct (fl st t) as [|p l] eqn:E.
    + destruct (IH (t + 1)) as [Hex|(c & p & l & Hc & Hemp & Hl)]; [lia| |].
      * left. intros o' Ho'. destruct (Z.eq_dec o' t) as [->|]; auto. apply Hex. lia.
      * right. exists c, p, l. repeat split; auto; try lia.
        intros o' Ho'. destruct (Z.eq_dec o' t) as [->|]; auto. apply Hemp. lia.
    + right. exists t, p, l. repeat split; auto; try lia.
Qed.

(** A request that finds a free block is served by [splitBlock] from the
    first entry of the first non-empty list. *)
Lemma buddy_alloc_found st size t c p l :
  wf st -> getOrder size = Ret t -> MIN_ORDER <= t <= c -> c <= MAX_ORDER ->
  (forall o', t <= o' < c -> fl st o' = []) -> fl st c = p :: l ->
  buddy_alloc st size = splitBlock DEPTH st c c t p.
Proof.
  intros W Ht Htc Hc Hemp Hl. pose proof (wf_shape _ W) as S.
  assert (In p (fl st c)) as Hin by (rewrite Hl; now left).
  destruct (free_head_facts st c p W) as (Hp & _); auto; try lia.
  unfold buddy_alloc. ret Ht.
  assert ((t <? 0) = false) as E by (apply Z.ltb_ge; lia). rewrite E.
  rewrite (scan_free_found (Z.to_nat (c - t)) DEPTH st t c); auto; try lia.
  2:{ unfold DEPTH. lia. }
  2:{ rewrite Hl. discriminate. }
  rewrite bind_Ret. cbv beta.
  assert ((c <? 0) = false) as E1 by (apply Z.ltb_ge; lia). rewrite E1.
  ret (first_entry_ok st c p l S) by (auto; lia).
  ret (get_page_ok st p S Hp). simpl addr.
  ret ADDR_TO_PAGE_page by lia.
  rewrite to_int_small by lia. reflexivity.
Qed.

(** A request that meets an exhausted arena does not return. *)
Lemma buddy_alloc_exhausted st size t :
  shape st -> getOrder size = Ret t -> MIN_ORDER <= t <= MAX_ORDER ->
  exhausted st t -> buddy_alloc st size = Fault.
Proof.
  intros S Ht Hr Hex. unfold buddy_alloc. ret Ht.
  assert ((t <? 0) = false) as E by (apply Z.ltb_ge; lia). rewrite E.
  rewrite (scan_free_exhausted (Z.to_nat (MAX_ORDER - t)) DEPTH st t); auto; try lia.
  2:{ unfold DEPTH. lia. }
  rewrite bind_Ret. cbv beta. change (0 <? 0) with false. cbv iota.
  unfold first_entry. rewrite (sh_low _ S 0) by lia. reflexivity.
Qed.

(** A request above the arena size, up to [2^30], is refused. *)
Lemma buddy_alloc_large st size :
  2 ^ MAX_ORDER < size <= 2 ^ 30 -> buddy_alloc st size = Ret (st, NULL).
Proof.
  intros Hs. unfold buddy_alloc. now rewrite (getOrder_large size Hs).
Qed.

Lemma buddy_of_involutive p o : buddy_of (buddy_of p o) o = p.
Proof.
  unfold buddy_of. now rewrite Z.lxor_assoc, Z.lxor_nilpotent, Z.lxor_0_r.
Qed.

Lemma aligned_down o c p :
  MIN_ORDER <= o <= c -> p mod psize c = 0 -> p mod psize o = 0.
Proof.
  intros Ho Hc.
  pose proof (psize_pos o (proj1 Ho)) as Po.
  assert (0 < psize c) as Pc by (apply psize_pos; lia).
  apply Z.mod_divide in Hc; [|lia]. apply Z.mod_divide; [lia|].
  apply Z.divide_trans with (psize c); auto.
  exists (2 ^ (c - o)). unfold psize. rewrite <- Z.pow_add_r by lia.
  f_equal. lia.
Qed.

(** The right half of an aligned block has the left half for buddy. *)
Lemma right_half_buddy o p :
  MIN_ORDER <= o < MAX_ORDER -> 0 <= p -> p + psize (o + 1) <= N_PAGES ->
  p mod psize (o + 1) = 0 -> buddy_of (p + psize o) o = p.
Proof.
  intros Ho Hp Hend Hal.
  assert (MIN_ORDER <= o <= MAX_ORDER) as Ho' by lia.
  pose proof (psize_pos o (proj1 Ho')) as Pos.
  pose proof (psize_succ o (proj1 Ho')) as Hs.
  assert (0 <= p + psize o < N_PAGES) as Hr by lia.
  assert ((p + psize o) mod psize o = 0 /\ (p + psize o) mod psize (o + 1) = psize o)
    as [A1 A2].
  { clear - Ho' Hal Hp Hend Ho. by_order o Ho'; split; dlia. }
  destruct (buddy_of_aligned o (p + psize o) Ho' Hr A1) as [[E _]|[_ E]]; lia.
Qed.

Lemma right_half_dec n : forall t c p q,
  c = t + Z.of_nat n ->
  (exists o, t <= o < c /\ q = p + psize o) \/
  (forall o, t <= o < c -> q <> p + psize o).
Proof.
  induction n as [|n IH]; intros t c p q Hn.
  - right. intros o Ho. lia.
  - destruct (Z.eq_dec q (p + psize (c - 1))) as [E|E].
    + left. exists (c - 1). split; auto. lia.
    + destruct (IH t (c - 1) p q) as [(o & Ho & Hq)|H]; [lia| |].
      * left. exists o. split; auto. lia.
      * right. intros o Ho. destruct (Z.eq_dec o (c - 1)) as [->|]; auto.
        apply H. lia.
Qed.

(** From the shape of a split to the invariant: no buddies are left free
    together, and the only block that became allocated is the one at [p]. *)
Lemma split_Inv st st' c t p :
  Inv st -> MIN_ORDER <= t <= c -> c <= MAX_ORDER -> In p (fl st c) ->
  wf st' ->
  (forall o, fl st' o =
     if (t <=? o) && (o <? c) then (p + psize o) :: drop p (fl st o)
     else drop p (fl st o)) ->
  ord st' p = t ->
  (forall o, t <= o < c -> ord st' (p + psize o) = o) ->
  (forall q, q <> p -> (forall o, t <= o < c -> q <> p + psize o) ->
     ord st' q = ord st q) ->
  Inv st' /\ (forall q, allocated st' q <-> allocated st q \/ q = p).
Proof.
  intros [W B] Htc Hc Hin W' F' Op Or Oq.
  assert (MIN_ORDER <= c <= MAX_ORDER) as Hc' by lia.
  destruct (free_head_facts st c p W Hc' Hin) as (Hp & Ho & Hal & Hend).
  assert (forall o, t <= o < c ->
            0 < psize o /\ p + psize (o + 1) <= N_PAGES /\ p mod psize (o + 1) = 0 /\
            ord st (p + psize o) = -1 /\ buddy_of (p + psize o) o = p) as R.
  { intros o Hoc.
    assert (0 < psize o) as P1 by (apply psize_pos; lia).
    assert (psize (o + 1) <= psize c) as P2.
    { destruct (Z.eq_dec (o + 1) c) as [->|]; [lia|].
      assert (psize (o + 1) < psize c) by (apply psize_lt; lia). lia. }
    assert (psize (o + 1) = 2 * psize o) as P3 by (apply psize_succ; lia).
    assert (p mod psize (o + 1) = 0) as P4 by (apply aligned_down with c; auto; lia).
    repeat split; auto; try lia.
    - apply (wf_interior st W p); auto; rewrite ?Ho; lia.
    - apply right_half_buddy; auto; lia. }
  assert (forall o, ((t <=? o) && (o <? c) = true) <-> t <= o < c) as Rng.
  { intros o. rewrite andb_true_iff, Z.leb_le, Z.ltb_lt. tauto. }
  split; [split; auto|].
  - (* no free buddies *)
    intros o x Ho' Hx Hb. rewrite F' in Hx, Hb.
    destruct ((t <=? o) && (o <? c)) eqn:E.
    + apply Rng in E. destruct (R o E) as (P1 & P2 & P4 & P5 & P6).
      destruct Hx as [<-|Hx].
      * rewrite P6 in Hb. destruct Hb as [Hb|Hb]; [lia|].
        apply In_drop in Hb. tauto.
      * apply In_drop in Hx. destruct Hx as [Hx Hxp].
        destruct Hb as [Hb|Hb].
        { apply Hxp. rewrite <- (buddy_of_involutive x o), <- Hb. exact P6. }
        { apply In_drop in Hb. apply (B o x Ho' Hx). tauto. }
    + apply In_drop in Hx. apply In_drop in Hb. apply (B o x Ho'); tauto.
  - (* allocated blocks *)
    intros q. unfold allocated.
    destruct (Z.eq_dec q p) as [->|Hqp].
    { split; [auto|]. intros _. rewrite Op. repeat split; auto; try lia.
      rewrite F'. destruct ((t <=? t) && (t <? c)) eqn:E.
      - apply Rng in E. destruct (R t E) as (P1 & _).
        intros [H|H]; [lia|]. apply In_drop in H. tauto.
      - intros H. apply In_drop in H. tauto. }
    destruct (right_half_dec (Z.to_nat (c - t)) t c p q) as [(o & Hoc & ->)|Hq]; [lia| |].
    { destruct (R o Hoc) as (P1 & P2 & P4 & P5 & P6).
      rewrite (Or o Hoc), F'. apply Rng in Hoc. rewrite Hoc. rewrite P5.
      split.
      - intros (_ & _ & H). exfalso. apply H. now left.
      - intros [(_ & H & _)|H]; [congruence|lia]. }
    rewrite (Oq q Hqp Hq), F'.
    assert (In q (if (t <=? ord st q) && (ord st q <? c)
                  then (p + psize (ord st q)) :: drop p (fl st (ord st q))
                  else drop p (fl st (ord st q))) <-> In q (fl st (ord st q))) as M.
    { destruct ((t <=? ord st q) && (ord st q <? c)) eqn:E.
      - apply Rng in E. simpl. rewrite In_drop. split.
        + intros [H|H]; [|tauto]. exfalso. apply (Hq (ord st q) E). auto.
        + tauto.
      - rewrite In_drop. tauto. }
    rewrite M. tauto.
Qed.

(** What a returning [buddy_alloc] has done. *)
Lemma buddy_alloc_Inv st size st' a :
  Inv st -> buddy_alloc st size = Ret (st', a) ->
  (a = NULL /\ st' = st /\ 2 ^ MAX_ORDER < size) \/
  (exists p t, a = PAGE_TO_ADDR p /\ getOrder size = Ret t /\
     0 < size <= 2 ^ MAX_ORDER /\ MIN_ORDER <= t <= MAX_ORDER /\
     Inv st' /\ 0 <= p < N_PAGES /\ ord st' p = t /\ p mod psize t = 0 /\
     ~ allocated st p /\ (forall q, allocated st' q <-> allocated st q \/ q = p) /\
     g_memory st' = g_memory st).
Proof.
  intros I E. pose proof I as [W B].
  destruct (Z_le_gt_dec size 0) as [Hs|Hs].
  { exfalso. unfold buddy_alloc in E.
    destruct (Z.eq_dec size 0) as [->|]; [rewrite getOrder_zero in E; discriminate|].
    rewrite getOrder_negative in E by lia. discriminate. }
  destruct (Z_le_gt_dec size (2 ^ MAX_ORDER)) as [Hle|Hgt].
  - right.
    destruct (getOrder_fits size) as (t & Ht & Hr & Hsz & Hmin); [lia|].
    destruct (first_nonempty st (Z.to_nat (MAX_ORDER + 1 - t)) t)
      as [Hex|(c & p & l & Hc & Hemp & Hl)]; [lia| |].
    { rewrite (buddy_alloc_exhausted st size t) in E; auto.
      - discriminate.
      - apply (wf_shape _ W). }
    rewrite (buddy_alloc_found st size t c p l) in E; auto; try lia.
    assert (In p (fl st c)) as Hin by (rewrite Hl; now left).
    destruct (splitBlock_spec (Z.to_nat (c - t)) DEPTH st c c t p)
      as (st1 & E1 & W1 & F1 & Op & Or & Oq & M1); auto; try lia.
    { unfold DEPTH. lia. }
    rewrite E1 in E. inversion E. subst st1 a.
    destruct (split_Inv st st' c t p) as [I' A']; auto; try lia.
    assert (MIN_ORDER <= c <= MAX_ORDER) as Hc' by lia.
    destruct (free_head_facts st c p W Hc' Hin) as (Hp & Ho & Hal & Hend).
    exists p, t.
    split; [reflexivity|]. split; [exact Ht|]. split; [lia|]. split; [lia|].
    split; [exact I'|]. split; [lia|]. split; [exact Op|].
    split; [apply aligned_down with c; auto; lia|].
    split; [|split; [exact A'|exact M1]].
    intros (_ & _ & H). apply H. now rewrite Ho.
  - destruct (Z_le_gt_dec size (2 ^ 30)) as [Hle|Hhuge].
    + left. rewrite buddy_alloc_large in E by lia. inversion E.
      repeat split; auto. lia.
    + exfalso. unfold buddy_alloc in E. rewrite getOrder_huge in E by lia.
      discriminate.
Qed.

(** ** buddy_free *)

Lemma buddy_free_rec_eq fuel st p :
  buddy_free_rec fuel st (PAGE_TO_ADDR p) =
  (pageno <- ADDR_TO_PAGE (PAGE_TO_ADDR p) ;;
   pageToFree <- get_page st pageno ;;
   e <- list_empty st (order pageToFree) ;;
   if e then list_add st pageno (order pageToFree)
   else
     buddyAddr <- BUDDY_ADDR (addr pageToFree) (order pageToFree) ;;
     l <- entries_of st (order pageToFree) ;;
     found <- find_buddy st buddyAddr l ;;
     match found with
     | Some t =>
         tempPage <- get_page st t ;;
         let '(leftBlock, rightBlock) :=
           if index tempPage <? index pageToFree then (t, pageno) else (pageno, t) in
         st1 <- set_order st rightBlock (-1) ;;
         leftPage <- get_page st1 leftBlock ;;
         st2 <- set_order st1 leftBlock (order leftPage + 1) ;;
         st3 <- list_del st2 t ;;
         leftPage' <- get_page st3 leftBlock ;;
         if order leftPage' <=? MAX_ORDER then
           match fuel with
           | O => OutOfFuel
           | S fuel' => buddy_free_rec fuel' st3 (addr leftPage')
           end
         else Ret st3
     | None => list_add st pageno (order pageToFree)
     end).
Proof. destruct fuel; reflexivity. Qed.

(** The scan finds the buddy exactly when it is an entry of the list. *)
Lemma find_buddy_ok st b l :
  shape st -> (forall x, In x l -> 0 <= x < N_PAGES) ->
  find_buddy st (PAGE_TO_ADDR b) l = Ret (if mem b l then Some b else None).
Proof.
  intros S. induction l as [|t l IH]; intros Hl; [reflexivity|].
  simpl find_buddy.
  ret (get_page_ok st t S) by (apply Hl; now left). simpl addr.
  rewrite ptr_eqb_page. simpl mem. rewrite (Z.eqb_sym b t).
  destruct (t =? b) eqn:E.
  - apply Z.eqb_eq in E. now subst.
  - simpl. apply IH. intros x Hx. apply Hl. now right.
Qed.

(** An allocated block: its order, its alignment, and where it is not. *)
Lemma allocated_facts st p :
  wf st -> allocated st p ->
  0 <= p < N_PAGES /\ MIN_ORDER <= ord st p <= MAX_ORDER /\
  p mod psize (ord st p) = 0 /\
  (forall o, MIN_ORDER <= o <= MAX_ORDER -> ~ In p (fl st o)).
Proof.
  intros W (Hp & Ho & Hn).
  destruct (wf_head st W p Hp) as [H|[H1 H2]]; [contradiction|].
  repeat split; auto; try lia.
  intros o Ho' Hin. destruct (wf_list st W o p Ho' Hin) as [_ E].
  subst o. contradiction.
Qed.

(** The two members of a buddy pair, in address order. *)
Lemma buddy_pair o p :
  MIN_ORDER <= o <= MAX_ORDER -> 0 <= p < N_PAGES -> p mod psize o = 0 ->
  0 <= buddy_of p o < N_PAGES ->
  o < MAX_ORDER /\ psize (o + 1) = 2 * psize o /\ 0 < psize o /\
  Z.min p (buddy_of p o) mod psize (o + 1) = 0 /\
  Z.max p (buddy_of p o) = Z.min p (buddy_of p o) + psize o /\
  Z.min p (buddy_of p o) + psize (o + 1) <= N_PAGES.
Proof.
  intros Ho Hp Hal Hb.
  pose proof (psize_pos o (proj1 Ho)) as Pos.
  pose proof (psize_succ o (proj1 Ho)) as Hs.
  assert (o < MAX_ORDER) as Hlt.
  { destruct (Z.eq_dec o MAX_ORDER) as [->|]; [|lia]. exfalso.
    destruct (buddy_of_aligned MAX_ORDER p Ho Hp Hal) as [[_ E]|[_ E]];
      rewrite E in Hb; change (psize MAX_ORDER) with 256 in *; dlia. }
  destruct (buddy_of_aligned o p Ho Hp Hal) as [[A E]|[A E]]; rewrite E in *.
  - rewrite Z.min_l, Z.max_r by lia. repeat split; auto; try lia.
    clear - A Hp Ho Hlt. by_order o Ho; dlia.
  - rewrite Z.min_r, Z.max_l by lia. repeat split; auto; try lia.
    + clear - A Hp Ho Hlt Hal. by_order o Ho; dlia.
    + clear - A Hp Ho Hlt Hal. by_order o Ho; dlia.
Qed.

(** Without the buddy in the list of the block's order, the block becomes
    the first entry of that list; whether the list is empty plays no part. *)
Lemma buddy_free_insert fuel st p :
  wf st -> allocated st p ->
  ~ In (buddy_of p (ord st p)) (fl st (ord st p)) ->
  buddy_free_rec fuel st (PAGE_TO_ADDR p) =
  Ret (with_list st (ord st p) (p :: fl st (ord st p))).
Proof.
  intros W A Hb. pose proof (wf_shape st W) as S.
  destruct (allocated_facts st p W A) as (Hp & Ho & Hal & Hnl).
  rewrite buddy_free_rec_eq.
  ret ADDR_TO_PAGE_page by lia.
  ret (get_page_ok st p S Hp). simpl order. simpl addr.
  ret (list_empty_ok st (ord st p) S Ho).
  destruct (fl st (ord st p)) as [|x l] eqn:E.
  - rewrite (list_add_ok st p (ord st p) S Ho Hnl). now rewrite E.
  - ret (BUDDY_ADDR_page (ord st p) p Ho Hp).
    ret (entries_of_ok st (ord st p) S Ho).
    rewrite find_buddy_ok; auto.
    2:{ intros y Hy. apply (wf_list st W (ord st p) y Ho Hy). }
    rewrite bind_Ret. cbv beta.
    destruct (mem (buddy_of p (ord st p)) (fl st (ord st p))) eqn:M.
    + apply mem_In in M. rewrite E in M. contradiction.
    + rewrite (list_add_ok st p (ord st p) S Ho Hnl). now rewrite E.
Qed.

Lemma ord_merge_step st p b o q :
  shape st -> 0 <= p < N_PAGES -> 0 <= b < N_PAGES -> p <> b ->
  ord (merge_step st p b o) q =
  if q =? Z.min p b then o + 1 else if q =? Z.max p b then -1 else ord st q.
Proof.
  intros S Hp Hb Hne. unfold merge_step. rewrite ord_unlinked.
  assert (0 <= Z.max p b < N_PAGES) as Hr by lia.
  assert (0 <= Z.min p b < N_PAGES) as Hl by lia.
  rewrite ord_with_order; auto using shape_with_order.
  rewrite ord_with_order; auto.
Qed.

Lemma fl_merge_step st p b o o' : fl (merge_step st p b o) o' = drop b (fl st o').
Proof. unfold merge_step. now rewrite fl_unlinked. Qed.

Lemma shape_merge_step st p b o :
  shape st -> 0 <= p < N_PAGES -> 0 <= b < N_PAGES -> shape (merge_step st p b o).
Proof.
  intros S Hp Hb. unfold merge_step.
  apply shape_unlinked, shape_with_order; [apply shape_with_order|]; auto; lia.
Qed.

(** With the buddy in the list, the two blocks are merged and the merged
    block is freed in turn. *)
Lemma buddy_free_merge fuel st p :
  wf st -> allocated st p ->
  In (buddy_of p (ord st p)) (fl st (ord st p)) ->
  ord st p < MAX_ORDER /\
  buddy_free_rec (S fuel) st (PAGE_TO_ADDR p) =
  buddy_free_rec fuel (merge_step st p (buddy_of p (ord st p)) (ord st p))
    (PAGE_TO_ADDR (Z.min p (buddy_of p (ord st p)))).
Proof.
  intros W A Hin. pose proof (wf_shape st W) as S.
  destruct (allocated_facts st p W A) as (Hp & Ho & Hal & Hnl).
  set (o := ord st p) in *. set (b := buddy_of p o) in *.
  destruct (wf_list st W o b Ho Hin) as [Hb Hob].
  destruct (buddy_pair o p Ho Hp Hal Hb) as (Hlt & Hs & Pos & Lal & Hmax & Hend).
  fold b in Lal, Hmax, Hend.
  assert (p <> b) as Hne by (intros E; rewrite <- E in Hin; apply (Hnl o Ho Hin)).
  split; auto.
  rewrite buddy_free_rec_eq.
  ret ADDR_TO_PAGE_page by lia.
  ret (get_page_ok st p S Hp). simpl order. simpl addr. simpl index. fold o.
  ret (list_empty_ok st o S Ho).
  replace (match fl st o with [] => true | _ :: _ => false end) with false
    by (destruct (fl st o); [contradiction|reflexivity]).
  ret (BUDDY_ADDR_page o p Ho Hp). fold b.
  ret (entries_of_ok st o S Ho).
  rewrite find_buddy_ok; auto.
  2:{ intros y Hy. apply (wf_list st W o y Ho Hy). }
  rewrite bind_Ret. cbv beta.
  assert (mem b (fl st o) = true) as M by (now apply mem_In). rewrite M.
  ret (get_page_ok st b S Hb). simpl index.
  set (lft := Z.min p b). set (rgt := Z.max p b).
  assert ((if b <? p then (b, p) else (p, b)) = (lft, rgt)) as Epair.
  { unfold lft, rgt. destruct (b <? p) eqn:Eb.
    - apply Z.ltb_lt in Eb. now rewrite Z.min_r, Z.max_l by lia.
    - apply Z.ltb_ge in Eb. now rewrite Z.min_l, Z.max_r by lia. }
  rewrite Epair.
  assert (0 <= lft < N_PAGES) as Hl by (unfold lft; lia).
  assert (0 <= rgt < N_PAGES) as Hr by (unfold rgt; lia).
  assert (ord st lft = o) as Hol.
  { unfold lft. destruct (Z.min_spec p b) as [[_ ->]|[_ ->]]; auto. }
  ret (set_order_ok st rgt (-1) S Hr).
  assert (shape (with_order st rgt (-1))) as S1 by (now apply shape_with_order).
  ret (get_page_ok _ lft S1 Hl). simpl order.
  rewrite ord_with_order by auto.
  assert ((lft =? rgt) = false) as Elr by (apply Z.eqb_neq; unfold lft, rgt; lia).
  rewrite Elr, Hol.
  ret (set_order_ok _ lft (o + 1) S1 Hl).
  assert (shape (with_order (with_order st rgt (-1)) lft (o + 1))) as S2
    by (now apply shape_with_order).
  ret (list_del_ok _ b o S2 Ho Hin).
  change (unlinked (with_order (with_order st rgt (-1)) lft (o + 1)) b)
    with (merge_step st p b o).
  assert (shape (merge_step st p b o)) as S3 by (now apply shape_merge_step).
  ret (get_page_ok _ lft S3 Hl). simpl order. simpl addr.
  rewrite ord_merge_step by auto. fold lft. rewrite Z.eqb_refl.
  assert ((o + 1 <=? MAX_ORDER) = true) as Ele by (apply Z.leb_le; lia).
  now rewrite Ele.
Qed.

(** The invariant across an insertion into the free list. *)
Lemma insert_Inv st p :
  Inv st -> allocated st p ->
  ~ In (buddy_of p (ord st p)) (fl st (ord st p)) ->
  Inv (with_list st (ord st p) (p :: fl st (ord st p))) /\
  (forall q, allocated (with_list st (ord st p) (p :: fl st (ord st p))) q <->
             allocated st q /\ q <> p).
Proof.
  intros [W B] A Hb. pose proof (wf_shape st W) as S.
  destruct (allocated_facts st p W A) as (Hp & Ho & Hal & Hnl).
  set (o := ord st p) in *.
  set (st' := with_list st o (p :: fl st o)).
  assert (forall o', fl st' o' = if o' =? o then p :: fl st o else fl st o') as F.
  { intros o'. unfold st'. now rewrite fl_with_list. }
  assert (buddy_of p o <> p) as Hbp.
  { pose proof (psize_pos o (proj1 Ho)).
    destruct (buddy_of_aligned o p Ho Hp Hal) as [[_ E]|[_ E]]; lia. }
  split; [split|].
  - constructor.
    + now apply shape_with_list.
    + exact (wf_head st W).
    + exact (wf_interior st W).
    + exact (wf_cover st W).
    + intros o' x Ho' Hx. rewrite F in Hx. change (ord st' x) with (ord st x).
      destruct (o' =? o) eqn:E.
      * apply Z.eqb_eq in E. subst o'. destruct Hx as [<-|Hx]; auto.
        apply (wf_list st W o x Ho Hx).
      * apply (wf_list st W o' x Ho' Hx).
    + intros o' Ho'. rewrite F. destruct (o' =? o) eqn:E.
      * constructor; [apply (Hnl o Ho)|apply (wf_nodup st W o Ho)].
      * apply (wf_nodup st W o' Ho').
  - intros o' x Ho' Hx Hbx. rewrite F in Hx, Hbx.
    destruct (o' =? o) eqn:E.
    + apply Z.eqb_eq in E. subst o'.
      destruct Hx as [<-|Hx]; destruct Hbx as [Hbx|Hbx].
      * auto.
      * contradiction.
      * apply Hb. rewrite Hbx. rewrite buddy_of_involutive. exact Hx.
      * apply (B o x Ho Hx Hbx).
    + apply (B o' x Ho' Hx Hbx).
  - intros q. unfold allocated. change (ord st' q) with (ord st q). rewrite F.
    destruct (Z.eq_dec q p) as [->|Hq].
    + fold o. rewrite Z.eqb_refl. split.
      * intros (_ & _ & H). exfalso. apply H. now left.
      * intros [_ H]. congruence.
    + destruct (ord st q =? o) eqn:E.
      * apply Z.eqb_eq in E. rewrite E. simpl. split.
        { intros (H1 & H2 & H3). split; [split; [lia|split; [auto|tauto]]|auto]. }
        { intros ((H1 & H2 & H3) & _). split; [lia|split; [auto|]].
          intros [H|H]; [congruence|auto]. }
      * tauto.
Qed.

(** The invariant across one coalescing step: the merged block counts as
    allocated until it is freed in turn. *)
Lemma merge_Inv st p :
  Inv st -> allocated st p ->
  In (buddy_of p (ord st p)) (fl st (ord st p)) ->
  let b := buddy_of p (ord st p) in
  let st' := merge_step st p b (ord st p) in
  Inv st' /\ allocated st' (Z.min p b) /\ ord st' (Z.min p b) = ord st p + 1 /\
  (forall q, allocated st' q <-> (allocated st q /\ q <> p) \/ q = Z.min p b) /\
  ~ allocated st b.
Proof.
  intros [W B] A Hin b st'. pose proof (wf_shape st W) as S.
  destruct (allocated_facts st p W A) as (Hp & Ho & Hal & Hnl).
  set (o := ord st p) in *. fold b in Hin.
  destruct (wf_list st W o b Ho Hin) as [Hb Hob].
  destruct (buddy_pair o p Ho Hp Hal Hb) as (Hlt & Hs & Pos & Lal & Hmax & Hend).
  fold b in Lal, Hmax, Hend.
  assert (p <> b) as Hne by (intros E; rewrite <- E in Hin; apply (Hnl o Ho Hin)).
  set (lft := Z.min p b) in *. set (rgt := Z.max p b) in *.
  assert (0 <= lft < N_PAGES) as Hl by (unfold lft; lia).
  assert (0 <= rgt < N_PAGES) as Hr by lia.
  assert (forall q, q = p \/ q = b <-> q = lft \/ q = rgt) as Pair.
  { intros q. unfold lft, rgt. lia. }
  assert (ord st lft = o /\ ord st rgt = o) as [Hol Hor].
  { unfold lft, rgt.
    destruct (Z.min_spec p b) as [[_ ->]|[_ ->]];
      destruct (Z.max_spec p b) as [[_ ->]|[_ ->]]; auto. }
  assert (forall q, ord st' q =
            if q =? lft then o + 1 else if q =? rgt then -1 else ord st q) as O'.
  { intros q. unfold st'. now rewrite ord_merge_step. }
  assert (forall o', fl st' o' = drop b (fl st o')) as F'.
  { intros o'. unfold st'. now rewrite fl_merge_step. }
  assert (~ allocated st b) as Hnb.
  { intros (_ & _ & H). apply H. now rewrite Hob. }
  assert (forall q, q <> lft -> q <> rgt -> ord st' q = ord st q) as Oq.
  { intros q H1 H2. rewrite O'. apply Z.eqb_neq in H1, H2. now rewrite H1, H2. }
  assert (forall o' x, MIN_ORDER <= o' <= MAX_ORDER -> In x (fl st' o') ->
            In x (fl st o') /\ x <> lft /\ x <> rgt) as Fx.
  { intros o' x Ho' Hx. rewrite F' in Hx. apply In_drop in Hx. destruct Hx as [Hx Hxb].
    split; auto.
    assert (x <> p) by (intros ->; apply (Hnl o' Ho' Hx)).
    split; intros ->; destruct (Pair lft), (Pair rgt); intuition lia. }
  assert (wf st') as W'.
  { constructor.
    - unfold st'. now apply shape_merge_step.
    - intros q Hq. rewrite O'.
      destruct (q =? lft) eqn:E1; [right; apply Z.eqb_eq in E1; subst q; split; [lia|auto]|].
      destruct (q =? rgt) eqn:E2; [now left|]. apply (wf_head st W q Hq).
    - intros a q Ha Hoa Hq. rewrite O' in Hoa, Hq.
      destruct (a =? lft) eqn:E1.
      + apply Z.eqb_eq in E1. subst a.
        destruct (Z.lt_trichotomy q rgt) as [H|[H|H]].
        * rewrite Oq by lia. apply (wf_interior st W lft q Hl); rewrite ?Hol; lia.
        * subst q. rewrite O'. rewrite Z.eqb_refl.
          assert ((rgt =? lft) = false) as E by (apply Z.eqb_neq; lia). now rewrite E.
        * rewrite Oq by lia. apply (wf_interior st W rgt q Hr); rewrite ?Hor; lia.
      + destruct (a =? rgt) eqn:E2; [contradiction|].
        apply Z.eqb_neq in E1, E2.
        pose proof (wf_interior st W a q Ha Hoa Hq) as Hq1.
        rewrite Oq; auto; intros ->; lia.
    - intros q Hq. destruct (wf_cover st W q Hq) as (a & Ha & Hoa & Hqa).
      destruct (Z.eq_dec a lft) as [->|E1].
      { exists lft. rewrite O', Z.eqb_refl. rewrite Hol in Hqa. repeat split; try lia. }
      destruct (Z.eq_dec a rgt) as [->|E2].
      { exists lft. rewrite O', Z.eqb_refl. rewrite Hor in Hqa. repeat split; try lia. }
      exists a. rewrite Oq by auto. auto.
    - intros o' x Ho' Hx. destruct (Fx o' x Ho' Hx) as (Hx1 & Hx2 & Hx3).
      rewrite Oq by auto. apply (wf_list st W o' x Ho' Hx1).
    - intros o' Ho'. rewrite F'. apply NoDup_drop, (wf_nodup st W o' Ho'). }
  assert (ord st' lft = o + 1) as Ol' by (rewrite O', Z.eqb_refl; reflexivity).
  assert (allocated st' lft) as Al.
  { repeat split; try lia. rewrite Ol'. intros H.
    assert (MIN_ORDER <= o + 1 <= MAX_ORDER) as Ho1 by lia.
    destruct (Fx (o + 1) lft Ho1 H) as (_ & H1 & _). congruence. }
  split; [split; auto|split; [auto|split; [auto|split; [|auto]]]].
  - intros o' x Ho' Hx Hbx. rewrite F' in Hx, Hbx.
    apply In_drop in Hx. apply In_drop in Hbx. apply (B o' x Ho'); tauto.
  - intros q. destruct (Z.eq_dec q lft) as [->|E1]; [tauto|].
    destruct (Z.eq_dec q rgt) as [->|E2].
    + split.
      * intros (_ & H & _). rewrite O' in H.
        assert ((rgt =? lft) = false) as E by (now apply Z.eqb_neq).
        rewrite E, Z.eqb_refl in H. contradiction.
      * intros [[H1 H2]|H]; [|lia]. exfalso.
        destruct (Pair rgt) as [_ [H|H]]; auto;
          try (apply H2; exact H); try (apply Hnb; rewrite <- H; exact H1).
    + assert (q <> p /\ q <> b) as [Hqp Hqb].
      { destruct (Pair q). split; intros ->; intuition lia. }
      unfold allocated. rewrite Oq by auto. rewrite F', In_drop. tauto.
Qed.

(** Freeing an allocated block returns, keeps the invariant, and takes
    exactly that block out of the allocated ones. *)
Lemma buddy_free_spec n : forall fuel st p,
  Inv st -> allocated st p -> MAX_ORDER - ord st p <= Z.of_nat n ->
  (n <= fuel)%nat ->
  exists st',
    buddy_free_rec fuel st (PAGE_TO_ADDR p) = Ret st' /\ Inv st' /\
    (forall q, allocated st' q <-> allocated st q /\ q <> p) /\
    g_memory st' = g_memory st.
Proof.
  induction n as [|n IH]; intros fuel st p I A Hn Hf;
    pose proof I as [W B];
    destruct (in_dec Z.eq_dec (buddy_of p (ord st p)) (fl st (ord st p))) as [Hin|Hin].
  - destruct (buddy_free_merge fuel st p W A Hin) as [Hlt _]. lia.
  - exists (with_list st (ord st p) (p :: fl st (ord st p))).
    destruct (insert_Inv st p I A Hin) as [I' A'].
    split; [now apply buddy_free_insert|]. split; auto.
  - destruct fuel as [|fuel]; [lia|].
    destruct (buddy_free_merge fuel st p W A Hin) as [Hlt E].
    destruct (merge_Inv st p I A Hin) as (I1 & A1 & O1 & Q1 & Hnb).
    destruct (IH fuel _ _ I1 A1) as (st' & E' & I' & Q' & M'); [lia|lia|].
    exists st'. split; [now rewrite E|]. split; auto. split; auto.
    intros q. rewrite Q', Q1. split.
    + intros [[H|H] H1]; [auto|contradiction].
    + intros [H1 H2]. split; auto. intros ->.
      destruct (Z.min_spec p (buddy_of p (ord st p))) as [[_ E1]|[_ E1]];
        rewrite E1 in H1; auto.
  - exists (with_list st (ord st p) (p :: fl st (ord st p))).
    destruct (insert_Inv st p I A Hin) as [I' A'].
    split; [now apply buddy_free_insert|]. split; auto.
Qed.

(** ** The state after buddy_init *)

Lemma buddy_init_boot : buddy_init boot = Ret fresh.
Proof. reflexivity. Qed.

Lemma fresh_pages_checked : forallb (fresh_page_check fresh) all_pages = true.
Proof. vm_compute. reflexivity. Qed.

Lemma ptr_eqb_eq p q : ptr_eqb p q = true -> p = q.
Proof.
  destruct p, q; simpl; try discriminate; auto.
  intros H. apply Z.eqb_eq in H. now subst.
Qed.

Lemma fresh_page i :
  0 <= i < N_PAGES ->
  zget (g_pages fresh) i =
  Some (mkPage (PAGE_TO_ADDR i) (if i =? 0 then MAX_ORDER else -1) i).
Proof.
  intros Hi. pose proof fresh_pages_checked as H.
  rewrite forallb_forall in H. specialize (H i (proj2 (In_all_pages i) Hi)).
  unfold fresh_page_check in H.
  destruct (zget (g_pages fresh) i) as [[a o x]|]; [|discriminate].
  simpl in H. rewrite !andb_true_iff in H. destruct H as [[H1 H2] H3].
  apply ptr_eqb_eq in H1. apply Z.eqb_eq in H2, H3. now subst.
Qed.

Lemma ord_fresh i : 0 <= i < N_PAGES -> ord fresh i = if i =? 0 then MAX_ORDER else -1.
Proof. intros Hi. unfold ord. now rewrite (fresh_page i Hi). Qed.

Lemma fl_fresh o :
  0 <= o <= MAX_ORDER -> fl fresh o = if o =? MAX_ORDER then [0] else [].
Proof.
  intros Ho.
  assert (o = 0 \/ o = 1 \/ o = 2 \/ o = 3 \/ o = 4 \/ o = 5 \/ o = 6 \/ o = 7 \/
          o = 8 \/ o = 9 \/ o = 10 \/ o = 11 \/ o = 12 \/ o = 13 \/ o = 14 \/
          o = 15 \/ o = 16 \/ o = 17 \/ o = 18 \/ o = 19 \/ o = 20) as C by lia.
  repeat (destruct C as [->|C]; [reflexivity|]). subst o. reflexivity.
Qed.

Lemma shape_fresh : shape fresh.
Proof.
  constructor.
  - reflexivity.
  - intros i Hi. rewrite (ord_fresh i Hi). apply (fresh_page i Hi).
  - reflexivity.
  - intros o Ho.
    assert (o = 0 \/ o = 1 \/ o = 2 \/ o = 3 \/ o = 4 \/ o = 5 \/ o = 6 \/ o = 7 \/
            o = 8 \/ o = 9 \/ o = 10 \/ o = 11) as C by lia.
    repeat (destruct C as [->|C]; [reflexivity|]). subst o. reflexivity.
  - intros o Ho. by_order o Ho; reflexivity.
Qed.

Lemma wf_fresh : wf fresh.
Proof.
  constructor.
  - exact shape_fresh.
  - intros p Hp. rewrite (ord_fresh p Hp). destruct (p =? 0) eqn:E; [right|now left].
    apply Z.eqb_eq in E. subst p. split; [lia|reflexivity].
  - intros p q Hp Ho Hq. rewrite (ord_fresh p Hp) in Ho, Hq.
    destruct (p =? 0) eqn:E; [|contradiction]. apply Z.eqb_eq in E. subst p.
    change (psize MAX_ORDER) with 256 in Hq.
    rewrite ord_fresh by lia.
    assert ((q =? 0) = false) as E by (apply Z.eqb_neq; lia). now rewrite E.
  - intros q Hq. exists 0. rewrite ord_fresh by lia. simpl.
    change (psize MAX_ORDER) with 256. repeat split; try lia.
  - intros o p Ho Hin. rewrite fl_fresh in Hin by lia.
    destruct (o =? MAX_ORDER) eqn:E; [|contradiction].
    apply Z.eqb_eq in E. destruct Hin as [<-|[]]. split; [lia|]. now rewrite ord_fresh by lia.
  - intros o Ho. rewrite fl_fresh by lia. destruct (o =? MAX_ORDER).
    + constructor; [intros []|constructor].
    + constructor.
Qed.

Lemma Inv_fresh : Inv fresh.
Proof.
  split; [exact wf_fresh|].
  intros o p Ho Hin. rewrite fl_fresh in * by lia.
  destruct (o =? MAX_ORDER) eqn:E; [|contradiction].
  apply Z.eqb_eq in E. subst o. destruct Hin as [<-|[]].
  intros [H|[]]. vm_compute in H. discriminate.
Qed.

Lemma no_allocated_fresh q : ~ allocated fresh q.
Proof.
  intros (Hq & Ho & Hn). rewrite (ord_fresh q Hq) in *.
  destruct (q =? 0) eqn:E; [|contradiction]. apply Z.eqb_eq in E. subst q.
  apply Hn. rewrite fl_fresh by lia. now left.
Qed.

Lemma live_ok_fresh : live_ok fresh [].
Proof.
  intros a. split; [intros []|]. intros (q & _ & A). now apply no_allocated_fresh in A.
Qed.

(** ** A state with every block free *)

Section AllFree.

Variable st : state.
Hypothesis W : wf st.
Hypothesis B : no_free_buddies st.
Hypothesis none : forall q, ~ allocated st q.

Lemma head_is_free p :
  0 <= p < N_PAGES -> ord st p <> -1 -> In p (fl st (ord st p)).
Proof.
  intros Hp Ho.
  destruct (in_dec Z.eq_dec p (fl st (ord st p))) as [H|H]; auto.
  exfalso. apply (none p). repeat split; auto; lia.
Qed.

Lemma multiple_le P x y r :
  0 < P -> 0 <= r < P -> x * P <= y * P + r -> x <= y.
Proof.
  intros HP Hr H. destruct (Z_le_gt_dec x y); auto. exfalso.
  assert ((y + 1) * P <= x * P) by (apply Z.mul_le_mono_nonneg_r; lia). lia.
Qed.

Lemma multiple_lt P y z r :
  0 < P -> 0 <= r -> y * P + r < z * P -> y + 1 <= z.
Proof.
  intros HP Hr H. destruct (Z_le_gt_dec (y + 1) z); auto. exfalso.
  assert (z * P <= y * P) by (apply Z.mul_le_mono_nonneg_r; lia). lia.
Qed.

(** A block that covers the buddy of a smaller block covers that block
    too. *)
Lemma cover_buddy o oa p a :
  MIN_ORDER <= o < oa -> oa <= MAX_ORDER -> 0 <= p < N_PAGES -> 0 <= a < N_PAGES ->
  p mod psize o = 0 -> a mod psize oa = 0 ->
  a <= buddy_of p o < a + psize oa -> a <= p < a + psize oa.
Proof.
  intros Ho Hoa Hp Ha Pal Aal Hb.
  assert (MIN_ORDER <= o <= MAX_ORDER) as Ho' by lia.
  assert (MIN_ORDER <= o + 1 <= oa) as Ho1 by lia.
  pose proof (aligned_down (o + 1) oa a Ho1 Aal) as Aal1.
  assert (psize (o + 1) = 2 * psize o) as Hs by (apply psize_succ; lia).
  assert (0 < psize o) as Pos by (apply psize_pos; lia).
  assert (exists k, psize oa = k * psize (o + 1) /\ 0 < k) as (k & Hk & Kpos).
  { exists (2 ^ (oa - (o + 1))). split; [|apply Z.pow_pos_nonneg; lia].
    unfold psize. rewrite <- Z.pow_add_r by lia. f_equal. lia. }
  apply Z.mod_divide in Aal1; [|lia]. destruct Aal1 as (x & Hx).
  destruct (buddy_of_aligned o p Ho' Hp Pal) as [[A E]|[A E]]; rewrite E in Hb.
  - apply Z.mod_divide in A; [|lia]. destruct A as (y & Hy).
    assert (x <= y) by (apply (multiple_le (psize (o + 1)) x y (psize o)); lia).
    assert (y + 1 <= x + k) by (apply (multiple_lt (psize (o + 1)) y (x + k) (psize o)); lia).
    assert (x * psize (o + 1) <= y * psize (o + 1))
      by (apply Z.mul_le_mono_nonneg_r; lia).
    assert ((y + 1) * psize (o + 1) <= (x + k) * psize (o + 1))
      by (apply Z.mul_le_mono_nonneg_r; lia).
    lia.
  - assert ((p - psize o) mod psize (o + 1) = 0) as A'.
    { clear - A Ho' Hp Pal Ho Hoa. by_order o Ho'; dlia. }
    apply Z.mod_divide in A'; [|lia]. destruct A' as (y & Hy).
    assert (x <= y) by (apply (multiple_le (psize (o + 1)) x y 0); lia).
    assert (y + 1 <= x + k) by (apply (multiple_lt (psize (o + 1)) y (x + k) 0); lia).
    assert (x * psize (o + 1) <= y * psize (o + 1))
      by (apply Z.mul_le_mono_nonneg_r; lia).
    assert ((y + 1) * psize (o + 1) <= (x + k) * psize (o + 1))
      by (apply Z.mul_le_mono_nonneg_r; lia).
    lia.
Qed.

(** No block is smaller than the whole arena. *)
Lemma no_small_head n : forall o p,
  o = MIN_ORDER + Z.of_nat n -> o < MAX_ORDER ->
  0 <= p < N_PAGES -> ord st p <> o.
Proof.
  induction n as [n IH] using lt_wf_ind. intros o p Hn Ho Hp Hop.
  assert (MIN_ORDER <= o <= MAX_ORDER) as Ho' by lia.
  destruct (wf_head st W p Hp) as [H|[_ Pal]]; [lia|]. rewrite Hop in Pal.
  assert (In p (fl st o)) as Pin by (rewrite <- Hop; apply head_is_free; auto; lia).
  assert (0 < psize o) as Pos by (apply psize_pos; lia).
  assert (psize (o + 1) = 2 * psize o) as Hs by (apply psize_succ; lia).
  assert (psize (o + 1) <= N_PAGES) as Hsz.
  { clear - Ho' Ho. by_order o Ho'; lia. }
  assert (0 <= buddy_of p o < N_PAGES) as Hb.
  { destruct (buddy_of_aligned o p Ho' Hp Pal) as [[A E]|[A E]]; rewrite E.
    - clear - A Hp Ho' Ho. by_order o Ho'; dlia.
    - clear - A Hp Ho' Ho. by_order o Ho'; dlia. }
  destruct (wf_cover st W _ Hb) as (a & Ha & Hoa & Hcov).
  assert (0 <= a < N_PAGES) as Ha' by lia.
  destruct (wf_head st W a Ha') as [H|[Hra Aal]]; [contradiction|].
  destruct (Z.lt_trichotomy (ord st a) o) as [Hlt|[Heq|Hgt]].
  - apply (IH (Z.to_nat (ord st a - MIN_ORDER))) with (o := ord st a) (p := a);
      auto; lia.
  - rewrite Heq in *.
    assert (buddy_of p o mod psize o = 0) as Bal.
    { destruct (buddy_of_aligned o p Ho' Hp Pal) as [[A E]|[A E]]; rewrite E.
      - clear - Pal Ho' Hp. by_order o Ho'; dlia.
      - clear - Pal Ho' Hp. by_order o Ho'; dlia. }
    assert (a = buddy_of p o) as ->.
    { clear - Aal Bal Ha Hcov Ho' Hb Ha'. by_order o Ho'; dlia. }
    apply (B o p Ho' Pin). rewrite <- Heq at 2. apply head_is_free; auto. lia.
  - assert (a <= p < a + psize (ord st a)) as Hin.
    { apply (cover_buddy o (ord st a) p a); auto; lia. }
    assert (a <> p) by (intros ->; lia).
    assert (ord st p = -1); [|lia].
    apply (wf_interior st W a p Ha' Hoa). lia.
Qed.

Lemma all_free_ord p :
  0 <= p < N_PAGES -> ord st p = if p =? 0 then MAX_ORDER else -1.
Proof.
  intros Hp.
  assert (forall q, 0 <= q < N_PAGES -> ord st q <> -1 -> ord st q = MAX_ORDER /\ q = 0) as H.
  { intros q Hq Hoq. destruct (wf_head st W q Hq) as [H|[Hr Hal]]; [contradiction|].
    destruct (Z.eq_dec (ord st q) MAX_ORDER) as [E|E].
    - split; auto. rewrite E in Hal. change (psize MAX_ORDER) with 256 in Hal. dlia.
    - exfalso.
      apply (no_small_head (Z.to_nat (ord st q - MIN_ORDER)) (ord st q) q); auto; lia. }
  destruct (p =? 0) eqn:E.
  - apply Z.eqb_eq in E. subst p.
    destruct (wf_cover st W 0 Hp) as (a & Ha & Hoa & _).
    assert (a = 0) as -> by lia. now apply H.
  - apply Z.eqb_neq in E. destruct (Z.eq_dec (ord st p) (-1)) as [|Hne]; auto.
    destruct (H p Hp Hne). contradiction.
Qed.

Lemma all_free_fl o :
  MIN_ORDER <= o <= MAX_ORDER -> fl st o = if o =? MAX_ORDER then [0] else [].
Proof.
  intros Ho.
  assert (forall x, In x (fl st o) -> x = 0 /\ o = MAX_ORDER) as H.
  { intros x Hx. destruct (wf_list st W o x Ho Hx) as [Hx1 Hx2].
    rewrite all_free_ord in Hx2 by auto.
    destruct (x =? 0) eqn:E; [|lia]. apply Z.eqb_eq in E. auto. }
  destruct (o =? MAX_ORDER) eqn:E.
  - apply Z.eqb_eq in E. subst o.
    assert (In 0 (fl st MAX_ORDER)) as H0.
    { assert (ord st 0 = MAX_ORDER) as E0 by (now rewrite all_free_ord by lia).
      rewrite <- E0. apply head_is_free; lia. }
    pose proof (wf_nodup st W MAX_ORDER Ho) as ND.
    destruct (fl st MAX_ORDER) as [|x [|y l]]; [contradiction| |].
    + destruct (H x (or_introl eq_refl)) as [-> _]. reflexivity.
    + exfalso. destruct (H x (or_introl eq_refl)) as [-> _].
      destruct (H y (or_intror (or_introl eq_refl))) as [-> _].
      inversion ND as [|? ? Hn _]. apply Hn. now left.
  - apply Z.eqb_neq in E. destruct (fl st o) as [|x l]; auto.
    destruct (H x (or_introl eq_refl)). contradiction.
Qed.

(** With no block allocated, the page table and the free lists are those
    of a freshly initialised allocator. *)
Lemma all_free_fresh : g_memory st = g_memory fresh -> st = fresh.
Proof.
  intros M. pose proof (wf_shape st W) as S. pose proof shape_fresh as S0.
  assert (g_pages st = g_pages fresh) as Ep.
  { apply zget_ext.
    - now rewrite (sh_pages st S), (sh_pages fresh S0).
    - intros i Hi. rewrite (pages_length st S) in Hi.
      rewrite (sh_page st S i Hi), (sh_page fresh S0 i Hi).
      now rewrite all_free_ord, ord_fresh. }
  assert (free_area st = free_area fresh) as Ef.
  { apply zget_ext.
    - now rewrite (sh_heads st S), (sh_heads fresh S0).
    - intros o Ho. rewrite (heads_length st S) in Ho.
      destruct (Z_lt_le_dec o MIN_ORDER) as [Hlo|Hhi].
      + rewrite (sh_low st S o), (sh_low fresh S0 o); auto; lia.
      + rewrite (sh_high st S o), (sh_high fresh S0 o) by lia.
        rewrite all_free_fl, fl_fresh by lia. reflexivity. }
  destruct st as [m ps fa]. simpl in *. subst. reflexivity.
Qed.

End AllFree.

(** ** Runs of calls *)

Lemma allocated_order_bound st q :
  wf st -> allocated st q -> MAX_ORDER - ord st q <= 8.
Proof.
  intros W A. destruct (allocated_facts st q W A) as (_ & H & _). lia.
Qed.

(** Freeing a live block with the recursion budget of [buddy_free]. *)
Lemma buddy_free_live st q :
  Inv st -> allocated st q ->
  exists st',
    buddy_free st (PAGE_TO_ADDR q) = Ret st' /\ Inv st' /\
    (forall x, allocated st' x <-> allocated st x /\ x <> q) /\
    g_memory st' = g_memory st.
Proof.
  intros I A. unfold buddy_free.
  apply (buddy_free_spec 8); auto.
  - rewrite Nat2Z.inj_succ. simpl. apply allocated_order_bound; [apply I|auto].
  - unfold DEPTH. lia.
Qed.

Lemma live_ok_alloc st st' live p :
  live_ok st live -> (forall q, allocated st' q <-> allocated st q \/ q = p) ->
  live_ok st' (PAGE_TO_ADDR p :: live).
Proof.
  intros L A a. simpl. rewrite (L a). split.
  - intros [<-|(q & -> & Hq)].
    + exists p. split; auto. apply A. now right.
    + exists q. split; auto. apply A. now left.
  - intros (q & -> & Hq). apply A in Hq. destruct Hq as [Hq| ->]; eauto.
Qed.

Lemma live_ok_free st st' live q :
  live_ok st live -> (forall x, allocated st' x <-> allocated st x /\ x <> q) ->
  live_ok st' (remove ptr_eq_dec (PAGE_TO_ADDR q) live).
Proof.
  intros L A a. split.
  - intros H. apply in_remove in H. destruct H as [H Hne].
    apply L in H. destruct H as (x & -> & Hx). exists x. split; auto.
    apply A. split; auto. intros ->. now apply Hne.
  - intros (x & -> & Hx). apply A in Hx. destruct Hx as [Hx Hne].
    apply in_in_remove.
    + intros E. apply PAGE_TO_ADDR_inj in E. contradiction.
    + apply L. eauto.
Qed.

(** Every call of a completed run keeps the invariant, the list of live
    addresses, and the arena. *)
Lemma run_Inv tr : forall st live st' live',
  Inv st -> live_ok st live -> run tr st live = Done st' live' ->
  Inv st' /\ live_ok st' live' /\ g_memory st' = g_memory st.
Proof.
  induction tr as [|[size|a] tr IH]; intros st live st' live' I L H; simpl in H.
  - inversion H. subst. auto.
  - destruct (buddy_alloc st size) as [[st1 a]| |] eqn:E; try discriminate.
    destruct (buddy_alloc_Inv st size st1 a I E)
      as [(-> & -> & _)|(p & t & -> & _ & _ & _ & I1 & _ & _ & _ & _ & A1 & M1)].
    + now apply (IH st live).
    + simpl in H.
      assert (live_ok st1 (PAGE_TO_ADDR p :: live)) as L1
        by (now apply live_ok_alloc with st).
      destruct (IH st1 _ st' live' I1 L1 H) as (H1 & H2 & H3).
      split; [auto|split; [auto|congruence]].
  - destruct (in_dec ptr_eq_dec a live) as [Hin|]; [|discriminate].
    apply L in Hin. destruct Hin as (q & -> & Hq).
    destruct (buddy_free_live st q I Hq) as (st1 & E & I1 & A1 & M1).
    rewrite E in H.
    assert (live_ok st1 (remove ptr_eq_dec (PAGE_TO_ADDR q) live)) as L1
      by (now apply live_ok_free with st).
    destruct (IH st1 _ st' live' I1 L1 H) as (H1 & H2 & H3).
    split; [auto|split; [auto|congruence]].
Qed.

(** A request within the contract that does not meet an exhausted arena
    returns. *)
Lemma buddy_alloc_returns st size :
  Inv st -> 0 < size <= 2 ^ 30 ->
  (forall t, getOrder size = Ret t -> 0 <= t -> ~ exhausted st t) ->
  exists st' a, buddy_alloc st size = Ret (st', a).
Proof.
  intros [W B] Hs Hex.
  destruct (Z_le_gt_dec size (2 ^ MAX_ORDER)) as [Hle|Hgt].
  - destruct (getOrder_fits size) as (t & Ht & Hr & _); [lia|].
    destruct (first_nonempty st (Z.to_nat (MAX_ORDER + 1 - t)) t)
      as [Hx|(c & p & l & Hc & Hemp & Hl)]; [lia| |].
    { exfalso. apply (Hex t Ht); auto. lia. }
    assert (In p (fl st c)) as Hin by (rewrite Hl; now left).
    destruct (splitBlock_spec (Z.to_nat (c - t)) DEPTH st c c t p)
      as (st1 & E1 & _); auto; try lia.
    { unfold DEPTH. lia. }
    exists st1, (PAGE_TO_ADDR p).
    rewrite (buddy_alloc_found st size t c p l); auto; lia.
  - exists st, NULL. apply buddy_alloc_large. lia.
Qed.

(** An admissible run completes. *)
Lemma run_total tr : forall st live,
  Inv st -> live_ok st live -> admissible tr st live ->
  exists st' live', run tr st live = Done st' live'.
Proof.
  induction tr as [|[size|a] tr IH]; intros st live I L H; simpl in H |- *.
  - eauto.
  - destruct H as (Hs & Hex & Hk).
    destruct (buddy_alloc_returns st size I Hs Hex) as (st1 & a & E).
    rewrite E. specialize (Hk st1 a E).
    destruct (buddy_alloc_Inv st size st1 a I E)
      as [(-> & -> & _)|(p & t & -> & _ & _ & _ & I1 & _ & _ & _ & _ & A1 & M1)].
    + now apply IH.
    + simpl in Hk |- *. apply IH; auto. now apply live_ok_alloc with st.
  - destruct H as (Hin & Hk).
    destruct (in_dec ptr_eq_dec a live) as [_|]; [|contradiction].
    apply L in Hin. destruct Hin as (q & -> & Hq).
    destruct (buddy_free_live st q I Hq) as (st1 & E & I1 & A1 & M1).
    rewrite E. apply IH; auto. now apply live_ok_free with st.
Qed.

(** ** The arena *)

Section Frame.

Variable m : Z -> byte.

Lemma get_page_frame st i : get_page (set_memory st m) i = get_page st i.
Proof. reflexivity. Qed.

Lemma list_empty_frame st o : list_empty (set_memory st m) o = list_empty st o.
Proof. reflexivity. Qed.

Lemma entries_of_frame st o : entries_of (set_memory st m) o = entries_of st o.
Proof. reflexivity. Qed.

Lemma first_entry_frame st o : first_entry (set_memory st m) o = first_entry st o.
Proof. reflexivity. Qed.

Lemma set_order_frame st i o :
  set_order (set_memory st m) i o = frame_state m (set_order st i o).
Proof.
  unfold set_order. rewrite get_page_frame. destruct (get_page st i); reflexivity.
Qed.

Lemma list_add_frame st p o :
  list_add (set_memory st m) p o = frame_state m (list_add st p o).
Proof.
  unfold list_add, linked. cbn [free_area set_memory].
  destruct (zget (free_area st) o) as [[|l]|]; try reflexivity.
  destruct (existsb (in_chain p) (free_area st)); reflexivity.
Qed.

Lemma list_del_frame st p :
  list_del (set_memory st m) p = frame_state m (list_del st p).
Proof.
  unfold list_del, linked. cbn [free_area set_memory].
  destruct (existsb (in_chain p) (free_area st)); reflexivity.
Qed.

Lemma find_buddy_frame st b l :
  find_buddy (set_memory st m) b l = find_buddy st b l.
Proof.
  induction l as [|t l IH]; [reflexivity|].
  simpl. rewrite get_page_frame. destruct (get_page st t) as [pg| |]; try reflexivity.
  cbn [bind]. now rewrite IH.
Qed.

(** Reduces both sides of a frame equation after a case split. *)
Ltac fr := cbn [bind frame_state frame_result]; try reflexivity.

Lemma splitBlock_frame fuel : forall st head c t p,
  splitBlock fuel (set_memory st m) head c t p =
  frame_result m (splitBlock fuel st head c t p).
Proof.
  induction fuel as [|fuel IH]; intros st head c t p;
    rewrite (splitBlock_eq _ (set_memory st m)), (splitBlock_eq _ st);
    destruct (c =? t).
  all: try (rewrite list_del_frame; destruct (list_del st p) as [st1| |]; fr;
            rewrite get_page_frame; destruct (get_page st1 p) as [pg| |]; fr).
  all: rewrite get_page_frame; destruct (get_page st p) as [lp| |]; fr.
  all: rewrite set_order_frame; destruct (set_order st p (c - 1)) as [st1| |]; fr.
  all: destruct (BUDDY_ADDR (addr lp) (c - 1)) as [bd| |]; fr.
  all: destruct (ADDR_TO_PAGE bd) as [pn| |]; fr.
  all: rewrite set_order_frame; destruct (set_order st1 (to_int pn) (c - 1)) as [st2| |]; fr.
  all: rewrite list_del_frame; destruct (list_del st2 p) as [st3| |]; fr.
  all: rewrite list_add_frame; destruct (list_add st3 (to_int pn) (c - 1)) as [st4| |]; fr.
  all: rewrite list_add_frame; destruct (list_add st4 p (c - 1)) as [st5| |]; fr.
  apply IH.
Qed.

Lemma scan_free_frame fuel : forall st o,
  scan_free fuel (set_memory st m) o = scan_free fuel st o.
Proof.
  induction fuel as [|fuel IH]; intros st o;
    rewrite (scan_free_eq _ (set_memory st m)), (scan_free_eq _ st);
    destruct (o <=? MAX_ORDER); try reflexivity;
    rewrite list_empty_frame; destruct (list_empty st o) as [e| |]; try reflexivity;
    cbn [bind]; destruct (negb e); try reflexivity.
  apply IH.
Qed.

Lemma buddy_alloc_frame st size :
  buddy_alloc (set_memory st m) size = frame_result m (buddy_alloc st size).
Proof.
  unfold buddy_alloc.
  destruct (getOrder size) as [t| |]; fr.
  destruct (t <? 0); fr.
  rewrite scan_free_frame. destruct (scan_free DEPTH st t) as [c| |]; fr.
  destruct (c <? 0); fr.
  rewrite first_entry_frame. destruct (first_entry st c) as [p| |]; fr.
  rewrite get_page_frame. destruct (get_page st p) as [pg| |]; fr.
  destruct (ADDR_TO_PAGE (addr pg)) as [pn| |]; fr.
  apply splitBlock_frame.
Qed.

Lemma buddy_free_rec_arena fuel st off :
  buddy_free_rec fuel st (Arena off) =
  (pageno <- ADDR_TO_PAGE (Arena off) ;;
   pageToFree <- get_page st pageno ;;
   e <- list_empty st (order pageToFree) ;;
   if e then list_add st pageno (order pageToFree)
   else
     buddyAddr <- BUDDY_ADDR (addr pageToFree) (order pageToFree) ;;
     l <- entries_of st (order pageToFree) ;;
     found <- find_buddy st buddyAddr l ;;
     match found with
     | Some t =>
         tempPage <- get_page st t ;;
         let '(leftBlock, rightBlock) :=
           if index tempPage <? index pageToFree then (t, pageno) else (pageno, t) in
         st1 <- set_order st rightBlock (-1) ;;
         leftPage <- get_page st1 leftBlock ;;
         st2 <- set_order st1 leftBlock (order leftPage + 1) ;;
         st3 <- list_del st2 t ;;
         leftPage' <- get_page st3 leftBlock ;;
         if order leftPage' <=? MAX_ORDER then
           match fuel with
           | O => OutOfFuel
           | S fuel' => buddy_free_rec fuel' st3 (addr leftPage')
           end
         else Ret st3
     | None => list_add st pageno (order pageToFree)
     end).
Proof. destruct fuel; reflexivity. Qed.

Lemma buddy_free_rec_frame fuel : forall st a,
  buddy_free_rec fuel (set_memory st m) a = frame_state m (buddy_free_rec fuel st a).
Proof.
  induction fuel as [|fuel IH]; intros st [|off]; try reflexivity;
    rewrite (buddy_free_rec_arena _ (set_memory st m)), (buddy_free_rec_arena _ st).
  all: destruct (ADDR_TO_PAGE (Arena off)) as [pn| |]; fr.
  all: rewrite get_page_frame; destruct (get_page st pn) as [pg| |]; fr.
  all: rewrite list_empty_frame; destruct (list_empty st (order pg)) as [[|]| |]; fr.
  all: try apply list_add_frame.
  all: destruct (BUDDY_ADDR (addr pg) (order pg)) as [bd| |]; fr.
  all: rewrite entries_of_frame; destruct (entries_of st (order pg)) as [l| |]; fr.
  all: rewrite find_buddy_frame; destruct (find_buddy st bd l) as [[t|]| |]; fr.
  all: try apply list_add_frame.
  all: rewrite get_page_frame; destruct (get_page st t) as [tp| |]; fr.
  all: destruct (if index tp <? index pg then (t, pn) else (pn, t)) as [lb rb].
  all: rewrite set_order_frame; destruct (set_order st rb (-1)) as [st1| |]; fr.
  all: rewrite get_page_frame; destruct (get_page st1 lb) as [lp| |]; fr.
  all: rewrite set_order_frame; destruct (set_order st1 lb (order lp + 1)) as [st2| |]; fr.
  all: rewrite list_del_frame; destruct (list_del st2 t) as [st3| |]; fr.
  all: rewrite get_page_frame; destruct (get_page st3 lb) as [lp'| |]; fr.
  all: destruct (order lp' <=? MAX_ORDER); fr.
  apply IH.
Qed.

End Frame.

Lemma set_memory_same st : set_memory st (g_memory st) = st.
Proof. now destruct st. Qed.

(** ** The allocator on small inputs *)

Example getOrder_values :
  map getOrder [1; 4096; 4097; 5000; 8192; 2 ^ 20; 2 ^ 20 + 1; 2 ^ 30] =
  [Ret 12; Ret 12; Ret 13; Ret 13; Ret 13; Ret 20; Ret (-1); Ret (-1)].
Proof. reflexivity. Qed.

(** After [buddy_init] the whole arena is one free block. *)
Example fresh_lists :
  map (fl fresh) [12; 13; 14; 15; 16; 17; 18; 19; 20] =
  [[]; []; []; []; []; []; []; []; [0]] /\
  map (ord fresh) [0; 1; 2; 128; 255] = [20; -1; -1; -1; -1].
Proof. split; reflexivity. Qed.

(** A request of 5000 bytes takes a block of order 13 at the arena base and
    leaves the right half of every halving free. *)
Example alloc_5000 :
  value_of (buddy_alloc fresh 5000) = Arena 0 /\
  map (fl (state_of (buddy_alloc fresh 5000))) [12; 13; 14; 15; 16; 17; 18; 19; 20] =
  [[]; [2]; [4]; [8]; [16]; [32]; [64]; [128]; []] /\
  map (ord (state_of (buddy_alloc fresh 5000))) [0; 1; 2; 4; 128] = [13; -1; 13; 14; 19].
Proof. repeat split; vm_compute; reflexivity. Qed.

(** Two pages allocated, then freed in the opposite order: the arena is one
    free block again. *)
Example two_pages_round_trip :
  run [Alloc 4096; Alloc 4096; Free (Arena 4096); Free (Arena 0)] fresh [] =
  Done fresh [].
Proof. vm_compute. reflexivity. Qed.

(** ** Addresses and orders outside the range in use *)

Lemma fl_outside st o :
  shape st -> ~ (MIN_ORDER <= o <= MAX_ORDER) -> fl st o = [].
Proof.
  intros S H. unfold fl.
  destruct (Z_lt_le_dec o 0) as [Hn|Hn].
  - rewrite zget_None_out; auto. lia.
  - destruct (Z_lt_le_dec o MIN_ORDER) as [Hl|Hl].
    + now rewrite (sh_low st S o) by lia.
    + rewrite zget_None_out; auto. rewrite (heads_length st S). lia.
Qed.

Lemma page_offset_aligned p o :
  MIN_ORDER <= o -> p mod psize o = 0 -> (p * PAGE_SIZE) mod 2 ^ o = 0.
Proof.
  intros Ho H.
  assert (0 < psize o) as Pos by (apply psize_pos; lia).
  apply Z.mod_divide in H; [|lia]. destruct H as (k & ->).
  assert (2 ^ o = psize o * PAGE_SIZE) as E.
  { unfold psize, PAGE_SIZE. rewrite <- Z.pow_add_r by lia. f_equal. lia. }
  rewrite E. rewrite <- Z.mul_assoc. apply Z.mod_mul.
  assert (0 < PAGE_SIZE) by lia. lia.
Qed.

(** * The claims *)

(** C1. In a state that satisfies the allocator invariant, a call
    [buddy_alloc st size] with [0 < size <= 2^MAX_ORDER] that returns an
    address returns the base address of an allocated block whose order is the
    smallest order [o >= MIN_ORDER] with [2^o >= size], and the offset of the
    address from the arena base is a multiple of [2^o]. *)
Theorem buddy_alloc_block st size st' off :
  Inv st -> 0 < size <= 2 ^ MAX_ORDER ->
  buddy_alloc st size = Ret (st', Arena off) ->
  exists o p,
    MIN_ORDER <= o <= MAX_ORDER /\ size <= 2 ^ o /\
    (forall o', MIN_ORDER <= o' -> size <= 2 ^ o' -> o <= o') /\
    Arena off = PAGE_TO_ADDR p /\ allocated st' p /\ ord st' p = o /\
    off mod 2 ^ o = 0.
Proof.
  intros I Hs E.
  destruct (buddy_alloc_Inv st size st' (Arena off) I E)
    as [(H & _)|(p & t & Ha & Ht & _ & Hr & I' & Hp & Ho & Hal & _ & A & _)];
    [discriminate|].
  destruct (getOrder_fits size Hs) as (t' & Ht' & _ & Hsz & Hmin).
  assert (t' = t) as -> by congruence.
  exists t, p. repeat split; auto; try lia.
  - apply A. now right.
  - unfold PAGE_TO_ADDR in Ha. inversion Ha. apply page_offset_aligned; auto. lia.
Qed.

Lemma buddy_alloc_block_witness :
  exists o p,
    MIN_ORDER <= o <= MAX_ORDER /\ 5000 <= 2 ^ o /\
    (forall o', MIN_ORDER <= o' -> 5000 <= 2 ^ o' -> o <= o') /\
    Arena 0 = PAGE_TO_ADDR p /\
    allocated (state_of (buddy_alloc fresh 5000)) p /\
    ord (state_of (buddy_alloc fresh 5000)) p = o /\
    0 mod 2 ^ o = 0.
Proof.
  apply (buddy_alloc_block fresh 5000 (state_of (buddy_alloc fresh 5000)) 0 Inv_fresh).
  - vm_compute. split; [reflexivity|discriminate].
  - vm_compute. reflexivity.
Defined.

(** C2. After [buddy_init], the request for the whole arena succeeds with
    the arena base; the request for one byte that follows does not return a
    failure signal: the scan for a free list wraps from order [MAX_ORDER]
    to order [0], whose head was never initialised, and the entry read
    through its null [next] faults. *)
Theorem buddy_alloc_exhausted_faults :
  buddy_alloc fresh (2 ^ MAX_ORDER) =
    Ret (state_of (buddy_alloc fresh (2 ^ MAX_ORDER)), Arena 0) /\
  scan_free DEPTH (state_of (buddy_alloc fresh (2 ^ MAX_ORDER))) MIN_ORDER = Ret 0 /\
  buddy_alloc (state_of (buddy_alloc fresh (2 ^ MAX_ORDER))) 1 = Fault.
Proof. repeat split; vm_compute; reflexivity. Qed.

Lemma buddy_address p o :
  MIN_ORDER <= o <= MAX_ORDER -> 0 <= p < N_PAGES ->
  PAGE_TO_ADDR (buddy_of p o) = Arena (Z.lxor (p * PAGE_SIZE) (2 ^ o)).
Proof.
  intros Ho Hp. pose proof (BUDDY_ADDR_page o p Ho Hp) as H.
  unfold BUDDY_ADDR, PAGE_TO_ADDR in H. rewrite shl_int_one in H by lia.
  cbn [bind] in H. unfold to_ulong in H. rewrite Z.mod_small in H by lia.
  inversion H as [H1]. unfold PAGE_TO_ADDR. now rewrite H1.
Qed.

(** The state in which one page has been allocated from the fresh arena:
    the block at page 0 is allocated and its buddy, page 1, is free. *)
Lemma one_page_allocated :
  Inv (state_of (buddy_alloc fresh 4096)) /\
  allocated (state_of (buddy_alloc fresh 4096)) 0.
Proof.
  assert (buddy_alloc fresh 4096 =
          Ret (state_of (buddy_alloc fresh 4096), PAGE_TO_ADDR 0)) as E
    by (vm_compute; reflexivity).
  destruct (buddy_alloc_Inv fresh 4096 _ _ Inv_fresh E)
    as [(H & _)|(p & t & Ha & _ & _ & _ & I' & _ & _ & _ & _ & A & _)];
    [discriminate|].
  apply PAGE_TO_ADDR_inj in Ha. subst p. split; auto. apply A. now right.
Qed.

(** C3. Freeing an allocated block [p] of order [o]. The buddy is the block
    whose address differs from that of [p] in bit [o] of the offset from the
    arena base. What the call does is decided by whether the buddy is an
    entry of the free list of order [o]: if it is not, [p] becomes the first
    entry of that list and the call returns; if it is, the buddy leaves the
    list, the lower page of the two gets order [o + 1], the other gets order
    [-1], and the merged block is freed in turn at its new order, which is at
    most [MAX_ORDER]. The call returns in either case, and of the allocated
    blocks exactly [p] is no longer allocated. *)
Theorem buddy_free_coalesces st p :
  Inv st -> allocated st p ->
  PAGE_TO_ADDR (buddy_of p (ord st p)) =
    Arena (Z.lxor (p * PAGE_SIZE) (2 ^ ord st p)) /\
  (~ In (buddy_of p (ord st p)) (fl st (ord st p)) ->
   forall fuel,
     buddy_free_rec fuel st (PAGE_TO_ADDR p) =
     Ret (with_list st (ord st p) (p :: fl st (ord st p)))) /\
  (In (buddy_of p (ord st p)) (fl st (ord st p)) ->
   ord st p + 1 <= MAX_ORDER /\
   (forall o', fl (merge_step st p (buddy_of p (ord st p)) (ord st p)) o' =
               drop (buddy_of p (ord st p)) (fl st o')) /\
   ord (merge_step st p (buddy_of p (ord st p)) (ord st p))
       (Z.min p (buddy_of p (ord st p))) = ord st p + 1 /\
   ord (merge_step st p (buddy_of p (ord st p)) (ord st p))
       (Z.max p (buddy_of p (ord st p))) = -1 /\
   forall fuel,
     buddy_free_rec (S fuel) st (PAGE_TO_ADDR p) =
     buddy_free_rec fuel (merge_step st p (buddy_of p (ord st p)) (ord st p))
       (PAGE_TO_ADDR (Z.min p (buddy_of p (ord st p))))) /\
  (exists st',
     buddy_free st (PAGE_TO_ADDR p) = Ret st' /\ Inv st' /\
     forall q, allocated st' q <-> allocated st q /\ q <> p).
Proof.
  intros I A. pose proof I as [W B].
  destruct (allocated_facts st p W A) as (Hp & Ho & Hal & Hnl).
  split; [now apply buddy_address|]. split; [|split].
  - intros Hn fuel. now apply buddy_free_insert.
  - intros Hin.
    destruct (wf_list st W _ _ Ho Hin) as [Hb Hob].
    assert (p <> buddy_of p (ord st p)) as Hne.
    { intros E. rewrite <- E in Hin. apply (Hnl _ Ho Hin). }
    pose proof (wf_shape st W) as S.
    split; [destruct (buddy_free_merge 0 st p W A Hin); lia|].
    split; [intros o'; apply fl_merge_step|].
    split; [rewrite ord_merge_step by auto; now rewrite Z.eqb_refl|].
    split.
    + rewrite ord_merge_step by auto.
      assert ((Z.max p (buddy_of p (ord st p)) =? Z.min p (buddy_of p (ord st p))) = false)
        as E by (apply Z.eqb_neq; lia).
      now rewrite E, Z.eqb_refl.
    + intros fuel. now destruct (buddy_free_merge fuel st p W A Hin).
  - destruct (buddy_free_live st p I A) as (st' & E & I' & A' & _). eauto.
Qed.

Lemma buddy_free_coalesces_witness :
  ord (state_of (buddy_alloc fresh 4096)) 0 = MIN_ORDER /\
  In 1 (fl (state_of (buddy_alloc fresh 4096)) MIN_ORDER) /\
  exists st',
    buddy_free (state_of (buddy_alloc fresh 4096)) (PAGE_TO_ADDR 0) = Ret st' /\
    Inv st' /\
    forall q, allocated st' q <->
              allocated (state_of (buddy_alloc fresh 4096)) q /\ q <> 0.
Proof.
  split; [vm_compute; reflexivity|]. split; [vm_compute; auto|].
  exact (proj2 (proj2 (proj2
    (buddy_free_coalesces (state_of (buddy_alloc fresh 4096)) 0
       (proj1 one_page_allocated) (proj2 one_page_allocated))))).
Defined.

(** The round trip: a run from the fresh state that completes with every
    allocated block freed ends in the fresh state. *)
Lemma round_trip tr st :
  run tr fresh [] = Done st [] -> st = fresh.
Proof.
  intros H.
  destruct (run_Inv tr fresh [] st [] Inv_fresh live_ok_fresh H) as ([W B] & L & M).
  apply all_free_fresh; auto.
  intros q A. apply (L (PAGE_TO_ADDR q)). eauto.
Qed.

(** An admissible run from the fresh state completes, and it ends in the
    fresh state when it leaves no block allocated. *)
Lemma round_trip_total tr :
  admissible tr fresh [] ->
  exists st live, run tr fresh [] = Done st live /\ (live = [] -> st = fresh).
Proof.
  intros H.
  destruct (run_total tr fresh [] Inv_fresh live_ok_fresh H) as (st & live & E).
  exists st, live. split; auto. intros ->. now apply round_trip with tr.
Qed.

(** C4. The run [buddy_init(); a = buddy_alloc(1 << MAX_ORDER);
    buddy_alloc(1); buddy_free(a)] frees every block it was given, but it
    does not reach a final state: the second request meets an exhausted arena
    and does not return. *)
Theorem round_trip_exhausted_crashes :
  value_of (buddy_alloc fresh (2 ^ MAX_ORDER)) = Arena 0 /\
  buddy_alloc (state_of (buddy_alloc fresh (2 ^ MAX_ORDER))) 1 = Fault /\
  run [Alloc (2 ^ MAX_ORDER); Alloc 1; Free (Arena 0)] fresh [] = Crashed.
Proof. repeat split; vm_compute; reflexivity. Qed.

(** C5. A request of [2^30 + 1] bytes is a positive [int] above the arena
    size, yet [getOrder] does not return [-1]: no [1 << order] with
    [order <= 30] reaches the size, and [1 << 31] is outside [int]. *)
Theorem getOrder_overflows :
  2 ^ MAX_ORDER < 2 ^ 30 + 1 <= INT_MAX /\
  shl_int 1 31 = Fault /\
  getOrder (2 ^ 30 + 1) = Fault.
Proof. repeat split; vm_compute; congruence. Qed.

(** C6. [splitBlock] on a free block head [p] of order [c] with target
    [t <= c]: the call returns the address of [p]; [p] has left the free list
    of order [c]; for every order [o] from [c - 1] down to [t] the right half
    [p + 2^(o - MIN_ORDER)], whose address is [2^o] bytes above that of [p],
    heads a block of order [o] and is the new first entry of the free list of
    order [o]; the other free lists are unchanged; [p] heads a block of order
    [t] and is an entry of no free list. *)
Theorem splitBlock_halves fuel st head c t p :
  wf st -> MIN_ORDER <= t <= c -> c <= MAX_ORDER -> In p (fl st c) ->
  (Z.to_nat (c - t) <= fuel)%nat ->
  exists st',
    splitBlock fuel st head c t p = Ret (st', PAGE_TO_ADDR p) /\
    fl st' c = drop p (fl st c) /\
    (forall o, t <= o < c ->
       fl st' o = (p + psize o) :: fl st o /\
       ord st' (p + psize o) = o /\
       PAGE_TO_ADDR (p + psize o) = Arena (p * PAGE_SIZE + 2 ^ o)) /\
    (forall o, o < t \/ c < o -> fl st' o = fl st o) /\
    ord st' p = t /\
    (forall o, ~ In p (fl st' o)) /\
    wf st'.
Proof.
  intros W Htc Hc Hin Hf. pose proof (wf_shape st W) as S.
  destruct (splitBlock_spec (Z.to_nat (c - t)) fuel st head c t p)
    as (st' & E & W' & F & Op & Or & Oq & M); auto; try lia.
  assert (MIN_ORDER <= c <= MAX_ORDER) as Hc' by lia.
  destruct (free_head_facts st c p W Hc' Hin) as (Hp & Ho & Hal & Hend).
  assert (forall o, o <> c -> ~ In p (fl st o)) as Hnp.
  { intros o Hne H.
    destruct (Z_le_gt_dec MIN_ORDER o) as [H1|H1];
      [destruct (Z_le_gt_dec o MAX_ORDER) as [H2|H2]|].
    - destruct (wf_list st W o p (conj H1 H2) H) as [_ Ho']. congruence.
    - rewrite fl_outside in H by (auto; lia). contradiction.
    - rewrite fl_outside in H by (auto; lia). contradiction. }
  assert (forall o, ((t <=? o) && (o <? c) = true) <-> t <= o < c) as Rng.
  { intros o. rewrite andb_true_iff, Z.leb_le, Z.ltb_lt. tauto. }
  exists st'. split; [exact E|]. split; [|split; [|split; [|split; [|split]]]]; auto.
  - rewrite F.
    assert ((t <=? c) && (c <? c) = false) as E1.
    { apply andb_false_iff. right. apply Z.ltb_ge. lia. }
    now rewrite E1.
  - intros o Hoc. split; [|split].
    + rewrite F. rewrite (proj2 (Rng o) Hoc). rewrite drop_notin; auto.
      apply Hnp. lia.
    + now apply Or.
    + unfold PAGE_TO_ADDR. f_equal.
      assert (psize o * PAGE_SIZE = 2 ^ o) as E1.
      { unfold psize, PAGE_SIZE. rewrite <- Z.pow_add_r by lia. f_equal. lia. }
      lia.
  - intros o Hoc. rewrite F.
    assert ((t <=? o) && (o <? c) = false) as E1.
    { destruct ((t <=? o) && (o <? c)) eqn:E1; auto. apply Rng in E1. lia. }
    rewrite E1. apply drop_notin, Hnp. lia.
  - intros o. rewrite F. destruct ((t <=? o) && (o <? c)) eqn:E1.
    + apply Rng in E1. assert (0 < psize o) by (apply psize_pos; lia).
      intros [H1|H1]; [lia|]. apply In_drop in H1. tauto.
    + intros H1. apply In_drop in H1. tauto.
Qed.

Lemma splitBlock_halves_witness :
  exists st',
    splitBlock 8 fresh MAX_ORDER MAX_ORDER MIN_ORDER 0 = Ret (st', PAGE_TO_ADDR 0) /\
    fl st' MAX_ORDER = drop 0 (fl fresh MAX_ORDER) /\
    (forall o, MIN_ORDER <= o < MAX_ORDER ->
       fl st' o = (0 + psize o) :: fl fresh o /\
       ord st' (0 + psize o) = o /\
       PAGE_TO_ADDR (0 + psize o) = Arena (0 * PAGE_SIZE + 2 ^ o)) /\
    (forall o, o < MIN_ORDER \/ MAX_ORDER < o -> fl st' o = fl fresh o) /\
    ord st' 0 = MIN_ORDER /\
    (forall o, ~ In 0 (fl st' o)) /\
    wf st'.
Proof.
  apply (splitBlock_halves 8 fresh MAX_ORDER MAX_ORDER MIN_ORDER 0 wf_fresh).
  - vm_compute. split; discriminate.
  - vm_compute. discriminate.
  - vm_compute. auto.
  - vm_compute. lia.
Defined.

(** C7. After [buddy_init] and after every call of a run of [buddy_alloc]
    and [buddy_free] calls on live blocks that has returned, no free list
    holds a block together with its buddy. *)
Theorem no_free_buddies_after tr st live :
  run tr fresh [] = Done st live -> no_free_buddies st.
Proof.
  intros H.
  now destruct (run_Inv tr fresh [] st live Inv_fresh live_ok_fresh H) as ([_ B] & _).
Qed.

Lemma no_free_buddies_after_witness :
  final_live (run [Alloc 4096; Alloc 4096; Free (Arena 4096)] fresh []) = [Arena 0] /\
  no_free_buddies (final_state (run [Alloc 4096; Alloc 4096; Free (Arena 4096)] fresh [])).
Proof.
  split; [vm_compute; reflexivity|].
  apply (no_free_buddies_after [Alloc 4096; Alloc 4096; Free (Arena 4096)] _ [Arena 0]).
  vm_compute. reflexivity.
Defined.

(** C8. A request of [0] bytes makes the first test of [getOrder],
    [(1 << MIN_ORDER) / size], a division by zero; the order computation and
    with it [buddy_alloc] have no defined result. *)
Theorem getOrder_zero_divides :
  div_int (2 ^ MIN_ORDER) 0 = Fault /\
  getOrder 0 = Fault /\
  forall st, buddy_alloc st 0 = Fault.
Proof. repeat split. Qed.

(** C9. [splitBlock], [buddy_alloc] and [buddy_free] run on a state whose
    arena holds any bytes [m] exactly as on the same state with its own
    arena, and the state they return holds [m]: the arena is neither read nor
    written. In particular the returned state has the arena of the state the
    call started from. *)
Theorem arena_untouched (m : Z -> byte) (st : state) :
  (forall fuel head c t p,
     splitBlock fuel (set_memory st m) head c t p =
     frame_result m (splitBlock fuel st head c t p)) /\
  (forall size,
     buddy_alloc (set_memory st m) size = frame_result m (buddy_alloc st size)) /\
  (forall fuel a,
     buddy_free_rec fuel (set_memory st m) a =
     frame_state m (buddy_free_rec fuel st a)) /\
  (forall a, buddy_free (set_memory st m) a = frame_state m (buddy_free st a)) /\
  (forall fuel head c t p,
     splitBlock fuel st head c t p =
     frame_result (g_memory st) (splitBlock fuel st head c t p)) /\
  (forall size, buddy_alloc st size = frame_result (g_memory st) (buddy_alloc st size)) /\
  (forall a, buddy_free st a = frame_state (g_memory st) (buddy_free st a)).
Proof.
  split; [|split; [|split; [|split; [|split; [|split]]]]].
  - intros. apply splitBlock_frame.
  - intros. apply buddy_alloc_frame.
  - intros. apply buddy_free_rec_frame.
  - intros. apply buddy_free_rec_frame.
  - intros. rewrite <- splitBlock_frame. now rewrite set_memory_same.
  - intros. rewrite <- buddy_alloc_frame. now rewrite set_memory_same.
  - intros. unfold buddy_free. rewrite <- buddy_free_rec_frame.
    now rewrite set_memory_same.
Qed.

(** C10. [buddy_free] on the null pointer returns and leaves the state as
    it is, in every state. *)
Theorem buddy_free_null st :
  buddy_free st NULL = Ret st /\
  forall fuel, buddy_free_rec fuel st NULL = Ret st.
Proof. split; [reflexivity|]. intros [|fuel]; reflexivity. Qed.

(** * Further properties of the code *)

(** ** getOrder and the address macros *)

(** X1. For a request that fits the arena, [getOrder] returns an order in
    range whose block holds the request, and unless that is the minimum order
    the block of the next smaller order does not hold it: a size that is an
    exact power of two is not rounded up. *)
Theorem getOrder_tight size :
  0 < size <= 2 ^ MAX_ORDER ->
  exists o, getOrder size = Ret o /\ MIN_ORDER <= o <= MAX_ORDER /\
            size <= 2 ^ o /\ (o = MIN_ORDER \/ 2 ^ (o - 1) < size).
Proof.
  intros Hs. destruct (getOrder_fits size Hs) as (o & E & Hr & Hle & Hmin).
  exists o. repeat split; auto; try lia.
  destruct (Z.eq_dec o MIN_ORDER) as [|Hne]; [now left|right].
  destruct (Z_lt_le_dec (2 ^ (o - 1)) size) as [|H]; auto.
  specialize (Hmin (o - 1)). lia.
Qed.

Lemma getOrder_tight_witness :
  exists o, getOrder 8192 = Ret o /\ MIN_ORDER <= o <= MAX_ORDER /\
            8192 <= 2 ^ o /\ (o = MIN_ORDER \/ 2 ^ (o - 1) < 8192).
Proof.
  apply (getOrder_tight 8192). vm_compute. split; [reflexivity|discriminate].
Defined.

(** X2. A request above the arena size and up to [2^30] bytes gets the
    failure value [-1] from [getOrder], and [buddy_alloc] answers it with the
    null pointer and leaves the state as it is, whatever the state. *)
Theorem request_too_large st size :
  2 ^ MAX_ORDER < size <= 2 ^ 30 ->
  getOrder size = Ret (-1) /\ buddy_alloc st size = Ret (st, NULL).
Proof.
  intros Hs. split; [now apply getOrder_large|now apply buddy_alloc_large].
Qed.

Lemma request_too_large_witness :
  getOrder (2 ^ 21) = Ret (-1) /\ buddy_alloc boot (2 ^ 21) = Ret (boot, NULL).
Proof.
  apply (request_too_large boot (2 ^ 21)). vm_compute. split; [reflexivity|discriminate].
Defined.

(** X3. [getOrder] is monotone on the requests that fit the arena: a larger
    request never gets a smaller order. *)
Theorem getOrder_monotone s1 s2 o1 o2 :
  0 < s1 <= s2 -> s2 <= 2 ^ MAX_ORDER ->
  getOrder s1 = Ret o1 -> getOrder s2 = Ret o2 -> o1 <= o2.
Proof.
  intros H1 H2 E1 E2.
  destruct (getOrder_fits s1) as (a & Ea & _ & _ & Hmin); [lia|].
  destruct (getOrder_fits s2) as (b & Eb & Hr & Hle & _); [lia|].
  assert (a = o1) by congruence. assert (b = o2) by congruence. subst.
  apply Hmin; lia.
Qed.

Lemma getOrder_monotone_witness :
  getOrder 4096 = Ret 12 /\ getOrder 4097 = Ret 13 /\ 12 <= 13.
Proof.
  split; [reflexivity|]. split; [reflexivity|].
  apply (getOrder_monotone 4096 4097 12 13); vm_compute; try reflexivity;
    try (split; [reflexivity|discriminate]); discriminate.
Defined.



(** X5. [ADDR_TO_PAGE] maps every address of a page of the arena to the
    index of that page; in particular it undoes [PAGE_TO_ADDR]. *)
Theorem ADDR_TO_PAGE_within p d :
  0 <= p < N_PAGES -> 0 <= d < PAGE_SIZE ->
  ADDR_TO_PAGE (Arena (p * PAGE_SIZE + d)) = Ret p /\
  ADDR_TO_PAGE (PAGE_TO_ADDR p) = Ret p.
Proof.
  intros Hp Hd. split; [|apply ADDR_TO_PAGE_page; lia].
  unfold ADDR_TO_PAGE, to_ulong. f_equal.
  rewrite Z.mod_small by lia.
  rewrite PAGE_SIZE_eq in *. dlia.
Qed.

Lemma ADDR_TO_PAGE_within_witness :
  ADDR_TO_PAGE (Arena (3 * PAGE_SIZE + 100)) = Ret 3 /\
  ADDR_TO_PAGE (PAGE_TO_ADDR 3) = Ret 3.
Proof.
  apply (ADDR_TO_PAGE_within 3 100); vm_compute; split;
    try reflexivity; discriminate.
Defined.

(** X6. For an aligned block below the top order, [BUDDY_ADDR] gives the
    address of an aligned block of the same order inside the arena, [2^o]
    bytes away, in the same aligned block of order [o + 1]; applied to that
    address it gives the first address back. *)
Theorem BUDDY_ADDR_pairs o p :
  MIN_ORDER <= o < MAX_ORDER -> 0 <= p < N_PAGES -> p mod psize o = 0 ->
  exists b,
    BUDDY_ADDR (PAGE_TO_ADDR p) o = Ret (PAGE_TO_ADDR b) /\
    BUDDY_ADDR (PAGE_TO_ADDR b) o = Ret (PAGE_TO_ADDR p) /\
    0 <= b < N_PAGES /\ b mod psize o = 0 /\
    Z.abs (b * PAGE_SIZE - p * PAGE_SIZE) = 2 ^ o /\
    p / psize (o + 1) = b / psize (o + 1).
Proof.
  intros Ho Hp Hal.
  assert (MIN_ORDER <= o <= MAX_ORDER) as Ho' by lia.
  pose proof (psize_pos o (proj1 Ho')) as Pos.
  pose proof (psize_succ o (proj1 Ho')) as Hs.
  assert (psize o * PAGE_SIZE = 2 ^ o) as E2.
  { unfold psize, PAGE_SIZE. rewrite <- Z.pow_add_r by lia. f_equal. lia. }
  assert (psize (o + 1) <= N_PAGES) as Hsz.
  { clear - Ho' Ho. by_order o Ho'; lia. }
  exists (buddy_of p o).
  assert (0 <= buddy_of p o < N_PAGES /\ buddy_of p o mod psize o = 0 /\
          Z.abs (buddy_of p o - p) = psize o /\
          p / psize (o + 1) = buddy_of p o / psize (o + 1)) as (Hb & Bal & Habs & Hpar).
  { destruct (buddy_of_aligned o p Ho' Hp Hal) as [[A E]|[A E]]; rewrite E;
      clear - A Hal Hp Ho' Ho; by_order o Ho'; repeat split; dlia. }
  split; [now apply BUDDY_ADDR_page|].
  split; [rewrite BUDDY_ADDR_page by auto; now rewrite buddy_of_involutive|].
  repeat split; auto; lia.
Qed.

Lemma BUDDY_ADDR_pairs_witness :
  exists b,
    BUDDY_ADDR (PAGE_TO_ADDR 6) 13 = Ret (PAGE_TO_ADDR b) /\
    BUDDY_ADDR (PAGE_TO_ADDR b) 13 = Ret (PAGE_TO_ADDR 6) /\
    0 <= b < N_PAGES /\ b mod psize 13 = 0 /\
    Z.abs (b * PAGE_SIZE - 6 * PAGE_SIZE) = 2 ^ 13 /\
    6 / psize (13 + 1) = b / psize (13 + 1).
Proof.
  apply (BUDDY_ADDR_pairs 13 6); vm_compute; try reflexivity;
    split; try reflexivity; discriminate.
Defined.

(** ** buddy_init *)









(** ** buddy_alloc: which block, and what it leaves *)

(** A returning [buddy_alloc] that hands out a block has taken the first
    entry of the first non-empty list from the order of the request on and
    split it down. *)
Lemma buddy_alloc_split st size st' off :
  Inv st -> buddy_alloc st size = Ret (st', Arena off) ->
  exists p t c l,
    Arena off = PAGE_TO_ADDR p /\ getOrder size = Ret t /\
    MIN_ORDER <= t <= c /\ c <= MAX_ORDER /\
    (forall o', t <= o' < c -> fl st o' = []) /\ fl st c = p :: l /\
    wf st' /\
    (forall o, fl st' o =
       if (t <=? o) && (o <? c) then (p + psize o) :: drop p (fl st o)
       else drop p (fl st o)) /\
    ord st' p = t /\
    (forall o, t <= o < c -> ord st' (p + psize o) = o) /\
    (forall q, q <> p -> (forall o, t <= o < c -> q <> p + psize o) ->
       ord st' q = ord st q) /\
    g_memory st' = g_memory st.
Proof.
  intros [W B] E.
  destruct (Z_le_gt_dec size 0) as [Hs|Hs].
  { exfalso. unfold buddy_alloc in E.
    destruct (Z.eq_dec size 0) as [->|]; [rewrite getOrder_zero in E; discriminate|].
    rewrite getOrder_negative in E by lia. discriminate. }
  destruct (Z_le_gt_dec size (2 ^ MAX_ORDER)) as [Hle|Hgt].
  - destruct (getOrder_fits size) as (t & Ht & Hr & Hsz & Hmin); [lia|].
    destruct (first_nonempty st (Z.to_nat (MAX_ORDER + 1 - t)) t)
      as [Hex|(c & p & l & Hc & Hemp & Hl)]; [lia| |].
    { rewrite (buddy_alloc_exhausted st size t) in E; auto.
      - discriminate.
      - apply (wf_shape _ W). }
    rewrite (buddy_alloc_found st size t c p l) in E; auto; try lia.
    assert (In p (fl st c)) as Hin by (rewrite Hl; now left).
    destruct (splitBlock_spec (Z.to_nat (c - t)) DEPTH st c c t p)
      as (st1 & E1 & W1 & F1 & Op & Or & Oq & M1); auto; try lia.
    { unfold DEPTH. lia. }
    rewrite E1 in E.
    assert (st1 = st' /\ Arena off = PAGE_TO_ADDR p) as [-> Ha]
      by (inversion E; auto).
    exists p, t, c, l.
    split; [exact Ha|]. split; [exact Ht|]. split; [lia|]. split; [lia|].
    split; [exact Hemp|]. split; [exact Hl|]. split; [exact W1|].
    split; [exact F1|]. split; [exact Op|]. split; [exact Or|].
    split; [exact Oq|exact M1].
  - exfalso. destruct (Z_le_gt_dec size (2 ^ 30)) as [Hle|Hhuge].
    + rewrite buddy_alloc_large in E by lia. discriminate.
    + unfold buddy_alloc in E. rewrite getOrder_huge in E by lia. discriminate.
Qed.

Lemma NoDup_head_drop p l : NoDup (p :: l) -> drop p (p :: l) = l.
Proof.
  intros H. inversion H. rewrite drop_cons_eq. now apply drop_notin.
Qed.

(** A block that is free at order [c] is in no list of another order. *)
Lemma free_head_elsewhere st c p o :
  wf st -> MIN_ORDER <= c <= MAX_ORDER -> In p (fl st c) -> o <> c ->
  ~ In p (fl st o).
Proof.
  intros W Hc Hin Hne H.
  destruct (free_head_facts st c p W Hc Hin) as (_ & Ho & _).
  destruct (Z_le_gt_dec MIN_ORDER o) as [H1|H1];
    [destruct (Z_le_gt_dec o MAX_ORDER) as [H2|H2]|].
  - destruct (wf_list st W o p (conj H1 H2) H) as [_ Ho']. congruence.
  - rewrite fl_outside in H by (try apply (wf_shape st W); lia). contradiction.
  - rewrite fl_outside in H by (try apply (wf_shape st W); lia). contradiction.
Qed.

(** X8. The allocation policy. When the free lists of the orders from the
    order [t] of the request up to [c] are empty and the list of order [c]
    has first entry [p], [buddy_alloc] returns the address of [p]: it takes
    the most recently inserted block of the smallest order that has a free
    block. That list loses its first entry, every order skipped on the way
    gets the right half of the halving at that order as its only entry, and
    the other lists are unchanged. *)
Theorem buddy_alloc_first_fit st size t c p l :
  wf st -> getOrder size = Ret t -> MIN_ORDER <= t <= c -> c <= MAX_ORDER ->
  (forall o', t <= o' < c -> fl st o' = []) -> fl st c = p :: l ->
  exists st',
    buddy_alloc st size = Ret (st', PAGE_TO_ADDR p) /\
    fl st' c = l /\
    (forall o, t <= o < c -> fl st' o = [p + psize o]) /\
    (forall o, o < t \/ c < o -> fl st' o = fl st o) /\
    ord st' p = t.
Proof.
  intros W Ht Htc Hc Hemp Hl.
  assert (In p (fl st c)) as Hin by (rewrite Hl; now left).
  assert (MIN_ORDER <= c <= MAX_ORDER) as Hc' by lia.
  destruct (splitBlock_spec (Z.to_nat (c - t)) DEPTH st c c t p)
    as (st' & E & W' & F & Op & Or & Oq & M); auto; try lia.
  { unfold DEPTH. lia. }
  assert (forall o, ((t <=? o) && (o <? c) = true) <-> t <= o < c) as Rng.
  { intros o. rewrite andb_true_iff, Z.leb_le, Z.ltb_lt. tauto. }
  exists st'. split; [|split; [|split; [|split]]]; auto.
  - rewrite (buddy_alloc_found st size t c p l); auto.
  - rewrite F.
    assert ((t <=? c) && (c <? c) = false) as E1.
    { apply andb_false_iff. right. apply Z.ltb_ge. lia. }
    rewrite E1, Hl. apply NoDup_head_drop. rewrite <- Hl. apply (wf_nodup st W c Hc').
  - intros o Ho. rewrite F, (proj2 (Rng o) Ho), (Hemp o Ho). reflexivity.
  - intros o Ho. rewrite F.
    assert ((t <=? o) && (o <? c) = false) as E1.
    { destruct ((t <=? o) && (o <? c)) eqn:E1; auto. apply Rng in E1. lia. }
    rewrite E1. apply drop_notin. apply (free_head_elsewhere st c p o); auto. lia.
Qed.

Lemma buddy_alloc_first_fit_witness :
  exists st',
    buddy_alloc fresh 5000 = Ret (st', PAGE_TO_ADDR 0) /\
    fl st' MAX_ORDER = [] /\
    (forall o, 13 <= o < MAX_ORDER -> fl st' o = [0 + psize o]) /\
    (forall o, o < 13 \/ MAX_ORDER < o -> fl st' o = fl fresh o) /\
    ord st' 0 = 13.
Proof.
  apply (buddy_alloc_first_fit fresh 5000 13 MAX_ORDER 0 [] wf_fresh).
  - reflexivity.
  - vm_compute. split; discriminate.
  - vm_compute. discriminate.
  - intros o' Ho'. rewrite fl_fresh by lia.
    assert ((o' =? MAX_ORDER) = false) as E by (apply Z.eqb_neq; lia). now rewrite E.
  - reflexivity.
Defined.

Lemma buddy_alloc_keeps st size st' off :
  Inv st -> buddy_alloc st size = Ret (st', Arena off) ->
  exists p,
    Arena off = PAGE_TO_ADDR p /\ ~ allocated st p /\ allocated st' p /\
    forall q, allocated st q -> allocated st' q /\ ord st' q = ord st q.
Proof.
  intros I E. pose proof I as [W B].
  destruct (buddy_alloc_split st size st' off I E)
    as (p & t & c & l & Ha & Ht & Htc & Hc & Hemp & Hl & W' & F & Op & Or & Oq & M).
  destruct (buddy_alloc_Inv st size st' (Arena off) I E)
    as [(H & _)|(p' & t' & Ha' & _ & _ & _ & I' & _ & _ & _ & Hnp & A & _)];
    [discriminate|].
  assert (p' = p) as -> by (apply PAGE_TO_ADDR_inj; congruence).
  assert (In p (fl st c)) as Hin by (rewrite Hl; now left).
  assert (MIN_ORDER <= c <= MAX_ORDER) as Hc' by lia.
  destruct (free_head_facts st c p W Hc' Hin) as (Hp & Ho & Hal & Hend).
  exists p. split; [auto|]. split; [auto|]. split; [apply A; now right|].
  intros q Hq. split; [apply A; now left|].
  apply Oq.
  - intros ->. contradiction.
  - intros o Ho' ->. destruct Hq as (_ & Hq & _). apply Hq.
    assert (0 < psize o) by (apply psize_pos; lia).
    assert (psize (o + 1) <= psize c).
    { destruct (Z.eq_dec (o + 1) c) as [->|]; [lia|].
      assert (psize (o + 1) < psize c) by (apply psize_lt; lia). lia. }
    assert (psize (o + 1) = 2 * psize o) by (apply psize_succ; lia).
    apply (wf_interior st W p); auto; rewrite ?Ho; lia.
Qed.

(** X9. A block that [buddy_alloc] hands out was not allocated before the
    call, and the call leaves every block that was allocated as it was:
    allocated, and of the same order. *)
Theorem buddy_alloc_new_block st size st' off :
  Inv st -> buddy_alloc st size = Ret (st', Arena off) ->
  exists p,
    Arena off = PAGE_TO_ADDR p /\ ~ allocated st p /\ allocated st' p /\
    forall q, allocated st q -> allocated st' q /\ ord st' q = ord st q.
Proof. exact (buddy_alloc_keeps st size st' off). Qed.

Lemma buddy_alloc_new_block_witness :
  exists p,
    Arena 4096 = PAGE_TO_ADDR p /\
    ~ allocated (state_of (buddy_alloc fresh 4096)) p /\
    allocated (state_of (buddy_alloc (state_of (buddy_alloc fresh 4096)) 4096)) p /\
    forall q, allocated (state_of (buddy_alloc fresh 4096)) q ->
      allocated (state_of (buddy_alloc (state_of (buddy_alloc fresh 4096)) 4096)) q /\
      ord (state_of (buddy_alloc (state_of (buddy_alloc fresh 4096)) 4096)) q =
      ord (state_of (buddy_alloc fresh 4096)) q.
Proof.
  apply (buddy_alloc_new_block (state_of (buddy_alloc fresh 4096)) 4096 _ 4096
           (proj1 one_page_allocated)).
  vm_compute. reflexivity.
Defined.

(** Two distinct block heads have disjoint page ranges, inside the arena. *)
Lemma heads_disjoint st p q :
  wf st -> 0 <= p < N_PAGES -> 0 <= q < N_PAGES ->
  ord st p <> -1 -> ord st q <> -1 -> p <> q ->
  p + psize (ord st p) <= N_PAGES /\
  (p + psize (ord st p) <= q \/ q + psize (ord st q) <= p).
Proof.
  intros W Hp Hq Op Oq Hne.
  destruct (wf_head st W p Hp) as [H|[Hr Hal]]; [contradiction|].
  split.
  - clear - Hr Hal Hp. by_order (ord st p) Hr; dlia.
  - destruct (Z.lt_trichotomy p q) as [H|[H|H]]; [left|contradiction|right].
    + destruct (Z_le_gt_dec (p + psize (ord st p)) q); auto. exfalso.
      apply Oq. apply (wf_interior st W p q Hp Op). lia.
    + destruct (Z_le_gt_dec (q + psize (ord st q)) p); auto. exfalso.
      apply Op. apply (wf_interior st W q p Hq Oq). lia.
Qed.

Lemma psize_bytes o : MIN_ORDER <= o -> psize o * PAGE_SIZE = 2 ^ o.
Proof.
  intros Ho. unfold psize, PAGE_SIZE. rewrite <- Z.pow_add_r by lia. f_equal. lia.
Qed.

(** X10. After any run of calls from [buddy_init] that has returned, two
    different live addresses are the bases of blocks that lie inside the
    arena and do not overlap. *)
Theorem live_blocks_disjoint tr st live a b :
  run tr fresh [] = Done st live -> In a live -> In b live -> a <> b ->
  exists p q,
    a = PAGE_TO_ADDR p /\ b = PAGE_TO_ADDR q /\
    0 <= p * PAGE_SIZE /\ p * PAGE_SIZE + 2 ^ ord st p <= 2 ^ MAX_ORDER /\
    0 <= q * PAGE_SIZE /\ q * PAGE_SIZE + 2 ^ ord st q <= 2 ^ MAX_ORDER /\
    (p * PAGE_SIZE + 2 ^ ord st p <= q * PAGE_SIZE \/
     q * PAGE_SIZE + 2 ^ ord st q <= p * PAGE_SIZE).
Proof.
  intros H Ha Hb Hne.
  destruct (run_Inv tr fresh [] st live Inv_fresh live_ok_fresh H) as ([W B] & L & _).
  apply L in Ha. apply L in Hb.
  destruct Ha as (p & -> & Ap). destruct Hb as (q & -> & Aq).
  assert (p <> q) as Hpq by (intros ->; now apply Hne).
  destruct (allocated_facts st p W Ap) as (Hp & Hop & _).
  destruct (allocated_facts st q W Aq) as (Hq & Hoq & _).
  destruct (heads_disjoint st p q W Hp Hq) as [Ep D]; auto; try lia.
  destruct (heads_disjoint st q p W Hq Hp) as [Eq _]; auto; try lia.
  pose proof (psize_bytes (ord st p) (proj1 Hop)) as Bp.
  pose proof (psize_bytes (ord st q) (proj1 Hoq)) as Bq.
  exists p, q. rewrite <- Bp, <- Bq.
  change (2 ^ MAX_ORDER) with (N_PAGES * PAGE_SIZE).
  assert (0 < PAGE_SIZE) by lia.
  repeat split; auto; nia.
Qed.

Lemma live_blocks_disjoint_witness :
  run [Alloc 4096; Alloc 5000] fresh [] =
    Done (final_state (run [Alloc 4096; Alloc 5000] fresh [])) [Arena 8192; Arena 0] /\
  exists p q,
    Arena 0 = PAGE_TO_ADDR p /\ Arena 8192 = PAGE_TO_ADDR q /\
    0 <= p * PAGE_SIZE /\
    p * PAGE_SIZE + 2 ^ ord (final_state (run [Alloc 4096; Alloc 5000] fresh [])) p
      <= 2 ^ MAX_ORDER /\
    0 <= q * PAGE_SIZE /\
    q * PAGE_SIZE + 2 ^ ord (final_state (run [Alloc 4096; Alloc 5000] fresh [])) q
      <= 2 ^ MAX_ORDER /\
    (p * PAGE_SIZE + 2 ^ ord (final_state (run [Alloc 4096; Alloc 5000] fresh [])) p
       <= q * PAGE_SIZE \/
     q * PAGE_SIZE + 2 ^ ord (final_state (run [Alloc 4096; Alloc 5000] fresh [])) q
       <= p * PAGE_SIZE).
Proof.
  split; [vm_compute; reflexivity|].
  apply (live_blocks_disjoint [Alloc 4096; Alloc 5000] _ [Arena 8192; Arena 0]).
  - vm_compute. reflexivity.
  - right. now left.
  - now left.
  - discriminate.
Defined.

(** ** Round trips of buddy_alloc and buddy_free *)

(** Two well-shaped states with the same page orders, free lists and arena
    are the same state. *)
Lemma state_ext st1 st2 :
  shape st1 -> shape st2 ->
  (forall p, 0 <= p < N_PAGES -> ord st1 p = ord st2 p) ->
  (forall o, MIN_ORDER <= o <= MAX_ORDER -> fl st1 o = fl st2 o) ->
  g_memory st1 = g_memory st2 -> st1 = st2.
Proof.
  intros S1 S2 Ho Hf M.
  assert (g_pages st1 = g_pages st2) as Ep.
  { apply zget_ext.
    - now rewrite (sh_pages st1 S1), (sh_pages st2 S2).
    - intros i Hi. rewrite (pages_length st1 S1) in Hi.
      rewrite (sh_page st1 S1 i Hi), (sh_page st2 S2 i Hi). now rewrite Ho. }
  assert (free_area st1 = free_area st2) as Ef.
  { apply zget_ext.
    - now rewrite (sh_heads st1 S1), (sh_heads st2 S2).
    - intros o Hr. rewrite (heads_length st1 S1) in Hr.
      destruct (Z_lt_le_dec o MIN_ORDER) as [Hlo|Hhi].
      + rewrite (sh_low st1 S1 o), (sh_low st2 S2 o); auto; lia.
      + rewrite (sh_high st1 S1 o), (sh_high st2 S2 o) by lia.
        rewrite Hf by lia. reflexivity. }
  destruct st1, st2. simpl in *. now subst.
Qed.

(** A page that heads no block is in no free list. *)
Lemma not_head_unlinked st q o : wf st -> ord st q = -1 -> ~ In q (fl st o).
Proof.
  intros W Hq H.
  destruct (Z_le_gt_dec MIN_ORDER o) as [H1|H1];
    [destruct (Z_le_gt_dec o MAX_ORDER) as [H2|H2]|].
  - destruct (wf_list st W o q (conj H1 H2) H) as [_ Ho']. lia.
  - rewrite fl_outside in H by (try apply (wf_shape st W); lia). contradiction.
  - rewrite fl_outside in H by (try apply (wf_shape st W); lia). contradiction.
Qed.

(** Freeing the left-most piece of a block that was split from order [c]
    down to order [k] merges the block back and leaves it first in the list
    it was taken from. *)
Lemma buddy_free_unsplit n : forall fuel st s c k p l,
  Inv st -> MIN_ORDER <= k -> c <= MAX_ORDER -> c = k + Z.of_nat n ->
  (n <= fuel)%nat -> fl st c = p :: l ->
  Inv s ->
  (forall o, fl s o =
     if (k <=? o) && (o <? c) then (p + psize o) :: drop p (fl st o)
     else drop p (fl st o)) ->
  ord s p = k ->
  (forall o, k <= o < c -> ord s (p + psize o) = o) ->
  (forall q, q <> p -> (forall o, k <= o < c -> q <> p + psize o) ->
     ord s q = ord st q) ->
  g_memory s = g_memory st ->
  buddy_free_rec fuel s (PAGE_TO_ADDR p) = Ret st.
Proof.
  induction n as [|n IH];
    intros fuel st s c k p l I Hk Hc Hn Hf Hl Is F Op Or Oq M;
    pose proof I as [W B]; pose proof Is as [Ws Bs];
    assert (In p (fl st c)) as Hin by (rewrite Hl; now left);
    assert (MIN_ORDER <= c <= MAX_ORDER) as Hc' by lia;
    destruct (free_head_facts st c p W Hc' Hin) as (Hp & Ho & Hal & Hend);
    assert (forall o, ((k <=? o) && (o <? c) = true) <-> k <= o < c) as Rng
      by (intros o; rewrite andb_true_iff, Z.leb_le, Z.ltb_lt; tauto).
  - (* nothing left to merge: the block goes back to the head of its list *)
    simpl in Hn. rewrite Z.add_0_r in Hn. subst k.
    assert (forall o, fl s o = drop p (fl st o)) as F0.
    { intros o. rewrite F.
      destruct ((c <=? o) && (o <? c)) eqn:E; auto. apply Rng in E. lia. }
    assert (allocated s p) as A.
    { repeat split; try lia. rewrite Op, F0. intros H. apply In_drop in H. tauto. }
    assert (~ In (buddy_of p (ord s p)) (fl s (ord s p))) as Hb.
    { rewrite Op, F0. intros H. apply In_drop in H. apply (B c p Hc' Hin). tauto. }
    rewrite (buddy_free_insert fuel s p Ws A Hb). f_equal. rewrite Op.
    assert (shape (with_list s c (p :: fl s c))) as S'
      by (apply shape_with_list; [apply (wf_shape s Ws)|lia]).
    apply state_ext; auto.
    + apply (wf_shape st W).
    + intros q Hq. rewrite ord_with_list.
      destruct (Z.eq_dec q p) as [->|Hne]; [congruence|].
      apply Oq; auto. intros o Ho'. lia.
    + intros o Ho'. rewrite fl_with_list by (try apply (wf_shape s Ws); lia).
      destruct (o =? c) eqn:E.
      * apply Z.eqb_eq in E. subst o. rewrite F0, Hl. f_equal.
        apply NoDup_head_drop. rewrite <- Hl. apply (wf_nodup st W c Hc').
      * apply Z.eqb_neq in E. rewrite F0. apply drop_notin.
        apply (free_head_elsewhere st c p o); auto.
  - (* the right half of order [k] is free: merge and go on *)
    destruct fuel as [|fuel]; [lia|].
    assert (k <= k < c) as Hkc by lia.
    assert (MIN_ORDER <= k <= MAX_ORDER) as Hk' by lia.
    assert (0 < psize k) as Pos by (apply psize_pos; lia).
    assert (psize (k + 1) = 2 * psize k) as Hs by (apply psize_succ; lia).
    assert (psize (k + 1) <= psize c) as Hsz.
    { destruct (Z.eq_dec (k + 1) c) as [->|]; [lia|].
      assert (psize (k + 1) < psize c) by (apply psize_lt; lia). lia. }
    assert (p mod psize (k + 1) = 0) as Hal1 by (apply aligned_down with c; auto; lia).
    assert (p mod psize k = 0) as Hal0 by (apply aligned_down with c; auto; lia).
    set (b := p + psize k).
    assert (buddy_of p k = b) as Eb.
    { destruct (buddy_of_aligned k p Hk' Hp Hal0) as [[_ E]|[E _]]; [exact E|lia]. }
    assert (ord st b = -1) as Ob.
    { apply (wf_interior st W p); auto; rewrite ?Ho; unfold b; lia. }
    assert (forall o, ~ In b (fl st o)) as Hbl
      by (intros o; now apply not_head_unlinked).
    assert (allocated s p) as A.
    { repeat split; try lia. rewrite Op, F, (proj2 (Rng k) Hkc).
      intros [H|H]; [lia|]. apply In_drop in H. tauto. }
    assert (In (buddy_of p (ord s p)) (fl s (ord s p))) as Hbin.
    { rewrite Op, Eb, F, (proj2 (Rng k) Hkc). now left. }
    destruct (buddy_free_merge fuel s p Ws A Hbin) as [_ E].
    destruct (merge_Inv s p Is A Hbin) as (I1 & _).
    rewrite E. rewrite Op, Eb in *. rewrite Z.min_l by (unfold b; lia).
    set (s1 := merge_step s p b k) in *.
    assert (0 <= b < N_PAGES) as Hbr by (unfold b; lia).
    assert (p <> b) as Hpb by (unfold b; lia).
    assert (forall q, ord s1 q =
              if q =? p then k + 1 else if q =? b then -1 else ord s q) as O1.
    { intros q. unfold s1. rewrite ord_merge_step; auto; try apply (wf_shape s Ws).
      now rewrite Z.min_l, Z.max_r by (unfold b; lia). }
    apply (IH fuel st s1 c (k + 1) p l); auto; try lia.
    + intros o. unfold s1. rewrite fl_merge_step, F.
      destruct (Z.eq_dec o k) as [->|Hok].
      * rewrite (proj2 (Rng k) Hkc).
        assert ((k + 1 <=? k) && (k <? c) = false) as E1.
        { apply andb_false_iff. left. apply Z.leb_gt. lia. }
        rewrite E1. fold b. rewrite drop_cons_eq. apply drop_notin.
        intros H. apply In_drop in H. apply (Hbl k). tauto.
      * assert ((k + 1 <=? o) && (o <? c) = (k <=? o) && (o <? c)) as E1.
        { f_equal. destruct (k <=? o) eqn:E2.
          - apply Z.leb_le in E2. apply Z.leb_le. lia.
          - apply Z.leb_gt in E2. apply Z.leb_gt. lia. }
        rewrite E1. destruct ((k <=? o) && (o <? c)) eqn:E2.
        { apply Rng in E2. rewrite drop_cons_ne.
          - f_equal. apply drop_notin. intros H. apply In_drop in H.
            apply (Hbl o). tauto.
          - unfold b.
            assert (psize k < psize o) by (apply psize_lt; lia). lia. }
        { apply drop_notin. intros H. apply In_drop in H. apply (Hbl o). tauto. }
    + rewrite O1, Z.eqb_refl. reflexivity.
    + intros o Ho'. rewrite O1.
      assert (0 < psize o) by (apply psize_pos; lia).
      assert (psize k < psize o) by (apply psize_lt; lia).
      assert ((p + psize o =? p) = false) as E1 by (apply Z.eqb_neq; lia).
      assert ((p + psize o =? b) = false) as E2 by (apply Z.eqb_neq; unfold b; lia).
      rewrite E1, E2. apply Or. lia.
    + intros q Hqp Hq. rewrite O1.
      assert ((q =? p) = false) as E1 by (now apply Z.eqb_neq). rewrite E1.
      destruct (q =? b) eqn:E2.
      * apply Z.eqb_eq in E2. subst q. now rewrite Ob.
      * apply Z.eqb_neq in E2. apply Oq; auto.
        intros o Ho'. destruct (Z.eq_dec o k) as [->|]; [exact E2|]. apply Hq. lia.
Qed.

(** X11. Allocating and at once freeing the block restores the state
    exactly: the page orders, the arena, and every free list with its
    entries in their order. This holds in every state that satisfies the
    invariant, however the arena is split up at the time. *)
Theorem alloc_free_round_trip st size st' off :
  Inv st -> buddy_alloc st size = Ret (st', Arena off) ->
  buddy_free st' (Arena off) = Ret st.
Proof.
  intros I E.
  destruct (buddy_alloc_split st size st' off I E)
    as (p & t & c & l & Ha & Ht & Htc & Hc & Hemp & Hl & W' & F & Op & Or & Oq & M).
  destruct (buddy_alloc_Inv st size st' (Arena off) I E)
    as [(H & _)|(p' & t' & _ & _ & _ & _ & I' & _)]; [discriminate|].
  rewrite Ha. unfold buddy_free.
  apply (buddy_free_unsplit (Z.to_nat (c - t)) DEPTH st st' c t p l); auto; try lia.
  unfold DEPTH. lia.
Qed.

Lemma alloc_free_round_trip_witness :
  buddy_alloc (state_of (buddy_alloc fresh 4096)) 5000 =
    Ret (state_of (buddy_alloc (state_of (buddy_alloc fresh 4096)) 5000), Arena 8192) /\
  buddy_free (state_of (buddy_alloc (state_of (buddy_alloc fresh 4096)) 5000))
    (Arena 8192) = Ret (state_of (buddy_alloc fresh 4096)).
Proof.
  split; [vm_compute; reflexivity|].
  apply (alloc_free_round_trip (state_of (buddy_alloc fresh 4096)) 5000 _ 8192
           (proj1 one_page_allocated)).
  vm_compute. reflexivity.
Defined.

(** X12. A block that is freed while its buddy is not free is the next one
    handed out for a request of its order: [buddy_alloc] returns the same
    address and restores the state as it was before the [buddy_free]. *)
Theorem free_alloc_round_trip st p size :
  Inv st -> allocated st p -> getOrder size = Ret (ord st p) ->
  ~ In (buddy_of p (ord st p)) (fl st (ord st p)) ->
  exists s,
    buddy_free st (PAGE_TO_ADDR p) = Ret s /\
    buddy_alloc s size = Ret (st, PAGE_TO_ADDR p).
Proof.
  intros I A Hg Hb. pose proof I as [W B].
  destruct (allocated_facts st p W A) as (Hp & Ho & Hal & Hnl).
  destruct (insert_Inv st p I A Hb) as [[Ws Bs] _].
  set (o := ord st p) in *.
  set (s := with_list st o (p :: fl st o)) in *.
  assert (fl s o = p :: fl st o) as Fo.
  { unfold s. rewrite fl_with_list by (try apply (wf_shape st W); lia).
    now rewrite Z.eqb_refl. }
  exists s. split; [unfold buddy_free; now apply buddy_free_insert|].
  rewrite (buddy_alloc_found s size o o p (fl st o)); auto; try lia.
  rewrite splitBlock_base; auto.
  - f_equal. f_equal. apply state_ext.
    + apply shape_unlinked, (wf_shape s Ws).
    + apply (wf_shape st W).
    + intros q Hq. reflexivity.
    + intros o' Ho'. rewrite fl_unlinked. unfold s.
      rewrite fl_with_list by (try apply (wf_shape st W); lia).
      destruct (o' =? o) eqn:E.
      * apply Z.eqb_eq in E. subst o'.
        rewrite drop_cons_eq. apply drop_notin, (Hnl o Ho).
      * apply drop_notin, (Hnl o' Ho').
    + reflexivity.
  - rewrite Fo. now left.
Qed.

Lemma free_alloc_round_trip_witness :
  allocated (state_of (buddy_alloc (state_of (buddy_alloc fresh 4096)) 4096)) 0 /\
  exists s,
    buddy_free (state_of (buddy_alloc (state_of (buddy_alloc fresh 4096)) 4096))
      (PAGE_TO_ADDR 0) = Ret s /\
    buddy_alloc s 4096 =
      Ret (state_of (buddy_alloc (state_of (buddy_alloc fresh 4096)) 4096),
           PAGE_TO_ADDR 0).
Proof.
  assert (buddy_alloc (state_of (buddy_alloc fresh 4096)) 4096 =
          Ret (state_of (buddy_alloc (state_of (buddy_alloc fresh 4096)) 4096),
               Arena 4096)) as E by (vm_compute; reflexivity).
  destruct (buddy_alloc_Inv _ _ _ _ (proj1 one_page_allocated) E)
    as [(H & _)|(p & t & Ha & _ & _ & _ & I' & _ & _ & _ & _ & A & _)];
    [discriminate|].
  assert (allocated (state_of (buddy_alloc (state_of (buddy_alloc fresh 4096)) 4096)) 0)
    as A0 by (apply A; left; exact (proj2 one_page_allocated)).
  split; [exact A0|].
  apply (free_alloc_round_trip _ 0 4096 I' A0).
  - vm_compute. reflexivity.
  - vm_compute. intros H. exact H.
Defined.

(** ** buddy_free on addresses that are not block bases *)

(** X13. [buddy_free] checks nothing about its argument. An address outside
    the arena indexes [g_pages] out of bounds; an address in a page that is
    not the first page of a block finds the order [-1] there and indexes
    [free_area[-1]]. In both cases the call has no defined result. *)
Theorem buddy_free_not_a_block st off :
  shape st -> - 2 ^ 63 <= off < 2 ^ 63 ->
  ~ (0 <= off < 2 ^ MAX_ORDER) \/ ord st (off / PAGE_SIZE) = -1 ->
  buddy_free st (Arena off) = Fault.
Proof.
  intros S Hr H. unfold buddy_free. rewrite buddy_free_rec_arena.
  unfold ADDR_TO_PAGE. rewrite bind_Ret. cbv beta.
  destruct (Z_lt_le_dec off 0) as [Hneg|Hpos].
  { assert (get_page st (to_ulong off / PAGE_SIZE) = Fault) as E.
    { unfold get_page. rewrite zget_None_out; auto.
      rewrite (pages_length st S). unfold to_ulong.
      replace (off mod 2 ^ 64) with (off + 2 ^ 64)
        by (apply Z.mod_unique with (-1); lia).
      rewrite PAGE_SIZE_eq. dlia. }
    now rewrite E. }
  assert (to_ulong off = off) as Eu by (unfold to_ulong; apply Z.mod_small; lia).
  rewrite Eu.
  destruct (Z_lt_le_dec off (2 ^ MAX_ORDER)) as [Hin|Hout].
  - destruct H as [H|H]; [lia|].
    assert (0 <= off / PAGE_SIZE < N_PAGES) as Hp.
    { rewrite PAGE_SIZE_eq. change (2 ^ MAX_ORDER) with 1048576 in Hin. dlia. }
    ret (get_page_ok st (off / PAGE_SIZE) S Hp). simpl order. rewrite H.
    reflexivity.
  - assert (get_page st (off / PAGE_SIZE) = Fault) as E.
    { unfold get_page. rewrite zget_None_out; auto.
      rewrite (pages_length st S). rewrite PAGE_SIZE_eq.
      change (2 ^ MAX_ORDER) with 1048576 in Hout. dlia. }
    now rewrite E.
Qed.

Lemma buddy_free_not_a_block_witness :
  ord (state_of (buddy_alloc fresh 8192)) (4096 / PAGE_SIZE) = -1 /\
  buddy_free (state_of (buddy_alloc fresh 8192)) (Arena 4096) = Fault.
Proof.
  split; [vm_compute; reflexivity|].
  apply (buddy_free_not_a_block (state_of (buddy_alloc fresh 8192)) 4096).
  - assert (buddy_alloc fresh 8192 =
            Ret (state_of (buddy_alloc fresh 8192), Arena 0)) as E
      by (vm_compute; reflexivity).
    destruct (buddy_alloc_Inv fresh 8192 _ _ Inv_fresh E)
      as [(H & _)|(p & t & _ & _ & _ & _ & I' & _)]; [discriminate|].
    exact (wf_shape _ (proj1 I')).
  - vm_compute. split; [discriminate|reflexivity].
  - right. vm_compute. reflexivity.
Defined.

(** X14. [buddy_free] sees its argument only through [ADDR_TO_PAGE]: every
    address inside a page is treated as the base address of that page. A
    pointer into the first page of an allocated block frees the block. *)
Theorem buddy_free_within_page st p d :
  0 <= p < N_PAGES -> 0 <= d < PAGE_SIZE ->
  buddy_free st (Arena (p * PAGE_SIZE + d)) = buddy_free st (PAGE_TO_ADDR p).
Proof.
  intros Hp Hd. unfold buddy_free.
  rewrite buddy_free_rec_eq, buddy_free_rec_arena.
  destruct (ADDR_TO_PAGE_within p d Hp Hd) as [E1 E2]. now rewrite E1, E2.
Qed.

Lemma buddy_free_within_page_witness :
  buddy_free (state_of (buddy_alloc fresh 4096)) (Arena (0 * PAGE_SIZE + 17)) =
  buddy_free (state_of (buddy_alloc fresh 4096)) (PAGE_TO_ADDR 0).
Proof.
  apply (buddy_free_within_page (state_of (buddy_alloc fresh 4096)) 0 17);
    vm_compute; split; try reflexivity; discriminate.
Defined.

(** ** buddy_dump and the free memory it reports *)

Lemma zrange_S lo n : zrange lo (S n) = lo :: zrange (lo + 1) n.
Proof.
  unfold zrange. simpl. f_equal; [lia|].
  rewrite <- seq_shift, map_map. apply map_ext. intros i. lia.
Qed.

Lemma kib_of_order o : MIN_ORDER <= o -> 2 ^ o / 1024 = 4 * psize o.
Proof.
  intros Ho. unfold psize.
  replace o with ((o - MIN_ORDER) + 12) at 1 by lia.
  rewrite Z.pow_add_r by lia. change (2 ^ 12) with (4 * 1024).
  rewrite Z.mul_assoc. rewrite Z.div_mul by lia. lia.
Qed.

(** On a well-shaped state the dump runs through all orders and reports,
    for each, the length of its free list and the block size in KiB. *)
Lemma dump_orders_ok st n : forall o,
  shape st -> MIN_ORDER <= o -> o + Z.of_nat n <= MAX_ORDER + 1 ->
  dump_orders n st o =
  Ret (map (fun o => (Z.of_nat (length (fl st o)), 4 * psize o)) (zrange o n)).
Proof.
  induction n as [|n IH]; intros o S Ho Hn; [reflexivity|].
  rewrite zrange_S. simpl dump_orders.
  ret (entries_of_ok st o S) by lia.
  ret shl_int_one by lia.
  pose proof (pow2_pos o) as Hp.
  ret div_int_pos by lia.
  ret IH by (auto; lia).
  rewrite Z.quot_div_nonneg by lia. rewrite kib_of_order by lia. reflexivity.
Qed.

Lemma buddy_dump_ok st :
  shape st ->
  buddy_dump st =
  Ret (map (fun o => (Z.of_nat (length (fl st o)), 4 * psize o)) all_orders).
Proof.
  intros S. unfold buddy_dump, all_orders. apply dump_orders_ok; auto; lia.
Qed.

Lemma dump_total_pages st l :
  dump_total (map (fun o => (Z.of_nat (length (fl st o)), 4 * psize o)) l) =
  4 * sum_orders (fun o => Z.of_nat (length (fl st o)) * psize o) l.
Proof.
  induction l as [|o l IH]; [reflexivity|].
  unfold dump_total, sum_orders in *. cbn [map fold_right fst snd].
  rewrite IH. lia.
Qed.

Lemma sum_orders_add f g h l :
  (forall o, In o l -> f o = g o + h o) ->
  sum_orders f l = sum_orders g l + sum_orders h l.
Proof.
  induction l as [|o l IH]; intros H; [reflexivity|].
  simpl. rewrite (H o) by now left. rewrite IH; [lia|].
  intros o' Ho'. apply H. now right.
Qed.

Lemma sum_orders_zero h l :
  (forall o, In o l -> h o = 0) -> sum_orders h l = 0.
Proof.
  induction l as [|o l IH]; intros H; [reflexivity|].
  simpl. rewrite (H o) by now left. rewrite IH; [lia|].
  intros o' Ho'. apply H. now right.
Qed.

Lemma sum_orders_single l : forall o v,
  NoDup l -> In o l -> sum_orders (fun o' => if o' =? o then v else 0) l = v.
Proof.
  induction l as [|a l IH]; intros o v ND Hin; [contradiction|].
  inversion ND as [|? ? Hn ND']. subst. simpl.
  destruct Hin as [->|Hin].
  - rewrite Z.eqb_refl. rewrite sum_orders_zero; [lia|].
    intros o' Ho'. destruct (o' =? o) eqn:E; auto.
    apply Z.eqb_eq in E. subst. contradiction.
  - destruct (a =? o) eqn:E.
    + apply Z.eqb_eq in E. subst. contradiction.
    + rewrite IH; auto.
Qed.

Lemma NoDup_all_orders : NoDup all_orders.
Proof.
  change all_orders with [12; 13; 14; 15; 16; 17; 18; 19; 20].
  repeat constructor; simpl; intuition discriminate.
Qed.

Lemma length_drop_in b l :
  NoDup l -> In b l -> Z.of_nat (length (drop b l)) = Z.of_nat (length l) - 1.
Proof.
  induction l as [|a l IH]; intros ND Hin; [contradiction|].
  inversion ND as [|? ? Hn ND']. subst.
  destruct Hin as [->|Hin].
  - rewrite drop_cons_eq, drop_notin by auto. simpl length. lia.
  - assert (a <> b) by (intros ->; contradiction).
    rewrite drop_cons_ne by auto. simpl length. rewrite !Nat2Z.inj_succ.
    rewrite IH by auto. lia.
Qed.

(** What a split from order [c] down to order [t] adds to the free pages:
    the right halves, less the block that was split. *)
Lemma split_delta t c :
  MIN_ORDER <= t <= c -> c <= MAX_ORDER ->
  sum_orders (fun o => (if (t <=? o) && (o <? c) then psize o else 0)
                       - (if o =? c then psize c else 0)) all_orders
  = - psize t.
Proof.
  intros Ht Hc.
  assert (MIN_ORDER <= t <= MAX_ORDER) as Ht' by lia.
  assert (MIN_ORDER <= c <= MAX_ORDER) as Hc' by lia.
  destruct (order_cases t Ht') as [T|[T|[T|[T|[T|[T|[T|[T|T]]]]]]]];
    destruct (order_cases c Hc') as [C|[C|[C|[C|[C|[C|[C|[C|C]]]]]]]];
    subst t c; try lia; reflexivity.
Qed.

(** A block handed out by [buddy_alloc] takes exactly its own pages out of
    the free pages. *)
Lemma buddy_alloc_pages st size st' off :
  Inv st -> buddy_alloc st size = Ret (st', Arena off) ->
  exists t, getOrder size = Ret t /\ MIN_ORDER <= t <= MAX_ORDER /\
            ord st' (off / PAGE_SIZE) = t /\
            free_pages st' = free_pages st - psize t.
Proof.
  intros I E. pose proof I as [W B].
  destruct (buddy_alloc_split st size st' off I E)
    as (p & t & c & l & Ha & Ht & Htc & Hc & Hemp & Hl & W' & F & Op & Or & Oq & M).
  assert (In p (fl st c)) as Hin by (rewrite Hl; now left).
  assert (MIN_ORDER <= c <= MAX_ORDER) as Hc' by lia.
  destruct (free_head_facts st c p W Hc' Hin) as (Hp & Ho & Hal & Hend).
  exists t. split; [auto|]. split; [lia|]. split.
  { unfold PAGE_TO_ADDR in Ha. inversion Ha. rewrite Z.div_mul by lia. exact Op. }
  unfold free_pages.
  rewrite (sum_orders_add _
             (fun o => Z.of_nat (length (fl st o)) * psize o)
             (fun o => (if (t <=? o) && (o <? c) then psize o else 0)
                       - (if o =? c then psize c else 0))).
  - rewrite split_delta by lia. lia.
  - intros o Hoin. apply In_all_orders in Hoin. rewrite F.
    destruct (Z.eq_dec o c) as [->|Hoc].
    + assert ((t <=? c) && (c <? c) = false) as E1.
      { apply andb_false_iff. right. apply Z.ltb_ge. lia. }
      rewrite E1, Z.eqb_refl.
      rewrite length_drop_in; auto; [lia|apply (wf_nodup st W c Hc')].
    + assert ((o =? c) = false) as E1 by (now apply Z.eqb_neq). rewrite E1.
      rewrite drop_notin by (apply (free_head_elsewhere st c p o); auto).
      destruct ((t <=? o) && (o <? c)); simpl length;
        rewrite ?Nat2Z.inj_succ; lia.
Qed.

(** Freeing an allocated block returns exactly its pages to the free pages
    and leaves the order of every other allocated block as it was. *)
Lemma buddy_free_pages n : forall fuel st p,
  Inv st -> allocated st p -> MAX_ORDER - ord st p <= Z.of_nat n ->
  (n <= fuel)%nat ->
  exists st',
    buddy_free_rec fuel st (PAGE_TO_ADDR p) = Ret st' /\
    free_pages st' = free_pages st + psize (ord st p) /\
    (forall q, allocated st q -> q <> p -> ord st' q = ord st q).
Proof.
  induction n as [|n IH]; intros fuel st p I A Hn Hf;
    pose proof I as [W B];
    destruct (allocated_facts st p W A) as (Hp & Ho & Hal & Hnl);
    destruct (in_dec Z.eq_dec (buddy_of p (ord st p)) (fl st (ord st p))) as [Hin|Hin].
  - destruct (buddy_free_merge fuel st p W A Hin) as [Hlt _]. lia.
  - exists (with_list st (ord st p) (p :: fl st (ord st p))).
    split; [now apply buddy_free_insert|]. split; [|intros; reflexivity].
    unfold free_pages.
    rewrite (sum_orders_add _
               (fun o => Z.of_nat (length (fl st o)) * psize o)
               (fun o => if o =? ord st p then psize (ord st p) else 0)).
    + rewrite sum_orders_single;
        [lia|apply NoDup_all_orders|now apply In_all_orders].
    + intros o Hoin. rewrite fl_with_list by (try apply (wf_shape st W); lia).
      destruct (o =? ord st p) eqn:E; [|lia].
      apply Z.eqb_eq in E. subst o. simpl length. rewrite Nat2Z.inj_succ. lia.
  - destruct fuel as [|fuel]; [lia|].
    destruct (buddy_free_merge fuel st p W A Hin) as [Hlt E].
    destruct (merge_Inv st p I A Hin) as (I1 & A1 & O1 & Q1 & Hnb).
    destruct (wf_list st W _ _ Ho Hin) as [Hb Hob].
    assert (p <> buddy_of p (ord st p)) as Hne.
    { intros Eq. rewrite <- Eq in Hin. apply (Hnl _ Ho Hin). }
    destruct (IH fuel _ _ I1 A1) as (st' & E' & P' & K'); [lia|lia|].
    exists st'. split; [now rewrite E|]. split.
    + rewrite P', O1. rewrite psize_succ by lia.
      assert (free_pages (merge_step st p (buddy_of p (ord st p)) (ord st p)) =
              free_pages st - psize (ord st p)) as E1; [|lia].
      unfold free_pages.
      rewrite (sum_orders_add _
                 (fun o => Z.of_nat (length (fl st o)) * psize o)
                 (fun o => if o =? ord st p then - psize (ord st p) else 0)).
      * rewrite sum_orders_single;
          [lia|apply NoDup_all_orders|now apply In_all_orders].
      * intros o Hoin. apply In_all_orders in Hoin. rewrite fl_merge_step.
        destruct (o =? ord st p) eqn:E2.
        { apply Z.eqb_eq in E2. subst o.
          rewrite length_drop_in; auto; [lia|apply (wf_nodup st W _ Ho)]. }
        { apply Z.eqb_neq in E2. rewrite drop_notin; [lia|].
          intros H. destruct (wf_list st W o _ Hoin H) as [_ H1]. congruence. }
    + intros q Aq Hqp.
      assert (q <> buddy_of p (ord st p)) as Hqb by (intros ->; contradiction).
      rewrite K'.
      * rewrite ord_merge_step; auto; try apply (wf_shape st W).
        assert ((q =? Z.min p (buddy_of p (ord st p))) = false) as E1
          by (apply Z.eqb_neq; lia).
        assert ((q =? Z.max p (buddy_of p (ord st p))) = false) as E2
          by (apply Z.eqb_neq; lia).
        now rewrite E1, E2.
      * apply Q1. left. split; auto.
      * lia.
  - exists (with_list st (ord st p) (p :: fl st (ord st p))).
    split; [now apply buddy_free_insert|]. split; [|intros; reflexivity].
    unfold free_pages.
    rewrite (sum_orders_add _
               (fun o => Z.of_nat (length (fl st o)) * psize o)
               (fun o => if o =? ord st p then psize (ord st p) else 0)).
    + rewrite sum_orders_single;
        [lia|apply NoDup_all_orders|now apply In_all_orders].
    + intros o Hoin. rewrite fl_with_list by (try apply (wf_shape st W); lia).
      destruct (o =? ord st p) eqn:E; [|lia].
      apply Z.eqb_eq in E. subst o. simpl length. rewrite Nat2Z.inj_succ. lia.
Qed.

Lemma dump_total_bytes st d :
  shape st -> buddy_dump st = Ret d ->
  dump_total d * 1024 = free_pages st * PAGE_SIZE.
Proof.
  intros S E.
  assert (d = map (fun o => (Z.of_nat (length (fl st o)), 4 * psize o)) all_orders)
    as -> by (rewrite (buddy_dump_ok st S) in E; congruence).
  rewrite dump_total_pages. unfold free_pages. lia.
Qed.

(** X15. A block handed out by [buddy_alloc] lowers the free memory that
    [buddy_dump] reports by exactly the size of the block, [2^t] bytes for a
    request of order [t]: splitting loses nothing. *)
Theorem dump_after_alloc st size st' off :
  Inv st -> buddy_alloc st size = Ret (st', Arena off) ->
  exists d d' t,
    getOrder size = Ret t /\ buddy_dump st = Ret d /\ buddy_dump st' = Ret d' /\
    dump_total d' * 1024 = dump_total d * 1024 - 2 ^ t.
Proof.
  intros I E.
  destruct (buddy_alloc_pages st size st' off I E) as (t & Ht & Hr & _ & P).
  destruct (buddy_alloc_Inv st size st' (Arena off) I E)
    as [(H & _)|(p' & t' & _ & _ & _ & _ & I' & _)]; [discriminate|].
  pose proof (wf_shape st (proj1 I)) as S.
  pose proof (wf_shape st' (proj1 I')) as S'.
  eexists _, _, t. split; [exact Ht|].
  split; [apply (buddy_dump_ok st S)|]. split; [apply (buddy_dump_ok st' S')|].
  rewrite (dump_total_bytes st' _ S' (buddy_dump_ok st' S')).
  rewrite (dump_total_bytes st _ S (buddy_dump_ok st S)).
  rewrite P. rewrite <- (psize_bytes t) by lia. lia.
Qed.

Lemma dump_after_alloc_witness :
  exists d d' t,
    getOrder 5000 = Ret t /\ buddy_dump fresh = Ret d /\
    buddy_dump (state_of (buddy_alloc fresh 5000)) = Ret d' /\
    dump_total d' * 1024 = dump_total d * 1024 - 2 ^ t.
Proof.
  apply (dump_after_alloc fresh 5000 (state_of (buddy_alloc fresh 5000)) 0 Inv_fresh).
  vm_compute. reflexivity.
Defined.

(** X16. Freeing an allocated block raises the free memory that
    [buddy_dump] reports by exactly the size of the block, however many
    merges the call makes. *)
Theorem dump_after_free st p :
  Inv st -> allocated st p ->
  exists st' d d',
    buddy_free st (PAGE_TO_ADDR p) = Ret st' /\
    buddy_dump st = Ret d /\ buddy_dump st' = Ret d' /\
    dump_total d' * 1024 = dump_total d * 1024 + 2 ^ ord st p.
Proof.
  intros I A. pose proof I as [W B].
  destruct (allocated_facts st p W A) as (Hp & Ho & _).
  destruct (buddy_free_live st p I A) as (st' & E & I' & _).
  destruct (buddy_free_pages 8 DEPTH st p I A) as (st'' & E' & P & _).
  { change (Z.of_nat 8) with 8. lia. }
  { unfold DEPTH. lia. }
  unfold buddy_free in E. assert (st'' = st') as -> by congruence.
  pose proof (wf_shape st W) as S.
  pose proof (wf_shape st' (proj1 I')) as S'.
  eexists st', _, _. split; [exact E|].
  split; [apply (buddy_dump_ok st S)|]. split; [apply (buddy_dump_ok st' S')|].
  rewrite (dump_total_bytes st' _ S' (buddy_dump_ok st' S')).
  rewrite (dump_total_bytes st _ S (buddy_dump_ok st S)).
  rewrite P. rewrite <- (psize_bytes (ord st p)) by lia. lia.
Qed.

Lemma dump_after_free_witness :
  exists st' d d',
    buddy_free (state_of (buddy_alloc fresh 4096)) (PAGE_TO_ADDR 0) = Ret st' /\
    buddy_dump (state_of (buddy_alloc fresh 4096)) = Ret d /\
    buddy_dump st' = Ret d' /\
    dump_total d' * 1024 =
    dump_total d * 1024 + 2 ^ ord (state_of (buddy_alloc fresh 4096)) 0.
Proof.
  exact (dump_after_free (state_of (buddy_alloc fresh 4096)) 0
           (proj1 one_page_allocated) (proj2 one_page_allocated)).
Defined.

(** ** Runs of calls: conservation, partition, round trip, progress *)

Lemma NoDup_remove_ptr a l : NoDup l -> NoDup (remove ptr_eq_dec a l).
Proof.
  induction l as [|b l IH]; intros ND; [constructor|].
  inversion ND as [|? ? Hn ND']. subst. simpl.
  destruct (ptr_eq_dec a b); auto.
  constructor; auto. intros H. apply in_remove in H. tauto.
Qed.

Lemma live_bytes_cons st a live :
  live_bytes st (a :: live) =
  match a with
  | NULL => live_bytes st live
  | Arena off => 2 ^ ord st (off / PAGE_SIZE) + live_bytes st live
  end.
Proof. destruct a; reflexivity. Qed.

Lemma live_bytes_ext st st' live :
  (forall off, In (Arena off) live ->
     ord st' (off / PAGE_SIZE) = ord st (off / PAGE_SIZE)) ->
  live_bytes st' live = live_bytes st live.
Proof.
  induction live as [|a live IH]; intros H; [reflexivity|].
  rewrite !live_bytes_cons. rewrite IH by (intros off Hin; apply H; now right).
  destruct a as [|off]; auto. rewrite (H off) by now left. reflexivity.
Qed.

Lemma live_bytes_remove st off live :
  NoDup live -> In (Arena off) live ->
  live_bytes st (remove ptr_eq_dec (Arena off) live) =
  live_bytes st live - 2 ^ ord st (off / PAGE_SIZE).
Proof.
  induction live as [|a live IH]; intros ND Hin; [contradiction|].
  inversion ND as [|? ? Hn ND']. subst. cbn [remove].
  destruct (ptr_eq_dec (Arena off) a) as [<-|Hne].
  - rewrite notin_remove by auto. rewrite live_bytes_cons. lia.
  - destruct Hin as [->|Hin]; [contradiction|].
    rewrite !live_bytes_cons. rewrite IH by auto. destruct a; lia.
Qed.

Lemma page_of_PAGE_TO_ADDR q off :
  Arena off = PAGE_TO_ADDR q -> off / PAGE_SIZE = q.
Proof.
  unfold PAGE_TO_ADDR. intros H. inversion H. apply Z.div_mul. lia.
Qed.

(** Every call of a completed run keeps the balance of free and live
    bytes. *)
Lemma run_account tr : forall st live st' live',
  Inv st -> live_ok st live -> NoDup live ->
  free_pages st * PAGE_SIZE + live_bytes st live = 2 ^ MAX_ORDER ->
  run tr st live = Done st' live' ->
  NoDup live' /\
  free_pages st' * PAGE_SIZE + live_bytes st' live' = 2 ^ MAX_ORDER.
Proof.
  induction tr as [|[size|a] tr IH]; intros st live st' live' I L ND Bal H;
    simpl in H.
  - inversion H. subst. auto.
  - destruct (buddy_alloc st size) as [[st1 a]| |] eqn:E; try discriminate.
    destruct (buddy_alloc_Inv st size st1 a I E)
      as [(-> & -> & _)|(p & t & -> & _ & _ & _ & I1 & _ & _ & _ & Hnp & A1 & _)].
    + now apply (IH st live).
    + simpl in H. pose proof E as E0. unfold PAGE_TO_ADDR in E0.
      destruct (buddy_alloc_pages st size st1 _ I E0) as (t' & _ & Hr & Ot & P).
      destruct (buddy_alloc_keeps st size st1 _ I E0) as (p' & Hp' & _ & _ & K).
      assert (live_ok st1 (PAGE_TO_ADDR p :: live)) as L1
        by (now apply live_ok_alloc with st).
      apply (IH st1 _ st' live' I1 L1); auto.
      * constructor; auto. intros Hin. apply L in Hin.
        destruct Hin as (q & Hq & Aq). apply PAGE_TO_ADDR_inj in Hq. now subst.
      * unfold PAGE_TO_ADDR at 1. rewrite live_bytes_cons. rewrite Ot.
        rewrite (live_bytes_ext st st1 live).
        { rewrite P. rewrite <- (psize_bytes t') by lia. lia. }
        intros off Hin. apply L in Hin. destruct Hin as (q & Hq & Aq).
        rewrite (page_of_PAGE_TO_ADDR q off Hq). now apply K.
  - destruct (in_dec ptr_eq_dec a live) as [Hin|]; [|discriminate].
    pose proof Hin as Hin'. apply L in Hin. destruct Hin as (q & -> & Hq).
    destruct (buddy_free_live st q I Hq) as (st1 & E & I1 & A1 & M1).
    destruct (buddy_free_pages 8 DEPTH st q I Hq) as (st2 & E2 & P & K).
    { change (Z.of_nat 8) with 8.
      destruct (allocated_facts st q (proj1 I) Hq) as (_ & Ho & _). lia. }
    { unfold DEPTH. lia. }
    assert (st2 = st1) as -> by (unfold buddy_free in E; congruence).
    rewrite E in H.
    assert (live_ok st1 (remove ptr_eq_dec (PAGE_TO_ADDR q) live)) as L1
      by (now apply live_ok_free with st).
    destruct (allocated_facts st q (proj1 I) Hq) as (Hqr & Ho & _).
    apply (IH st1 _ st' live' I1 L1); auto.
    + now apply NoDup_remove_ptr.
    + rewrite (live_bytes_ext st st1).
      * unfold PAGE_TO_ADDR. rewrite live_bytes_remove by auto.
        rewrite Z.div_mul by lia. rewrite P.
        rewrite <- (psize_bytes (ord st q)) by lia. lia.
      * intros off Hoff. apply in_remove in Hoff. destruct Hoff as [Hoff Hne].
        apply L in Hoff. destruct Hoff as (x & Hx & Ax).
        rewrite (page_of_PAGE_TO_ADDR x off Hx). apply K; auto.
        intros ->. apply Hne. exact Hx.
Qed.

(** X17. Conservation of memory. After any run of calls from [buddy_init]
    that has returned, the free memory that [buddy_dump] reports and the
    sizes of the live blocks add up to the size of the arena, and no address
    is live twice. *)
Theorem memory_is_conserved tr st live :
  run tr fresh [] = Done st live ->
  NoDup live /\
  exists d, buddy_dump st = Ret d /\
            dump_total d * 1024 + live_bytes st live = 2 ^ MAX_ORDER.
Proof.
  intros H.
  destruct (run_Inv tr fresh [] st live Inv_fresh live_ok_fresh H) as ([W _] & _).
  assert (free_pages fresh * PAGE_SIZE + live_bytes fresh [] = 2 ^ MAX_ORDER)
    as Bal0 by (vm_compute; reflexivity).
  destruct (run_account tr fresh [] st live Inv_fresh live_ok_fresh
              (NoDup_nil ptr) Bal0 H) as [ND Bal].
  split; auto. pose proof (wf_shape st W) as S.
  eexists. split; [apply (buddy_dump_ok st S)|].
  now rewrite (dump_total_bytes st _ S (buddy_dump_ok st S)).
Qed.

Lemma memory_is_conserved_witness :
  final_live (run [Alloc 4096; Alloc 5000; Free (Arena 0)] fresh []) = [Arena 8192] /\
  exists d,
    buddy_dump (final_state (run [Alloc 4096; Alloc 5000; Free (Arena 0)] fresh []))
      = Ret d /\
    dump_total d * 1024 +
    live_bytes (final_state (run [Alloc 4096; Alloc 5000; Free (Arena 0)] fresh []))
      [Arena 8192] = 2 ^ MAX_ORDER.
Proof.
  split; [vm_compute; reflexivity|].
  apply (memory_is_conserved [Alloc 4096; Alloc 5000; Free (Arena 0)] _ [Arena 8192]).
  vm_compute. reflexivity.
Defined.

(** X18. The arena stays partitioned. After any run of calls from
    [buddy_init] that has returned, every page lies in exactly one block; the
    block has an order in range, is aligned to its size and lies inside the
    arena; and it is an entry of the free list of its order exactly when its
    address is not live. *)
Theorem arena_is_partitioned tr st live q :
  run tr fresh [] = Done st live -> 0 <= q < N_PAGES ->
  exists p,
    0 <= p <= q /\ q < p + psize (ord st p) /\
    MIN_ORDER <= ord st p <= MAX_ORDER /\ p mod psize (ord st p) = 0 /\
    p + psize (ord st p) <= N_PAGES /\
    (In p (fl st (ord st p)) <-> ~ In (PAGE_TO_ADDR p) live) /\
    (forall p', 0 <= p' <= q -> ord st p' <> -1 -> q < p' + psize (ord st p') ->
       p' = p).
Proof.
  intros H Hq.
  destruct (run_Inv tr fresh [] st live Inv_fresh live_ok_fresh H) as ([W B] & L & _).
  destruct (wf_cover st W q Hq) as (p & Hp & Hop & Hcov).
  assert (0 <= p < N_PAGES) as Hp' by lia.
  destruct (wf_head st W p Hp') as [Hh|[Hr Hal]]; [contradiction|].
  exists p. repeat split; auto; try lia.
  - clear - Hr Hal Hp'. by_order (ord st p) Hr; dlia.
  - intros Hin Hl. apply L in Hl. destruct Hl as (x & Hx & (_ & _ & Hn)).
    apply PAGE_TO_ADDR_inj in Hx. subst x. contradiction.
  - intros Hn. destruct (in_dec Z.eq_dec p (fl st (ord st p))) as [|Hnin]; auto.
    exfalso. apply Hn. apply L. exists p. split; auto. repeat split; auto; lia.
  - intros p' Hp1 Ho1 Hc1.
    apply (cover_unique st p' p q W); auto; lia.
Qed.

Lemma arena_is_partitioned_witness :
  exists p,
    0 <= p <= 5 /\
    5 < p + psize (ord (final_state (run [Alloc 4096; Alloc 5000] fresh [])) p) /\
    MIN_ORDER <= ord (final_state (run [Alloc 4096; Alloc 5000] fresh [])) p
      <= MAX_ORDER /\
    p mod psize (ord (final_state (run [Alloc 4096; Alloc 5000] fresh [])) p) = 0 /\
    p + psize (ord (final_state (run [Alloc 4096; Alloc 5000] fresh [])) p)
      <= N_PAGES /\
    (In p (fl (final_state (run [Alloc 4096; Alloc 5000] fresh []))
             (ord (final_state (run [Alloc 4096; Alloc 5000] fresh [])) p)) <->
     ~ In (PAGE_TO_ADDR p) [Arena 8192; Arena 0]) /\
    (forall p', 0 <= p' <= 5 ->
       ord (final_state (run [Alloc 4096; Alloc 5000] fresh [])) p' <> -1 ->
       5 < p' + psize (ord (final_state (run [Alloc 4096; Alloc 5000] fresh [])) p') ->
       p' = p).
Proof.
  apply (arena_is_partitioned [Alloc 4096; Alloc 5000] _ [Arena 8192; Arena 0] 5).
  - vm_compute. reflexivity.
  - vm_compute. split; [discriminate|reflexivity].
Defined.

(** X19. The round trip. A run of calls from [buddy_init] that has returned
    has freed every block it was given exactly when its final state is the
    state that [buddy_init] left: one free block of order [MAX_ORDER], every
    other list empty, every other page order [-1]. *)
Theorem all_freed_iff_fresh tr st live :
  run tr fresh [] = Done st live -> (live = [] <-> st = fresh).
Proof.
  intros H. split.
  - intros ->. now apply round_trip with tr.
  - intros ->.
    destruct (run_Inv tr fresh [] fresh live Inv_fresh live_ok_fresh H) as (_ & L & _).
    destruct live as [|a live]; auto. exfalso.
    destruct (proj1 (L a) (or_introl eq_refl)) as (q & _ & A).
    now apply (no_allocated_fresh q).
Qed.

Lemma all_freed_iff_fresh_witness :
  run [Alloc 4096; Alloc 5000; Free (Arena 8192); Free (Arena 0)] fresh []
    = Done fresh [] /\
  ([] = ([] : list ptr) <-> fresh = fresh).
Proof.
  split; [vm_compute; reflexivity|].
  apply (all_freed_iff_fresh
           [Alloc 4096; Alloc 5000; Free (Arena 8192); Free (Arena 0)] fresh []).
  vm_compute. reflexivity.
Defined.

(** X20. Progress. A run in which every request is positive and at most
    [2^30] bytes and finds a sufficient free list non-empty when it fits the
    arena, and in which every freed address is live, returns from every call;
    the final state satisfies the allocator invariant. *)
Theorem admissible_run_returns tr :
  admissible tr fresh [] ->
  exists st live, run tr fresh [] = Done st live /\ Inv st /\ live_ok st live.
Proof.
  intros H.
  destruct (run_total tr fresh [] Inv_fresh live_ok_fresh H) as (st & live & E).
  destruct (run_Inv tr fresh [] st live Inv_fresh live_ok_fresh E) as (I & L & _).
  eauto.
Qed.

Lemma admissible_run_returns_witness :
  exists st live,
    run [Alloc 4096; Free (Arena 0)] fresh [] = Done st live /\
    Inv st /\ live_ok st live.
Proof.
  apply (admissible_run_returns [Alloc 4096; Free (Arena 0)]).
  simpl. split; [vm_compute; split; [reflexivity|discriminate]|]. split.
  - intros t Ht _ Hex. vm_compute in Ht. injection Ht as <-.
    specialize (Hex MAX_ORDER). vm_compute in Hex.
    assert (([0] : list Z) = []) as E
      by (apply Hex; split; discriminate).
    discriminate.
  - intros st' a E.
    assert (a = Arena 0) as ->.
    { assert (buddy_alloc fresh 4096 = Ret (state_of (buddy_alloc fresh 4096), Arena 0))
        as E' by (vm_compute; reflexivity).
      congruence. }
    split; [now left|]. intros; exact Logic.I.
Defined.
